(** * WebGLNeuralNetwork: the particle-network animation of webgl-animation-system.js

    A shallow embedding of the class [WebGLNeuralNetwork] and of the host
    objects it talks to (the DOM listener registry, the frame scheduler, the
    GL context, the 2D context, the console), of the class
    [AIScrollAnimations] and of the dark mode toggle of [initAIComponents].

    Numbers.  A JavaScript number is read as a real number: [Math.sqrt] is
    [sqrt], [Math.sin] is [sin], [Math.floor] is [Zfloor], [Math.min] and
    [Math.max] are [Rmin] and [Rmax].  Rounding, overflow and NaN are outside
    the model.  Counts that the code only ever produces with [Math.floor] or
    [parseInt] are integers ([Z]).

    The GL trace.  Of the calls on [this.gl] the trace records the creation
    and deletion of buffers and programs, [viewport], the buffer uploads
    (with the length of the array), [useProgram], [drawArrays], [finish],
    [clearColor] and [clear].  Shader compilation, buffer bindings,
    uniforms, attribute set-up, blending and line width are not recorded,
    and a context that exists is never lost ([getParameter] returns its
    range). *)

From Stdlib Require Import Reals Lra Lia ZArith List Bool String Ascii Permutation.
Import ListNotations.

Local Open Scope R_scope.

(* ------------------------------------------------------------------------- *)
(** ** Numbers *)

(** [a < b] as the boolean a JavaScript comparison returns. *)
Definition Rltb (a b : R) : bool := if Rlt_dec a b then true else false.

(* ------------------------------------------------------------------------- *)
(** ** Data: nodes, the pointer, the options *)

(** One element of [this.nodes] (see [createNodes]). *)
Record Node : Type := mkNode {
  n_x : R;
  n_y : R;
  n_vx : R;
  n_vy : R;
  n_size : R;
  n_originalSize : R;
  n_pulseOffset : R
}.

(** [this.mouse]. *)
Record Mouse : Type := mkMouse {
  m_x : R;
  m_y : R;
  m_active : bool
}.

(** [this.performanceLevel]: the strings 'high', 'medium', 'low'. *)
Inductive PerformanceLevel : Type := high | medium | low.

Inductive Theme : Type := light | dark.

(** [this.options].  The three colour vectors only reach uniforms and fill
    styles and are left out. *)
Record Options : Type := mkOptions {
  nodeCount : Z;
  connectionDistance : R;
  nodeSize : R;
  speed : R;
  interactive : bool;
  pulseEffect : bool;
  adaptivePerformance : bool;
  theme : Theme;
  dataFlowEffect : bool
}.

(** An options object as a caller passes it: every key may be absent. *)
Record PartialOptions : Type := mkPartial {
  p_nodeCount : option Z;
  p_connectionDistance : option R;
  p_nodeSize : option R;
  p_speed : option R;
  p_interactive : option bool;
  p_pulseEffect : option bool;
  p_adaptivePerformance : option bool;
  p_theme : option Theme;
  p_dataFlowEffect : option bool
}.

Definition noOptions : PartialOptions :=
  mkPartial None None None None None None None None None.

(** The literal of the constructor. *)
Definition defaultOptions : Options :=
  {| nodeCount := 150;
     connectionDistance := 120;
     nodeSize := 2.5;
     speed := 0.5;
     interactive := true;
     pulseEffect := true;
     adaptivePerformance := true;
     theme := light;
     dataFlowEffect := true |}.

Definition orElse {A : Type} (o : option A) (d : A) : A :=
  match o with Some a => a | None => d end.

(** [{ ...base, ...over }]. *)
Definition spread (base : Options) (over : PartialOptions) : Options :=
  {| nodeCount := orElse (p_nodeCount over) (nodeCount base);
     connectionDistance := orElse (p_connectionDistance over) (connectionDistance base);
     nodeSize := orElse (p_nodeSize over) (nodeSize base);
     speed := orElse (p_speed over) (speed base);
     interactive := orElse (p_interactive over) (interactive base);
     pulseEffect := orElse (p_pulseEffect over) (pulseEffect base);
     adaptivePerformance := orElse (p_adaptivePerformance over) (adaptivePerformance base);
     theme := orElse (p_theme over) (theme base);
     dataFlowEffect := orElse (p_dataFlowEffect over) (dataFlowEffect base) |}.

Definition set_nodeCount (o : Options) (v : Z) : Options :=
  {| nodeCount := v;
     connectionDistance := connectionDistance o;
     nodeSize := nodeSize o;
     speed := speed o;
     interactive := interactive o;
     pulseEffect := pulseEffect o;
     adaptivePerformance := adaptivePerformance o;
     theme := theme o;
     dataFlowEffect := dataFlowEffect o |}.

Definition set_connectionDistance (o : Options) (v : R) : Options :=
  {| nodeCount := nodeCount o;
     connectionDistance := v;
     nodeSize := nodeSize o;
     speed := speed o;
     interactive := interactive o;
     pulseEffect := pulseEffect o;
     adaptivePerformance := adaptivePerformance o;
     theme := theme o;
     dataFlowEffect := dataFlowEffect o |}.

Definition set_speed (o : Options) (v : R) : Options :=
  {| nodeCount := nodeCount o;
     connectionDistance := connectionDistance o;
     nodeSize := nodeSize o;
     speed := v;
     interactive := interactive o;
     pulseEffect := pulseEffect o;
     adaptivePerformance := adaptivePerformance o;
     theme := theme o;
     dataFlowEffect := dataFlowEffect o |}.

Definition set_dataFlowEffect (o : Options) (v : bool) : Options :=
  {| nodeCount := nodeCount o;
     connectionDistance := connectionDistance o;
     nodeSize := nodeSize o;
     speed := speed o;
     interactive := interactive o;
     pulseEffect := pulseEffect o;
     adaptivePerformance := adaptivePerformance o;
     theme := theme o;
     dataFlowEffect := v |}.

(* ------------------------------------------------------------------------- *)
(** ** updateNodes: one simulation tick

    The body of the [forEach] callback, block by block.  Every block reads
    the node as the blocks before it left it. *)

(** [node.x += node.vx; node.y += node.vy;] *)
Definition integrate (n : Node) : Node :=
  mkNode (n_x n + n_vx n) (n_y n + n_vy n) (n_vx n) (n_vy n)
         (n_size n) (n_originalSize n) (n_pulseOffset n).

(** [if (node.x < 0 || node.x > this.width) { node.vx *= -1; node.x = ... }] *)
Definition boundaryX (width : R) (n : Node) : Node :=
  if Rltb (n_x n) 0 || Rltb width (n_x n) then
    mkNode (Rmax 0 (Rmin width (n_x n))) (n_y n) (n_vx n * -1) (n_vy n)
           (n_size n) (n_originalSize n) (n_pulseOffset n)
  else n.

(** [if (node.y < 0 || node.y > this.height) { node.vy *= -1; node.y = ... }] *)
Definition boundaryY (height : R) (n : Node) : Node :=
  if Rltb (n_y n) 0 || Rltb height (n_y n) then
    mkNode (n_x n) (Rmax 0 (Rmin height (n_y n))) (n_vx n) (n_vy n * -1)
           (n_size n) (n_originalSize n) (n_pulseOffset n)
  else n.

Definition pulseRate : R := 0.002.
Definition pulseAmount : R := 0.2.

(** [if (this.options.pulseEffect) { node.size = ... }] *)
Definition applyPulse (o : Options) (time : R) (n : Node) : Node :=
  if pulseEffect o then
    mkNode (n_x n) (n_y n) (n_vx n) (n_vy n)
           (n_originalSize n * (1 + pulseAmount * sin (time * pulseRate + n_pulseOffset n)))
           (n_originalSize n) (n_pulseOffset n)
  else n.

(** [const repelFactor = -1;] *)
Definition repelFactor : R := -1.

(** [if (this.mouse.active) { ... }] *)
Definition mouseInteraction (o : Options) (m : Mouse) (n : Node) : Node :=
  if m_active m then
    let dx := m_x m - n_x n in
    let dy := m_y m - n_y n in
    let distance := sqrt (dx * dx + dy * dy) in
    let maxDistance := connectionDistance o * 1.5 in
    if Rltb distance maxDistance then
      let influence := (1 - distance / maxDistance) * 0.05 in
      let vx1 := n_vx n + dx * influence * repelFactor in
      let vy1 := n_vy n + dy * influence * repelFactor in
      let maxVelocity := speed o * 2 in
      let velocityMagnitude := sqrt (vx1 * vx1 + vy1 * vy1) in
      if Rltb maxVelocity velocityMagnitude then
        let scale := maxVelocity / velocityMagnitude in
        mkNode (n_x n) (n_y n) (vx1 * scale) (vy1 * scale)
               (n_size n) (n_originalSize n) (n_pulseOffset n)
      else
        mkNode (n_x n) (n_y n) vx1 vy1
               (n_size n) (n_originalSize n) (n_pulseOffset n)
    else n
  else n.

(** The whole callback. *)
Definition updateNode (o : Options) (width height time : R) (m : Mouse)
    (n : Node) : Node :=
  mouseInteraction o m
    (applyPulse o time (boundaryY height (boundaryX width (integrate n)))).

(** [this.nodes.forEach(node => { ... })]: the nodes are distinct objects
    and the callback touches only its own node. *)
Definition updateNodes (o : Options) (width height time : R) (m : Mouse)
    (nodes : list Node) : list Node :=
  map (updateNode o width height time m) nodes.

(* ------------------------------------------------------------------------- *)
(** ** The connection set, as both render paths build it *)

(** Four numbers pushed together: [x1, y1, x2, y2]. *)
Definition Segment : Type := (R * R * R * R)%type.

(** [Math.sqrt(dx * dx + dy * dy)] with [dx = ax - bx], [dy = ay - by]. *)
Definition dist (ax ay bx by_ : R) : R :=
  sqrt ((ax - bx) * (ax - bx) + (ay - by_) * (ay - by_)).

(** The loop over [j = i + 1 .. length - 1] of [prepareConnectionData]. *)
Fixpoint pairLoop (T : R) (a : Node) (rest : list Node) : list Segment :=
  match rest with
  | [] => []
  | b :: rest' =>
      (if Rltb (dist (n_x a) (n_y a) (n_x b) (n_y b)) T
       then [(n_x a, n_y a, n_x b, n_y b)] else [])
      ++ pairLoop T a rest'
  end.

(** [if (this.mouse.active) { ... }] of [prepareConnectionData]. *)
Definition mouseLink (T : R) (m : Mouse) (a : Node) : list Segment :=
  if m_active m then
    if Rltb (dist (m_x m) (m_y m) (n_x a) (n_y a)) (T * 1.5)
    then [(n_x a, n_y a, m_x m, m_y m)] else []
  else [].

(** The loop over [i] of [prepareConnectionData]: [connections] as a list
    of segments, in push order. *)
Fixpoint connectionsOf (T : R) (m : Mouse) (nodes : list Node) : list Segment :=
  match nodes with
  | [] => []
  | a :: rest => pairLoop T a rest ++ mouseLink T m a ++ connectionsOf T m rest
  end.

(** The flat array handed to [new Float32Array(connections)]. *)
Definition flatten (segs : list Segment) : list R :=
  flat_map (fun s => match s with (x1, y1, x2, y2) => [x1; y1; x2; y2] end) segs.

(** A line stroked on the 2D context: [moveTo], [lineTo], [globalAlpha]. *)
Record Stroke : Type := mkStroke {
  st_from : R * R;
  st_to : R * R;
  st_alpha : R
}.

(** The loop over [j] of [animateCanvas]; [a3] is [connectionColor[3]]. *)
Fixpoint pairLoopCanvas (T a3 : R) (a : Node) (rest : list Node) : list Stroke :=
  match rest with
  | [] => []
  | b :: rest' =>
      let distance := dist (n_x a) (n_y a) (n_x b) (n_y b) in
      (if Rltb distance T
       then [mkStroke (n_x a, n_y a) (n_x b, n_y b) ((1 - distance / T) * a3)]
       else [])
      ++ pairLoopCanvas T a3 a rest'
  end.

(** [if (this.mouse.active) { ... }] of [animateCanvas]. *)
Definition mouseLinkCanvas (T a3 : R) (m : Mouse) (a : Node) : list Stroke :=
  if m_active m then
    let distance := dist (m_x m) (m_y m) (n_x a) (n_y a) in
    if Rltb distance (T * 1.5)
    then [mkStroke (n_x a, n_y a) (m_x m, m_y m)
                   ((1 - distance / (T * 1.5)) * a3 * 1.5)]
    else []
  else [].

(** The loop over [i] of [animateCanvas]. *)
Fixpoint strokesOf (T a3 : R) (m : Mouse) (nodes : list Node) : list Stroke :=
  match nodes with
  | [] => []
  | a :: rest =>
      pairLoopCanvas T a3 a rest ++ mouseLinkCanvas T a3 m a ++ strokesOf T a3 m rest
  end.

Definition segmentOfStroke (s : Stroke) : Segment :=
  (fst (st_from s), snd (st_from s), fst (st_to s), snd (st_to s)).

(* ------------------------------------------------------------------------- *)
(** ** The host and the instance *)

(** The two shader programs and the three buffers an instance creates. *)
Inductive Program : Type := NodeProgram | ConnectionProgram.
Inductive Buffer : Type :=
  NodePositionBuffer | NodeSizeBuffer | ConnectionPositionBuffer.
Inductive Stage : Type := VertexStage | FragmentStage.
Inductive DrawMode : Type := POINTS | LINES.

(** The objects of the GL context that the class deletes again: buffers
    and programs.  (Shader objects are created and never deleted; they are
    not modelled.) *)
Inductive GLObject : Type :=
| BufferObject (b : Buffer)
| ProgramObject (p : Program).

(** The calls on [this.gl] that are recorded.  Uniform and attribute
    set-up calls are not recorded; [UseProgram], [DeleteBuffer] and
    [DeleteProgram] take whatever the instance field holds ([None] for
    null or undefined). *)
Inductive GLCall : Type :=
| CreateBuffer (b : Buffer)
| CreateProgram (p : Program)
| Viewport (w h : R)
| BufferData (b : option Buffer) (len : nat)
| UseProgram (p : option Program)
| DrawArrays (mode : DrawMode) (count : nat)
| Finish
| ClearColor (t : Theme)
| Clear
| DeleteBuffer (b : option Buffer)
| DeleteProgram (p : option Program).

(** The calls on the 2D context that are recorded. *)
Inductive CtxOp : Type :=
| FillRect (w h : R)
| StrokeLine (s : Stroke)
| FillArc (x y r alpha : R).

(** The calls that insert the canvas into the page and take it out. *)
Inductive DomCall : Type := AppendChild | RemoveChild.

Inductive LogEntry : Type :=
| ConsoleWarn (msg : string)
| ConsoleError (msg : string)
| ConsoleLog (msg : string).

Inductive JsError : Type := TypeError (what : string).

(** What [this.animate] is bound to: the prototype method, or
    [animateCanvas] once [fallbackToCanvas] has replaced it. *)
Inductive Loop : Type := WebGLLoop | CanvasLoop.

Inductive Target : Type := TWindow | TDocument | TContainer.

Inductive EventType : Type :=
| ev_resize | ev_mousemove | ev_mouseleave | ev_mouseenter
| ev_touchmove | ev_touchstart | ev_touchend | ev_visibilitychange.

(** The bodies of the listener functions the class creates. *)
Inductive Handler : Type :=
| HResize               (* this.resize.bind(this) *)
| HMouseMove            (* this.handleMouseMove.bind(this) *)
| HTouchMove            (* this.handleTouchMove.bind(this) *)
| HSetActive (b : bool) (* () => { this.mouse.active = b; } *)
| HVisibility.          (* () => { this.shouldRender = ... } *)

(** A function object: [bind] and an arrow expression make a new object,
    with an identity of its own, every time they are evaluated. *)
Record Fn : Type := mkFn { fn_id : nat; fn_body : Handler }.

Record Listener : Type := mkListener {
  l_target : Target;
  l_type : EventType;
  l_fn : Fn
}.

Definition Elem : Type := nat.

(** What the host answers; fixed for the life of the page. *)
Record Env : Type := mkEnv {
  querySelector : string -> option Elem;
  glAvailable : bool;              (* some getContext('webgl2' | 'webgl' | 'experimental-webgl') is non-null *)
  ctx2dAvailable : bool;           (* getContext('2d') is non-null *)
  compileOk : Program -> Stage -> bool;   (* COMPILE_STATUS *)
  linkOk : Program -> bool;        (* LINK_STATUS *)
  hardwareConcurrency : option Z;  (* None: undefined *)
  userAgent : string;
  viewportWidth : option R;        (* None: window.matchMedia is undefined *)
  hasIntersectionObserver : bool;  (* 'IntersectionObserver' in window *)
  benchmarkTime : R;               (* performance.now() - benchmarkStart *)
  startTime : R;                   (* performance.now() in the constructor's frame *)
  canvasLeft : R;                  (* canvas.getBoundingClientRect().left *)
  canvasTop : R;
  random : nat -> R                (* the successive values of Math.random() *)
}.

(** The own properties of the instance. *)
Record Inst : Type := mkInst {
  container : option Elem;
  options : Options;
  width : R;
  height : R;
  time : R;
  nodes : list Node;
  mouse : Mouse;
  isVisible : bool;
  shouldRender : bool;
  performanceLevel : PerformanceLevel;
  canvas : bool;
  gl : bool;
  ctx : bool;
  nodeProgram : option Program;
  connectionProgram : option Program;
  nodePositionBuffer : option Buffer;
  nodeSizeBuffer : option Buffer;
  connectionPositionBuffer : option Buffer;
  animate_ : Loop;
  visibilityObserver : bool
}.

(** The state of the page around the instance. *)
Record Host : Type := mkHost {
  rect : R * R;                 (* container.getBoundingClientRect(): width, height *)
  canvasAttached : bool;        (* canvas.parentNode is non-null *)
  observing : bool;             (* the IntersectionObserver observes the container *)
  listeners : list Listener;
  nextFn : nat;
  frameQueue : list Loop;       (* callbacks given to requestAnimationFrame *)
  rng : nat;                    (* how many Math.random() values were drawn *)
  console : list LogEntry;
  glCalls : list GLCall;
  glLive : list GLObject;       (* the GL objects created and not yet deleted *)
  domCalls : list DomCall;
  ctxOps : list CtxOp;
  reference : bool              (* the caller of [new] received the instance *)
}.

Record World : Type := mkWorld { inst : Inst; host : Host }.

(** Properties the constructor has not assigned yet hold the value it will
    assign first. *)
Definition blankInst : Inst :=
  mkInst None defaultOptions 0 0 0 [] (mkMouse 0 0 false) true true high
         false false false None None None None None WebGLLoop false.

Definition blankHost (r : R * R) : Host :=
  mkHost r false false [] 0%nat [] 0%nat [] [] [] [] [] false.

Definition blankWorld (r : R * R) : World := mkWorld blankInst (blankHost r).

(** *** Field updates *)

Definition with_container v (i : Inst) := mkInst v (options i) (width i) (height i) (time i) (nodes i) (mouse i) (isVisible i) (shouldRender i) (performanceLevel i) (canvas i) (gl i) (ctx i) (nodeProgram i) (connectionProgram i) (nodePositionBuffer i) (nodeSizeBuffer i) (connectionPositionBuffer i) (animate_ i) (visibilityObserver i).
Definition with_options v (i : Inst) := mkInst (container i) v (width i) (height i) (time i) (nodes i) (mouse i) (isVisible i) (shouldRender i) (performanceLevel i) (canvas i) (gl i) (ctx i) (nodeProgram i) (connectionProgram i) (nodePositionBuffer i) (nodeSizeBuffer i) (connectionPositionBuffer i) (animate_ i) (visibilityObserver i).
Definition with_width v (i : Inst) := mkInst (container i) (options i) v (height i) (time i) (nodes i) (mouse i) (isVisible i) (shouldRender i) (performanceLevel i) (canvas i) (gl i) (ctx i) (nodeProgram i) (connectionProgram i) (nodePositionBuffer i) (nodeSizeBuffer i) (connectionPositionBuffer i) (animate_ i) (visibilityObserver i).
Definition with_height v (i : Inst) := mkInst (container i) (options i) (width i) v (time i) (nodes i) (mouse i) (isVisible i) (shouldRender i) (performanceLevel i) (canvas i) (gl i) (ctx i) (nodeProgram i) (connectionProgram i) (nodePositionBuffer i) (nodeSizeBuffer i) (connectionPositionBuffer i) (animate_ i) (visibilityObserver i).
Definition with_time v (i : Inst) := mkInst (container i) (options i) (width i) (height i) v (nodes i) (mouse i) (isVisible i) (shouldRender i) (performanceLevel i) (canvas i) (gl i) (ctx i) (nodeProgram i) (connectionProgram i) (nodePositionBuffer i) (nodeSizeBuffer i) (connectionPositionBuffer i) (animate_ i) (visibilityObserver i).
Definition with_nodes v (i : Inst) := mkInst (container i) (options i) (width i) (height i) (time i) v (mouse i) (isVisible i) (shouldRender i) (performanceLevel i) (canvas i) (gl i) (ctx i) (nodeProgram i) (connectionProgram i) (nodePositionBuffer i) (nodeSizeBuffer i) (connectionPositionBuffer i) (animate_ i) (visibilityObserver i).
Definition with_mouse v (i : Inst) := mkInst (container i) (options i) (width i) (height i) (time i) (nodes i) v (isVisible i) (shouldRender i) (performanceLevel i) (canvas i) (gl i) (ctx i) (nodeProgram i) (connectionProgram i) (nodePositionBuffer i) (nodeSizeBuffer i) (connectionPositionBuffer i) (animate_ i) (visibilityObserver i).
Definition with_isVisible v (i : Inst) := mkInst (container i) (options i) (width i) (height i) (time i) (nodes i) (mouse i) v (shouldRender i) (performanceLevel i) (canvas i) (gl i) (ctx i) (nodeProgram i) (connectionProgram i) (nodePositionBuffer i) (nodeSizeBuffer i) (connectionPositionBuffer i) (animate_ i) (visibilityObserver i).
Definition with_shouldRender v (i : Inst) := mkInst (container i) (options i) (width i) (height i) (time i) (nodes i) (mouse i) (isVisible i) v (performanceLevel i) (canvas i) (gl i) (ctx i) (nodeProgram i) (connectionProgram i) (nodePositionBuffer i) (nodeSizeBuffer i) (connectionPositionBuffer i) (animate_ i) (visibilityObserver i).
Definition with_performanceLevel v (i : Inst) := mkInst (container i) (options i) (width i) (height i) (time i) (nodes i) (mouse i) (isVisible i) (shouldRender i) v (canvas i) (gl i) (ctx i) (nodeProgram i) (connectionProgram i) (nodePositionBuffer i) (nodeSizeBuffer i) (connectionPositionBuffer i) (animate_ i) (visibilityObserver i).
Definition with_canvas v (i : Inst) := mkInst (container i) (options i) (width i) (height i) (time i) (nodes i) (mouse i) (isVisible i) (shouldRender i) (performanceLevel i) v (gl i) (ctx i) (nodeProgram i) (connectionProgram i) (nodePositionBuffer i) (nodeSizeBuffer i) (connectionPositionBuffer i) (animate_ i) (visibilityObserver i).
Definition with_gl v (i : Inst) := mkInst (container i) (options i) (width i) (height i) (time i) (nodes i) (mouse i) (isVisible i) (shouldRender i) (performanceLevel i) (canvas i) v (ctx i) (nodeProgram i) (connectionProgram i) (nodePositionBuffer i) (nodeSizeBuffer i) (connectionPositionBuffer i) (animate_ i) (visibilityObserver i).
Definition with_ctx v (i : Inst) := mkInst (container i) (options i) (width i) (height i) (time i) (nodes i) (mouse i) (isVisible i) (shouldRender i) (performanceLevel i) (canvas i) (gl i) v (nodeProgram i) (connectionProgram i) (nodePositionBuffer i) (nodeSizeBuffer i) (connectionPositionBuffer i) (animate_ i) (visibilityObserver i).
Definition with_nodeProgram v (i : Inst) := mkInst (container i) (options i) (width i) (height i) (time i) (nodes i) (mouse i) (isVisible i) (shouldRender i) (performanceLevel i) (canvas i) (gl i) (ctx i) v (connectionProgram i) (nodePositionBuffer i) (nodeSizeBuffer i) (connectionPositionBuffer i) (animate_ i) (visibilityObserver i).
Definition with_connectionProgram v (i : Inst) := mkInst (container i) (options i) (width i) (height i) (time i) (nodes i) (mouse i) (isVisible i) (shouldRender i) (performanceLevel i) (canvas i) (gl i) (ctx i) (nodeProgram i) v (nodePositionBuffer i) (nodeSizeBuffer i) (connectionPositionBuffer i) (animate_ i) (visibilityObserver i).
Definition with_buffers a b c (i : Inst) := mkInst (container i) (options i) (width i) (height i) (time i) (nodes i) (mouse i) (isVisible i) (shouldRender i) (performanceLevel i) (canvas i) (gl i) (ctx i) (nodeProgram i) (connectionProgram i) a b c (animate_ i) (visibilityObserver i).
Definition with_animate v (i : Inst) := mkInst (container i) (options i) (width i) (height i) (time i) (nodes i) (mouse i) (isVisible i) (shouldRender i) (performanceLevel i) (canvas i) (gl i) (ctx i) (nodeProgram i) (connectionProgram i) (nodePositionBuffer i) (nodeSizeBuffer i) (connectionPositionBuffer i) v (visibilityObserver i).
Definition with_visibilityObserver v (i : Inst) := mkInst (container i) (options i) (width i) (height i) (time i) (nodes i) (mouse i) (isVisible i) (shouldRender i) (performanceLevel i) (canvas i) (gl i) (ctx i) (nodeProgram i) (connectionProgram i) (nodePositionBuffer i) (nodeSizeBuffer i) (connectionPositionBuffer i) (animate_ i) v.

Definition with_rect v (h : Host) := mkHost v (canvasAttached h) (observing h) (listeners h) (nextFn h) (frameQueue h) (rng h) (console h) (glCalls h) (glLive h) (domCalls h) (ctxOps h) (reference h).
Definition with_canvasAttached v (h : Host) := mkHost (rect h) v (observing h) (listeners h) (nextFn h) (frameQueue h) (rng h) (console h) (glCalls h) (glLive h) (domCalls h) (ctxOps h) (reference h).
Definition with_observing v (h : Host) := mkHost (rect h) (canvasAttached h) v (listeners h) (nextFn h) (frameQueue h) (rng h) (console h) (glCalls h) (glLive h) (domCalls h) (ctxOps h) (reference h).
Definition with_listeners v (h : Host) := mkHost (rect h) (canvasAttached h) (observing h) v (nextFn h) (frameQueue h) (rng h) (console h) (glCalls h) (glLive h) (domCalls h) (ctxOps h) (reference h).
Definition with_nextFn v (h : Host) := mkHost (rect h) (canvasAttached h) (observing h) (listeners h) v (frameQueue h) (rng h) (console h) (glCalls h) (glLive h) (domCalls h) (ctxOps h) (reference h).
Definition with_frameQueue v (h : Host) := mkHost (rect h) (canvasAttached h) (observing h) (listeners h) (nextFn h) v (rng h) (console h) (glCalls h) (glLive h) (domCalls h) (ctxOps h) (reference h).
Definition with_rng v (h : Host) := mkHost (rect h) (canvasAttached h) (observing h) (listeners h) (nextFn h) (frameQueue h) v (console h) (glCalls h) (glLive h) (domCalls h) (ctxOps h) (reference h).
Definition with_console v (h : Host) := mkHost (rect h) (canvasAttached h) (observing h) (listeners h) (nextFn h) (frameQueue h) (rng h) v (glCalls h) (glLive h) (domCalls h) (ctxOps h) (reference h).
Definition with_glCalls v (h : Host) := mkHost (rect h) (canvasAttached h) (observing h) (listeners h) (nextFn h) (frameQueue h) (rng h) (console h) v (glLive h) (domCalls h) (ctxOps h) (reference h).
Definition with_glLive v (h : Host) := mkHost (rect h) (canvasAttached h) (observing h) (listeners h) (nextFn h) (frameQueue h) (rng h) (console h) (glCalls h) v (domCalls h) (ctxOps h) (reference h).
Definition with_domCalls v (h : Host) := mkHost (rect h) (canvasAttached h) (observing h) (listeners h) (nextFn h) (frameQueue h) (rng h) (console h) (glCalls h) (glLive h) v (ctxOps h) (reference h).
Definition with_ctxOps v (h : Host) := mkHost (rect h) (canvasAttached h) (observing h) (listeners h) (nextFn h) (frameQueue h) (rng h) (console h) (glCalls h) (glLive h) (domCalls h) v (reference h).
Definition with_reference v (h : Host) := mkHost (rect h) (canvasAttached h) (observing h) (listeners h) (nextFn h) (frameQueue h) (rng h) (console h) (glCalls h) (glLive h) (domCalls h) (ctxOps h) v.

(* ------------------------------------------------------------------------- *)
(** ** Methods run in a state monad with exceptions

    What a method did before it threw stays done. *)

Inductive Outcome (A : Type) : Type :=
| Ok (a : A)
| Throw (e : JsError).
Arguments Ok {A} a.
Arguments Throw {A} e.

Definition M (A : Type) : Type := World -> Outcome A * World.

Definition ret {A : Type} (a : A) : M A := fun w => (Ok a, w).

Definition bind {A B : Type} (c : M A) (k : A -> M B) : M B :=
  fun w =>
    match c w with
    | (Ok a, w') => k a w'
    | (Throw e, w') => (Throw e, w')
    end.

Definition throw {A : Type} (e : JsError) : M A := fun w => (Throw e, w).

Declare Scope js_scope.
Delimit Scope js_scope with js.
Notation "x <- c ;; k" := (bind c (fun x => k))
  (at level 61, c at next level, right associativity) : js_scope.
Notation "c ;; k" := (bind c (fun _ => k))
  (at level 61, right associativity) : js_scope.

Definition this : M Inst := fun w => (Ok (inst w), w).
Definition page : M Host := fun w => (Ok (host w), w).
Definition setThis (f : Inst -> Inst) : M unit :=
  fun w => (Ok tt, mkWorld (f (inst w)) (host w)).
Definition setPage (f : Host -> Host) : M unit :=
  fun w => (Ok tt, mkWorld (inst w) (f (host w))).

Definition when (b : bool) (c : M unit) : M unit := if b then c else ret tt.

(** [n] times [c]. *)
Fixpoint times (n : nat) (c : M unit) : M unit :=
  match n with
  | O => ret tt
  | S n' => bind c (fun _ => times n' c)
  end.

(** [l.forEach(f)] for effects only. *)
Fixpoint forEach {A : Type} (f : A -> M unit) (l : list A) : M unit :=
  match l with
  | [] => ret tt
  | a :: l' => bind (f a) (fun _ => forEach f l')
  end.

(* ------------------------------------------------------------------------- *)
(** ** The user-agent tests of checkPerformance *)

Definition lowerAscii (c : ascii) : ascii :=
  let n := nat_of_ascii c in
  if Nat.leb 65 n && Nat.leb n 90 then ascii_of_nat (n + 32) else c.

Fixpoint lowerCase (s : string) : string :=
  match s with
  | EmptyString => EmptyString
  | String c s' => String (lowerAscii c) (lowerCase s')
  end.

(** [s] contains [pat] somewhere. *)
Fixpoint contains (pat s : string) : bool :=
  if String.prefix pat s then true
  else match s with
       | EmptyString => false
       | String _ s' => contains pat s'
       end.

(** [/p1|p2|.../i.test(s)] for literal alternatives. *)
Definition testAnyCI (alternatives : list string) (s : string) : bool :=
  existsb (fun p => contains (lowerCase p) (lowerCase s)) alternatives.

Definition lowEndAgents : list string :=
  ["Android"; "webOS"; "iPhone"; "iPod"; "BlackBerry"; "IEMobile"; "Opera Mini"]%string.

Definition midRangeAgents : list string := ["iPad"; "Android Tablet"]%string.

Definition Rleb (a b : R) : bool := if Rle_dec a b then true else false.

(* ------------------------------------------------------------------------- *)
(** ** The methods of WebGLNeuralNetwork *)

(** [adjustNodeCountForPerformance]; it only reads the instance. *)
Definition adjustNodeCountForPerformance (i : Inst) : Z :=
  let nodeCount0 := nodeCount (options i) in
  let screenArea := width i * height i in
  let referenceArea := 1920 * 1080 in
  let sizeRatio := Rmin 1 (screenArea / referenceArea) in
  let nodeCount1 := Zfloor (IZR nodeCount0 * sizeRatio) in
  match performanceLevel i with
  | low => Z.min nodeCount1 50
  | medium => Z.min nodeCount1 100
  | high => nodeCount1
  end.

Section Methods.

Variable env : Env.

Local Open Scope js_scope.

Definition consoleWarn (msg : string) : M unit :=
  setPage (fun h => with_console (console h ++ [ConsoleWarn msg]) h).
Definition consoleError (msg : string) : M unit :=
  setPage (fun h => with_console (console h ++ [ConsoleError msg]) h).
Definition consoleLog (msg : string) : M unit :=
  setPage (fun h => with_console (console h ++ [ConsoleLog msg]) h).

(** [Math.random()]. *)
Definition mathRandom : M R :=
  h <- page ;;
  setPage (with_rng (S (rng h))) ;;
  ret (random env (rng h)).

Definition GLObject_eqb (a b : GLObject) : bool :=
  match a, b with
  | BufferObject NodePositionBuffer, BufferObject NodePositionBuffer
  | BufferObject NodeSizeBuffer, BufferObject NodeSizeBuffer
  | BufferObject ConnectionPositionBuffer, BufferObject ConnectionPositionBuffer
  | ProgramObject NodeProgram, ProgramObject NodeProgram
  | ProgramObject ConnectionProgram, ProgramObject ConnectionProgram => true
  | _, _ => false
  end.

Definition release (o : GLObject) (live : list GLObject) : list GLObject :=
  filter (fun x => negb (GLObject_eqb o x)) live.

(** What a call does to the objects of the context.  Deleting null, or an
    object that is already deleted, has no effect. *)
Definition glEffect (c : GLCall) (live : list GLObject) : list GLObject :=
  match c with
  | CreateBuffer b => live ++ [BufferObject b]
  | CreateProgram p => live ++ [ProgramObject p]
  | DeleteBuffer (Some b) => release (BufferObject b) live
  | DeleteProgram (Some p) => release (ProgramObject p) live
  | _ => live
  end.

(** A method call [this.gl.m(...)]: a TypeError when [this.gl] is null. *)
Definition glCall (c : GLCall) : M unit :=
  i <- this ;;
  if gl i then
    setPage (fun h =>
      with_glLive (glEffect c (glLive h)) (with_glCalls (glCalls h ++ [c]) h))
  else throw (TypeError "this.gl is null").

(** A method call or property write on [this.ctx]. *)
Definition ctxCall (c : CtxOp) : M unit :=
  i <- this ;;
  if ctx i then setPage (fun h => with_ctxOps (ctxOps h ++ [c]) h)
  else throw (TypeError "this.ctx is null").

(** A property read or write [program.name]: a TypeError when the program
    is null. *)
Definition property (p : option Program) : M Program :=
  match p with
  | Some q => ret q
  | None => throw (TypeError "program is null")
  end.

(** Evaluating [f.bind(this)] or an arrow expression. *)
Definition newFunction (body : Handler) : M Fn :=
  h <- page ;;
  setPage (with_nextFn (S (nextFn h))) ;;
  ret (mkFn (nextFn h) body).

Definition Target_eqb (a b : Target) : bool :=
  match a, b with
  | TWindow, TWindow | TDocument, TDocument | TContainer, TContainer => true
  | _, _ => false
  end.

Definition EventType_eqb (a b : EventType) : bool :=
  match a, b with
  | ev_resize, ev_resize | ev_mousemove, ev_mousemove
  | ev_mouseleave, ev_mouseleave | ev_mouseenter, ev_mouseenter
  | ev_touchmove, ev_touchmove | ev_touchstart, ev_touchstart
  | ev_touchend, ev_touchend | ev_visibilitychange, ev_visibilitychange => true
  | _, _ => false
  end.

Definition sameListener (t : Target) (ty : EventType) (f : Fn) (l : Listener) : bool :=
  Target_eqb t (l_target l) && EventType_eqb ty (l_type l)
  && Nat.eqb (fn_id f) (fn_id (l_fn l)).

(** [target.addEventListener(type, f)]: a listener already registered is
    not registered twice. *)
Definition addEventListener (t : Target) (ty : EventType) (f : Fn) : M unit :=
  setPage (fun h =>
    if existsb (sameListener t ty f) (listeners h) then h
    else with_listeners (listeners h ++ [mkListener t ty f]) h).

(** [target.removeEventListener(type, f)]: removes the registration of
    this very function object, if there is one. *)
Definition removeEventListener (t : Target) (ty : EventType) (f : Fn) : M unit :=
  setPage (fun h =>
    with_listeners (filter (fun l => negb (sameListener t ty f l)) (listeners h)) h).

(** [createShaderProgram] for the sources of program [p]. *)
Definition createShaderProgram (p : Program) : M (option Program) :=
  if negb (compileOk env p VertexStage) then
    consoleError "Vertex shader compilation failed:" ;; ret None
  else if negb (compileOk env p FragmentStage) then
    consoleError "Fragment shader compilation failed:" ;; ret None
  else
    glCall (CreateProgram p) ;;
    if negb (linkOk env p) then
      consoleError "Shader program linking failed:" ;; ret None
    else ret (Some p).

(** [setupShaders]: the two programs are created, then the location
    handles are stored as properties of the program objects. *)
Definition setupShaders : M unit :=
  np <- createShaderProgram NodeProgram ;;
  setThis (with_nodeProgram np) ;;
  cp <- createShaderProgram ConnectionProgram ;;
  setThis (with_connectionProgram cp) ;;
  i <- this ;;
  _ <- property (nodeProgram i) ;;
  _ <- property (connectionProgram i) ;;
  ret tt.

Definition createBuffers : M unit :=
  glCall (CreateBuffer NodePositionBuffer) ;;
  glCall (CreateBuffer NodeSizeBuffer) ;;
  glCall (CreateBuffer ConnectionPositionBuffer) ;;
  setThis (with_buffers (Some NodePositionBuffer) (Some NodeSizeBuffer)
                        (Some ConnectionPositionBuffer)).

(** One turn of the loop of [createNodes]. *)
Definition pushNode : M unit :=
  rx <- mathRandom ;;
  ry <- mathRandom ;;
  rvx <- mathRandom ;;
  rvy <- mathRandom ;;
  rs <- mathRandom ;;
  ro <- mathRandom ;;
  rp <- mathRandom ;;
  i <- this ;;
  setThis (with_nodes (nodes i ++
    [mkNode (rx * width i) (ry * height i)
            ((rvx - 0.5) * speed (options i)) ((rvy - 0.5) * speed (options i))
            (rs * nodeSize (options i) + 1.5) (ro * nodeSize (options i) + 1.5)
            (rp * PI * 2)])).

Definition createNodes : M unit :=
  setThis (with_nodes []) ;;
  i <- this ;;
  times (Z.to_nat (adjustNodeCountForPerformance i)) pushNode.

(** The [forEach] of [resize], on the nodes from [todo] on; [done] are the
    nodes already visited. *)
Fixpoint resetPositions (done todo : list Node) : M unit :=
  match todo with
  | [] => setThis (with_nodes done)
  | n :: rest =>
      rx <- mathRandom ;;
      ry <- mathRandom ;;
      i <- this ;;
      resetPositions
        (done ++ [mkNode (rx * width i) (ry * height i) (n_vx n) (n_vy n)
                         (n_size n) (n_originalSize n) (n_pulseOffset n)])
        rest
  end.

Definition resize : M unit :=
  h <- page ;;
  setThis (with_width (fst (rect h))) ;;
  setThis (with_height (snd (rect h))) ;;
  i <- this ;;
  glCall (Viewport (width i) (height i)) ;;
  resetPositions [] (nodes i).

Definition coresAtMost (k : Z) : bool :=
  match hardwareConcurrency env with
  | Some c => negb (Z.eqb c 0) && Z.leb c k
  | None => false
  end.

Definition mediaMaxWidth (px : R) : bool :=
  match viewportWidth env with
  | Some vw => Rleb vw px
  | None => false
  end.

Definition isLowEndDevice : bool :=
  coresAtMost 4 || testAnyCI lowEndAgents (userAgent env) || mediaMaxWidth 768.

Definition isMidRangeDevice : bool :=
  coresAtMost 6 || testAnyCI midRangeAgents (userAgent env) || mediaMaxWidth 1024.

Definition setOptions (f : Options -> Options) : M unit :=
  setThis (fun i => with_options (f (options i)) i).

Definition runWebGLBenchmark : M unit :=
  (* 1000 temporary nodes: two Math.random() each *)
  setPage (fun h => with_rng (rng h + 2000)%nat h) ;;
  i <- this ;;
  glCall (BufferData (nodePositionBuffer i) 2000) ;;
  glCall (BufferData (nodeSizeBuffer i) 1000) ;;
  glCall (UseProgram (nodeProgram i)) ;;
  _ <- property (nodeProgram i) ;;
  glCall (DrawArrays POINTS 1000) ;;
  glCall Finish ;;
  when (Rltb 10 (benchmarkTime env))
    (match performanceLevel i with
     | high =>
         setThis (with_performanceLevel medium) ;;
         setOptions (fun o => set_nodeCount o (Zfloor (IZR (nodeCount o) * 0.7)))
     | medium =>
         setThis (with_performanceLevel low) ;;
         setOptions (fun o => set_nodeCount o (Zfloor (IZR (nodeCount o) * 0.5))) ;;
         setOptions (fun o => set_dataFlowEffect o false)
     | low => ret tt
     end).

Definition checkPerformance : M unit :=
  (if isLowEndDevice then
     setThis (with_performanceLevel low) ;;
     setOptions (fun o => set_nodeCount o (Zfloor (IZR (nodeCount o) * 0.3))) ;;
     setOptions (fun o => set_connectionDistance o (IZR (Zfloor (connectionDistance o * 0.7)))) ;;
     setOptions (fun o => set_speed o (speed o * 0.7)) ;;
     setOptions (fun o => set_dataFlowEffect o false)
   else if isMidRangeDevice then
     setThis (with_performanceLevel medium) ;;
     setOptions (fun o => set_nodeCount o (Zfloor (IZR (nodeCount o) * 0.6))) ;;
     setOptions (fun o => set_connectionDistance o (IZR (Zfloor (connectionDistance o * 0.8))))
   else ret tt) ;;
  runWebGLBenchmark.

Definition fallbackToCanvas : M unit :=
  i <- this ;;
  when (gl i) (setThis (with_gl false)) ;;
  setThis (with_ctx (ctx2dAvailable env)) ;;
  setThis (with_animate CanvasLoop) ;;
  setOptions (fun o => set_nodeCount o (Z.min (nodeCount o) 50)) ;;
  setOptions (fun o => set_connectionDistance o (Rmin (connectionDistance o) 100)) ;;
  createNodes ;;
  consoleLog "Using Canvas fallback for neural network animation".

Definition initWebGL : M unit :=
  setThis (with_canvas true) ;;
  setPage (fun h => with_domCalls (domCalls h ++ [AppendChild]) h) ;;
  setPage (with_canvasAttached true) ;;
  setThis (with_gl (glAvailable env)) ;;
  i <- this ;;
  if negb (gl i) then
    consoleError "WebGL not supported. Falling back to Canvas rendering." ;;
    fallbackToCanvas
  else
    setupShaders ;;
    createBuffers.

Definition listen (t : Target) (ty : EventType) (body : Handler) : M unit :=
  f <- newFunction body ;;
  addEventListener t ty f.

Definition setupEventListeners : M unit :=
  listen TWindow ev_resize HResize ;;
  i <- this ;;
  when (interactive (options i))
    (listen TContainer ev_mousemove HMouseMove ;;
     listen TContainer ev_mouseleave (HSetActive false) ;;
     listen TContainer ev_mouseenter (HSetActive true) ;;
     listen TContainer ev_touchmove HTouchMove ;;
     listen TContainer ev_touchstart HTouchMove ;;
     listen TContainer ev_touchend (HSetActive false)) ;;
  when (hasIntersectionObserver env)
    (setThis (with_visibilityObserver true) ;;
     setPage (with_observing true)) ;;
  listen TDocument ev_visibilitychange HVisibility.

Definition handleMouseMove (clientX clientY : R) : M unit :=
  setThis (with_mouse (mkMouse (clientX - canvasLeft env) (clientY - canvasTop env) true)).

Definition handleTouchMove (touches : list (R * R)) : M unit :=
  match touches with
  | [] => ret tt
  | (clientX, clientY) :: _ =>
      setThis (with_mouse (mkMouse (clientX - canvasLeft env) (clientY - canvasTop env) true))
  end.

Definition requestAnimationFrame (callback : Loop) : M unit :=
  setPage (fun h => with_frameQueue (frameQueue h ++ [callback]) h).

(** [this.updateNodes()] on the instance. *)
Definition doUpdateNodes : M unit :=
  setThis (fun i =>
    with_nodes (updateNodes (options i) (width i) (height i) (time i) (mouse i) (nodes i)) i).

Definition prepareNodeData : M nat :=
  i <- this ;;
  glCall (BufferData (nodePositionBuffer i) (List.length (nodes i) * 2)) ;;
  glCall (BufferData (nodeSizeBuffer i) (List.length (nodes i))) ;;
  ret (List.length (nodes i)).

Definition prepareConnectionData : M nat :=
  i <- this ;;
  let connections :=
    flatten (connectionsOf (connectionDistance (options i)) (mouse i) (nodes i)) in
  glCall (BufferData (connectionPositionBuffer i) (List.length connections)) ;;
  ret (Nat.div (List.length connections) 2).

Definition clear : M unit :=
  i <- this ;;
  glCall (ClearColor (theme (options i))) ;;
  glCall Clear.

Definition renderConnections (count : nat) : M unit :=
  i <- this ;;
  glCall (UseProgram (connectionProgram i)) ;;
  _ <- property (connectionProgram i) ;;
  glCall (DrawArrays LINES count).

Definition renderNodes (count : nat) : M unit :=
  i <- this ;;
  glCall (UseProgram (nodeProgram i)) ;;
  _ <- property (nodeProgram i) ;;
  glCall (DrawArrays POINTS count).

(** [animate()]; [now] is what [performance.now()] returns in this frame. *)
Definition animate (now : R) : M unit :=
  i <- this ;;
  requestAnimationFrame (animate_ i) ;;
  if negb (isVisible i) || negb (shouldRender i) then ret tt
  else
    setThis (with_time now) ;;
    doUpdateNodes ;;
    nodeData <- prepareNodeData ;;
    connectionData <- prepareConnectionData ;;
    clear ;;
    renderConnections connectionData ;;
    renderNodes nodeData.

(** [connectionColor[3]] of the default options; the colours are not part
    of the modelled options. *)
Definition connectionAlpha : R := 0.15.

(** The two [arc] fills of one node in [animateCanvas]. *)
Definition drawNode (n : Node) : M unit :=
  ctxCall (FillArc (n_x n) (n_y n) (n_size n * 2) 0.6) ;;
  ctxCall (FillArc (n_x n) (n_y n) (n_size n) 1).

Definition animateCanvas (now : R) : M unit :=
  requestAnimationFrame CanvasLoop ;;
  i <- this ;;
  if negb (isVisible i) || negb (shouldRender i) then ret tt
  else
    setThis (with_time now) ;;
    doUpdateNodes ;;
    i <- this ;;
    ctxCall (FillRect (width i) (height i)) ;;
    forEach (fun s => ctxCall (StrokeLine s))
      (strokesOf (connectionDistance (options i)) connectionAlpha (mouse i) (nodes i)) ;;
    forEach drawNode (nodes i).

(** A call of whatever [this.animate] is. *)
Definition runLoop (l : Loop) (now : R) : M unit :=
  match l with
  | WebGLLoop => animate now
  | CanvasLoop => animateCanvas now
  end.

Definition updateOptions (newOptions : PartialOptions) : M unit :=
  setOptions (fun o => spread o newOptions) ;;
  match p_nodeCount newOptions with
  | Some _ => createNodes
  | None => ret tt
  end.

Definition unlisten (t : Target) (ty : EventType) (body : Handler) : M unit :=
  f <- newFunction body ;;
  removeEventListener t ty f.

Definition destroy : M unit :=
  setThis (with_shouldRender false) ;;
  unlisten TWindow ev_resize HResize ;;
  i <- this ;;
  when (interactive (options i))
    (unlisten TContainer ev_mousemove HMouseMove ;;
     unlisten TContainer ev_mouseleave (HSetActive false) ;;
     unlisten TContainer ev_mouseenter (HSetActive true) ;;
     unlisten TContainer ev_touchmove HTouchMove ;;
     unlisten TContainer ev_touchstart HTouchMove ;;
     unlisten TContainer ev_touchend (HSetActive false)) ;;
  when (visibilityObserver i) (setPage (with_observing false)) ;;
  h <- page ;;
  when (canvas i && canvasAttached h)
    (setPage (fun h => with_domCalls (domCalls h ++ [RemoveChild]) h) ;;
     setPage (with_canvasAttached false)) ;;
  when (gl i)
    (glCall (DeleteBuffer (nodePositionBuffer i)) ;;
     glCall (DeleteBuffer (nodeSizeBuffer i)) ;;
     glCall (DeleteBuffer (connectionPositionBuffer i)) ;;
     glCall (DeleteProgram (nodeProgram i)) ;;
     glCall (DeleteProgram (connectionProgram i))).

(** The first argument of the constructor: a selector string, or the
    element itself ([None] for null or undefined). *)
Inductive ContainerArg : Type :=
| Selector (s : string)
| Element (e : option Elem).

Definition resolve (arg : ContainerArg) : option Elem :=
  match arg with
  | Selector s => querySelector env s
  | Element e => e
  end.

Definition constructor (arg : ContainerArg) (opts : PartialOptions) : M unit :=
  setThis (with_container (resolve arg)) ;;
  i <- this ;;
  match container i with
  | None => consoleWarn "WebGL neural network container not found"
  | Some _ =>
      setThis (with_options (spread defaultOptions opts)) ;;
      setThis (with_width 0) ;;
      setThis (with_height 0) ;;
      setThis (with_time 0) ;;
      setThis (with_nodes []) ;;
      setThis (with_mouse (mkMouse 0 0 false)) ;;
      setThis (with_isVisible true) ;;
      setThis (with_shouldRender true) ;;
      setThis (with_performanceLevel high) ;;
      initWebGL ;;
      i <- this ;;
      when (adaptivePerformance (options i)) checkPerformance ;;
      createNodes ;;
      setupEventListeners ;;
      resize ;;
      i <- this ;;
      runLoop (animate_ i) (startTime env)
  end.

(* ------------------------------------------------------------------------- *)
(** ** What happens to an instance after construction *)

Inductive Event : Type :=
| EvFrame (now : R)                      (* the host runs the oldest queued frame callback *)
| EvResize (w h : R)                     (* the container box becomes w x h; 'resize' on window *)
| EvMouseMove (clientX clientY : R)
| EvMouseLeave
| EvMouseEnter
| EvTouchMove (touches : list (R * R))
| EvTouchStart (touches : list (R * R))
| EvTouchEnd
| EvIntersection (isIntersecting : bool) (* the IntersectionObserver callback *)
| EvVisibilityChange (visible : bool)    (* document.visibilityState === 'visible' *)
| EvUpdateOptions (newOptions : PartialOptions)  (* the caller calls updateOptions *)
| EvDestroy.                             (* the caller calls destroy *)

(** The body of a listener, run for event [ev]. *)
Definition runHandler (body : Handler) (ev : Event) : M unit :=
  match body with
  | HResize => resize
  | HMouseMove =>
      match ev with
      | EvMouseMove cx cy => handleMouseMove cx cy
      | _ => ret tt
      end
  | HTouchMove =>
      match ev with
      | EvTouchMove ts | EvTouchStart ts => handleTouchMove ts
      | _ => ret tt
      end
  | HSetActive b => setThis (fun i => with_mouse (mkMouse (m_x (mouse i)) (m_y (mouse i)) b) i)
  | HVisibility =>
      match ev with
      | EvVisibilityChange v => setThis (with_shouldRender v)
      | _ => ret tt
      end
  end.

(** A callback run by the host: an exception it throws is reported and
    goes no further. *)
Definition callback (c : M unit) (w : World) : World := snd (c w).

(** The host dispatches [ev] to the listeners registered for it. *)
Definition dispatch (t : Target) (ty : EventType) (ev : Event) (w : World) : World :=
  fold_left
    (fun w' l =>
       if Target_eqb t (l_target l) && EventType_eqb ty (l_type l)
       then callback (runHandler (fn_body (l_fn l)) ev) w'
       else w')
    (listeners (host w)) w.

(** A method call by the code that holds the instance: there is none when
    [new] threw, and calls on an instance that has no container are not
    modelled. *)
Definition call (c : M unit) (w : World) : World :=
  match container (inst w) with
  | Some _ => if reference (host w) then snd (c w) else w
  | None => w
  end.

Definition deliver (ev : Event) (w : World) : World :=
  match ev with
  | EvFrame now =>
      match frameQueue (host w) with
      | [] => w
      | l :: q =>
          callback (runLoop l now) (mkWorld (inst w) (with_frameQueue q (host w)))
      end
  | EvResize rw rh =>
      dispatch TWindow ev_resize ev (mkWorld (inst w) (with_rect (rw, rh) (host w)))
  | EvMouseMove _ _ => dispatch TContainer ev_mousemove ev w
  | EvMouseLeave => dispatch TContainer ev_mouseleave ev w
  | EvMouseEnter => dispatch TContainer ev_mouseenter ev w
  | EvTouchMove _ => dispatch TContainer ev_touchmove ev w
  | EvTouchStart _ => dispatch TContainer ev_touchstart ev w
  | EvTouchEnd => dispatch TContainer ev_touchend ev w
  | EvIntersection b =>
      if observing (host w) then mkWorld (with_isVisible b (inst w)) (host w) else w
  | EvVisibilityChange _ => dispatch TDocument ev_visibilitychange ev w
  | EvUpdateOptions p => call (updateOptions p) w
  | EvDestroy => call destroy w
  end.

Definition run (evs : list Event) (w : World) : World :=
  fold_left (fun w' ev => deliver ev w') evs w.

Definition isOk {A : Type} (o : Outcome A) : bool :=
  match o with Ok _ => true | Throw _ => false end.

(** [new WebGLNeuralNetwork(arg, opts)] on a page whose container box is
    [r]: what the call did to the page, and whether it returned. *)
Definition construct (arg : ContainerArg) (opts : PartialOptions) (r : R * R)
    : Outcome unit * World :=
  let '(o, w) := constructor arg opts (blankWorld r) in
  (o, mkWorld (inst w) (with_reference (isOk o) (host w))).

(** A session: construction, then the events in order. *)
Definition session (arg : ContainerArg) (opts : PartialOptions) (r : R * R)
    (evs : list Event) : World :=
  run evs (snd (construct arg opts r)).

End Methods.

(* ------------------------------------------------------------------------- *)
(** ** AIScrollAnimations *)

(** The keys of [this.animatedElements]. *)
Inductive AnimSelector : Type :=
| FadeIn          (* '.ai-fade-in' *)
| SlideInLeft     (* '.ai-slide-in-left' *)
| SlideInRight    (* '.ai-slide-in-right' *)
| ScaleIn.        (* '.ai-scale-in' *)

(** [Object.keys(this.animatedElements)], in insertion order. *)
Definition animSelectors : list AnimSelector :=
  [FadeIn; SlideInLeft; SlideInRight; ScaleIn].

(** The [observed] flags of [this.animatedElements]. *)
Record AnimatedElements : Type := mkAnimated {
  fadeIn : bool;
  slideInLeft : bool;
  slideInRight : bool;
  scaleIn : bool
}.

(** [this.animatedElements[selector].observed]. *)
Definition observedFlag (a : AnimatedElements) (s : AnimSelector) : bool :=
  match s with
  | FadeIn => fadeIn a
  | SlideInLeft => slideInLeft a
  | SlideInRight => slideInRight a
  | ScaleIn => scaleIn a
  end.

(** [this.animatedElements[selector].observed = v]. *)
Definition setObserved (a : AnimatedElements) (s : AnimSelector) (v : bool)
    : AnimatedElements :=
  match s with
  | FadeIn => mkAnimated v (slideInLeft a) (slideInRight a) (scaleIn a)
  | SlideInLeft => mkAnimated (fadeIn a) v (slideInRight a) (scaleIn a)
  | SlideInRight => mkAnimated (fadeIn a) (slideInLeft a) v (scaleIn a)
  | ScaleIn => mkAnimated (fadeIn a) (slideInLeft a) (slideInRight a) v
  end.

(** The elements a selector matches when [querySelectorAll] is called. *)
Definition Document : Type := AnimSelector -> list Elem.

(** An [AIScrollAnimations] object and what it acts on: its flags, the
    targets of its IntersectionObserver, and the elements that carry the
    class [visible]. *)
Record Scroll : Type := mkScroll {
  animatedElements : AnimatedElements;
  targets : list Elem;
  visibleElements : list Elem
}.

Definition memElem (e : Elem) (l : list Elem) : bool := existsb (Nat.eqb e) l.

(** Adding to a set kept as a list: [observer.observe(e)] and
    [classList.add] do nothing when the element or token is there. *)
Definition addElem (l : list Elem) (e : Elem) : list Elem :=
  if memElem e l then l else l ++ [e].

(** [observer.unobserve(e)]. *)
Definition removeElem (l : list Elem) (e : Elem) : list Elem :=
  filter (fun x => negb (Nat.eqb e x)) l.

(** The body of the [forEach] over the selectors in [init]. *)
Definition initSelector (doc : Document) (s : Scroll) (sel : AnimSelector) : Scroll :=
  if negb (observedFlag (animatedElements s) sel) then
    mkScroll (setObserved (animatedElements s) sel true)
             (fold_left addElem (doc sel) (targets s))
             (visibleElements s)
  else s.

(** [init()]. *)
Definition init (doc : Document) (s : Scroll) : Scroll :=
  fold_left (initSelector doc) animSelectors s.

(** An entry handed to the observer callback: its target, and
    [isIntersecting]. *)
Definition Entry : Type := (Elem * bool)%type.

(** The body of the [forEach] in [handleIntersect]. *)
Definition handleEntry (s : Scroll) (en : Entry) : Scroll :=
  if snd en then
    mkScroll (animatedElements s)
             (removeElem (targets s) (fst en))
             (addElem (visibleElements s) (fst en))
  else s.

(** [handleIntersect(entries)]. *)
Definition handleIntersect (entries : list Entry) (s : Scroll) : Scroll :=
  fold_left handleEntry entries s.

(** [refresh()]. *)
Definition refresh (doc : Document) (s : Scroll) : Scroll :=
  init doc
    (mkScroll
       (fold_left (fun a sel => setObserved a sel false) animSelectors
                  (animatedElements s))
       (targets s) (visibleElements s)).

(** [new AIScrollAnimations()] on a page where the elements [vis] carry
    the class [visible]. *)
Definition newScroll (doc : Document) (vis : list Elem) : Scroll :=
  init doc (mkScroll (mkAnimated false false false false) [] vis).

(* ------------------------------------------------------------------------- *)
(** ** The dark mode toggle of initAIComponents *)

(** What the toggle reads and writes: whether [document.documentElement]
    carries the class [dark], and the item [darkMode] of [localStorage]
    ([None] when there is none). *)
Record Browser : Type := mkBrowser {
  darkClass : bool;
  darkModeItem : option string
}.

(** [String(isDarkMode)], as [localStorage.setItem] stores it. *)
Definition stringOfBool (b : bool) : string := if b then "true" else "false".

(** [localStorage.getItem('darkMode') === 'true']. *)
Definition darkModePreference (b : Browser) : bool :=
  match darkModeItem b with
  | Some s => String.eqb s "true"
  | None => false
  end.

(** The dark mode part of [initAIComponents], on a page with a toggle. *)
Definition initDarkMode (b : Browser) : Browser :=
  if darkModePreference b then mkBrowser true (darkModeItem b) else b.

(** The click listener of the toggle. *)
Definition clickDarkMode (b : Browser) : Browser :=
  let isDarkMode := negb (darkClass b) in
  mkBrowser isDarkMode (Some (stringOfBool isDarkMode)).

(** [n] clicks. *)
Fixpoint clicks (n : nat) (b : Browser) : Browser :=
  match n with
  | O => b
  | S n' => clicks n' (clickDarkMode b)
  end.

(** The next load of the page: the markup decides the class, the storage
    is what the last visit left. *)
Definition reload (markupDark : bool) (b : Browser) : Browser :=
  initDarkMode (mkBrowser markupDark (darkModeItem b)).

(* ========================================================================= *)
(** * The vocabulary of the properties

    Predicates on nodes and worlds, the reasoning rule for methods, and
    the concrete pages used as examples. *)

(** The pair of nodes [a], [b] is within the threshold. *)
Definition linked (T : R) (a b : Node) : Prop :=
  dist (n_x a) (n_y a) (n_x b) (n_y b) < T.

(** Node [a] is within reach of the pointer. *)
Definition reached (T : R) (m : Mouse) (a : Node) : Prop :=
  m_active m = true /\ dist (m_x m) (m_y m) (n_x a) (n_y a) < T * 1.5.

Definition pairSegment (a b : Node) : Segment := (n_x a, n_y a, n_x b, n_y b).

Definition mouseSegment (m : Mouse) (a : Node) : Segment :=
  (n_x a, n_y a, m_x m, m_y m).

(** The position [p] has left [0, limit]. *)
Definition exits (limit p : R) : Prop := p < 0 \/ limit < p.

Definition clampTo (limit p : R) : R := Rmax 0 (Rmin limit p).

(** The velocity component after the boundary check of its axis. *)
Definition reflected (limit p v : R) : R :=
  if Rltb p 0 || Rltb limit p then - v else v.

(** What one tick does to a node, field by field, in the words of the
    specification (section 4.3): integration, boundary reflection,
    pulsing, pointer interaction with the velocity clamp. *)
Record Tick (o : Options) (width height time : R) (m : Mouse) (n n' : Node)
  : Prop := mkTick {
  tick_x_out : exits width (n_x n + n_vx n) ->
               n_x n' = clampTo width (n_x n + n_vx n);
  tick_x_in : ~ exits width (n_x n + n_vx n) -> n_x n' = n_x n + n_vx n;
  tick_y_out : exits height (n_y n + n_vy n) ->
               n_y n' = clampTo height (n_y n + n_vy n);
  tick_y_in : ~ exits height (n_y n + n_vy n) -> n_y n' = n_y n + n_vy n;
  tick_size_pulsing :
    pulseEffect o = true ->
    n_size n' = n_originalSize n * (1 + 0.2 * sin (time * 0.002 + n_pulseOffset n));
  tick_size_still : pulseEffect o = false -> n_size n' = n_size n;
  tick_originalSize : n_originalSize n' = n_originalSize n;
  tick_pulseOffset : n_pulseOffset n' = n_pulseOffset n;
  tick_velocity :
    let rvx := reflected width (n_x n + n_vx n) (n_vx n) in
    let rvy := reflected height (n_y n + n_vy n) (n_vy n) in
    let dx := m_x m - n_x n' in
    let dy := m_y m - n_y n' in
    let d := sqrt (dx * dx + dy * dy) in
    let maxDistance := connectionDistance o * 1.5 in
    (m_active m = true /\ d < maxDistance ->
       let k := (1 - d / maxDistance) * 0.05 in
       let ax := rvx - k * dx in
       let ay := rvy - k * dy in
       let mag := sqrt (ax * ax + ay * ay) in
       (mag <= speed o * 2 -> n_vx n' = ax /\ n_vy n' = ay) /\
       (speed o * 2 < mag ->
          n_vx n' = ax * (speed o * 2 / mag) /\ n_vy n' = ay * (speed o * 2 / mag)) /\
       (0 <= speed o ->
          sqrt (n_vx n' * n_vx n' + n_vy n' * n_vy n') <= speed o * 2))
    /\ (~ (m_active m = true /\ d < maxDistance) ->
        n_vx n' = rvx /\ n_vy n' = rvy)
}.

Definition sat {A : Type} (c : M A) (w : World)
    (Q : A -> World -> Prop) (E : World -> Prop) : Prop :=
  match c w with
  | (Ok a, w') => Q a w'
  | (Throw _, w') => E w'
  end.

(** [keeps P c]: [c] preserves [P], whether it returns or throws. *)
Definition keeps {A : Type} (P : World -> Prop) (c : M A) : Prop :=
  forall w, P w -> sat c w (fun _ => P) P.

(** The tier is [L]. *)
Definition tierIs (L : PerformanceLevel) (w : World) : Prop :=
  performanceLevel (inst w) = L.

Definition emptyPage : Env :=
  mkEnv (fun _ => None) true true (fun _ _ => true) (fun _ => true)
        (Some 8%Z) "Mozilla/5.0 (X11; Linux x86_64)" None true 1 0 0 0
        (fun _ => 0).

(** The node [createNodes] pushes when [k] random values were drawn before. *)
Definition seedNode (env : Env) (wd ht : R) (o : Options) (k : nat) : Node :=
  mkNode (random env k * wd)
         (random env (1 + k) * ht)
         ((random env (2 + k) - 0.5) * speed o)
         ((random env (3 + k) - 0.5) * speed o)
         (random env (4 + k) * nodeSize o + 1.5)
         (random env (5 + k) * nodeSize o + 1.5)
         (random env (6 + k) * PI * 2).

Fixpoint seedNodes (env : Env) (wd ht : R) (o : Options) (count k : nat)
    : list Node :=
  match count with
  | O => []
  | S c => seedNode env wd ht o k :: seedNodes env wd ht o c (7 + k)
  end.

(** The nodes after the [forEach] of [resize]. *)
Fixpoint reseat (env : Env) (w h : R) (k : nat) (ns : list Node) : list Node :=
  match ns with
  | [] => []
  | n :: rest =>
      mkNode (random env k * w) (random env (1 + k) * h) (n_vx n) (n_vy n)
             (n_size n) (n_originalSize n) (n_pulseOffset n)
      :: reseat env w h (2 + k) rest
  end.

(** The cap a tier puts on the node count. *)
Definition tierCap (l : PerformanceLevel) (z : Z) : Z :=
  match l with
  | low => Z.min z 50
  | medium => Z.min z 100
  | high => z
  end.

(** The viewport area against the 1920 x 1080 reference, at most 1. *)
Definition areaRatio (w h : R) : R := Rmin 1 (w * h / (1920 * 1080)).

(** What the heuristics of [checkPerformance] leave on a low-end device,
    whether the benchmark after them returns or throws. *)
Definition lowEndSettings (o : Options) (w : World) : Prop :=
  performanceLevel (inst w) = low /\
  nodeCount (options (inst w)) = Zfloor (IZR (nodeCount o) * 0.3) /\
  connectionDistance (options (inst w)) = IZR (Zfloor (connectionDistance o * 0.7)) /\
  speed (options (inst w)) = speed o * 0.7 /\
  dataFlowEffect (options (inst w)) = false.

Definition inBounds (w h : R) (n : Node) : Prop :=
  0 <= n_x n <= w /\ 0 <= n_y n <= h.

(** The state of an instance that renders with WebGL. *)
Definition boundedGL (w : World) : Prop :=
  gl (inst w) = true /\
  0 <= width (inst w) /\ 0 <= height (inst w) /\
  0 <= fst (rect (host w)) /\ 0 <= snd (rect (host w)) /\
  Forall (inBounds (width (inst w)) (height (inst w))) (nodes (inst w)).

(** The state of an instance without GL context, or without container:
    it has no node, and nobody can call its methods. *)
Definition inert (w : World) : Prop :=
  gl (inst w) = false /\ nodes (inst w) = [] /\
  (reference (host w) = false \/ container (inst w) = None).

(** The state in which [fallbackToCanvas] leaves the constructor. *)
Definition fallbackSeed (w : World) : Prop :=
  gl (inst w) = false /\ nodes (inst w) = [] /\
  width (inst w) = 0 /\ height (inst w) = 0 /\
  reference (host w) = false.

(** A well-formed event: a layout box has no negative side. *)
Definition wfEvent (ev : Event) : Prop :=
  match ev with
  | EvResize w h => 0 <= w /\ 0 <= h
  | _ => True
  end.

(** The tier the device heuristics of [checkPerformance] give. *)
Definition heuristicTier (env : Env) : PerformanceLevel :=
  if isLowEndDevice env then low
  else if isMidRangeDevice env then medium
  else high.

(** One tier further down. *)
Definition downgrade (l : PerformanceLevel) : PerformanceLevel :=
  match l with
  | high => medium
  | medium => low
  | low => low
  end.

(** The heuristics, then the benchmark. *)
Definition benchmarkedTier (env : Env) : PerformanceLevel :=
  if Rltb 10 (benchmarkTime env) then downgrade (heuristicTier env)
  else heuristicTier env.

Definition chosenTier (env : Env) (opts : PartialOptions) : PerformanceLevel :=
  if adaptivePerformance (spread defaultOptions opts) then benchmarkedTier env
  else high.

(** What the constructor relies on when it reaches [checkPerformance]. *)
Definition untuned (A : bool) (w : World) : Prop :=
  performanceLevel (inst w) = high /\
  adaptivePerformance (options (inst w)) = A.

(** A desktop page with a working GL context and a container. *)
Definition desktopPage : Env :=
  mkEnv (fun _ => Some 0%nat) true true (fun _ _ => true) (fun _ => true)
        (Some 8%Z) "Mozilla/5.0 (X11; Linux x86_64)" None true 1 0 0 0
        (fun _ => 1 / 4).

Definition desktopListeners : list Listener :=
  [mkListener TWindow ev_resize (mkFn 0 HResize);
   mkListener TContainer ev_mousemove (mkFn 1 HMouseMove);
   mkListener TContainer ev_mouseleave (mkFn 2 (HSetActive false));
   mkListener TContainer ev_mouseenter (mkFn 3 (HSetActive true));
   mkListener TContainer ev_touchmove (mkFn 4 HTouchMove);
   mkListener TContainer ev_touchstart (mkFn 5 HTouchMove);
   mkListener TContainer ev_touchend (mkFn 6 (HSetActive false));
   mkListener TDocument ev_visibilitychange (mkFn 7 HVisibility)].

Definition desktopGLCalls : list GLCall :=
  [CreateProgram NodeProgram; CreateProgram ConnectionProgram;
   CreateBuffer NodePositionBuffer; CreateBuffer NodeSizeBuffer;
   CreateBuffer ConnectionPositionBuffer;
   BufferData (Some NodePositionBuffer) 2000;
   BufferData (Some NodeSizeBuffer) 1000;
   UseProgram (Some NodeProgram); DrawArrays POINTS 1000; Finish;
   Viewport 1920 1080;
   BufferData (Some NodePositionBuffer) 0; BufferData (Some NodeSizeBuffer) 0;
   BufferData (Some ConnectionPositionBuffer) 0;
   ClearColor light; Clear;
   UseProgram (Some ConnectionProgram); DrawArrays LINES 0;
   UseProgram (Some NodeProgram); DrawArrays POINTS 0].

Definition desktopObjects : list GLObject :=
  [ProgramObject NodeProgram; ProgramObject ConnectionProgram;
   BufferObject NodePositionBuffer; BufferObject NodeSizeBuffer;
   BufferObject ConnectionPositionBuffer].

(** The page and the instance after [new WebGLNeuralNetwork(container)]
    on the desktop page with a 1920 x 1080 container. *)
Definition desktopWorld : World :=
  mkWorld
    (mkInst (Some 0%nat) defaultOptions 1920 1080 0 [] (mkMouse 0 0 false)
            true true high true true false
            (Some NodeProgram) (Some ConnectionProgram)
            (Some NodePositionBuffer) (Some NodeSizeBuffer)
            (Some ConnectionPositionBuffer) WebGLLoop true)
    (mkHost (1920, 1080) true true desktopListeners 8%nat [WebGLLoop] 2000%nat
            [] desktopGLCalls desktopObjects [AppendChild] [] true).

(** The buffers and programs an instance holds, released from [live]. *)
Definition releaseAll (i : Inst) (live : list GLObject) : list GLObject :=
  glEffect (DeleteProgram (connectionProgram i))
    (glEffect (DeleteProgram (nodeProgram i))
       (glEffect (DeleteBuffer (connectionPositionBuffer i))
          (glEffect (DeleteBuffer (nodeSizeBuffer i))
             (glEffect (DeleteBuffer (nodePositionBuffer i)) live)))).

(** The delete requests of [destroy]. *)
Definition deleteRequests (i : Inst) : list GLCall :=
  [DeleteBuffer (nodePositionBuffer i); DeleteBuffer (nodeSizeBuffer i);
   DeleteBuffer (connectionPositionBuffer i);
   DeleteProgram (nodeProgram i); DeleteProgram (connectionProgram i)].

(** What one call of [destroy] does, from [w] to [w1]. *)
Definition disposed (w w1 : World) : Prop :=
  inst w1 = with_shouldRender false (inst w) /\
  glLive (host w1) =
    (if gl (inst w) then releaseAll (inst w) (glLive (host w)) else glLive (host w)) /\
  glCalls (host w1) =
    (if gl (inst w) then glCalls (host w) ++ deleteRequests (inst w)
     else glCalls (host w)) /\
  canvasAttached (host w1) =
    (if canvas (inst w) && canvasAttached (host w) then false
     else canvasAttached (host w)) /\
  domCalls (host w1) =
    (if canvas (inst w) && canvasAttached (host w)
     then domCalls (host w) ++ [RemoveChild] else domCalls (host w)) /\
  observing (host w1) =
    (if visibilityObserver (inst w) then false else observing (host w)) /\
  incl (listeners (host w1)) (listeners (host w)) /\
  frameQueue (host w1) = frameQueue (host w) /\
  rect (host w1) = rect (host w) /\
  console (host w1) = console (host w) /\
  ctxOps (host w1) = ctxOps (host w) /\
  reference (host w1) = reference (host w).

(** A delete request is a release of one object, or nothing. *)
Definition deleted (c : GLCall) : option GLObject :=
  match c with
  | DeleteBuffer (Some b) => Some (BufferObject b)
  | DeleteProgram (Some p) => Some (ProgramObject p)
  | _ => None
  end.

Definition releaseOpt (o : option GLObject) (live : list GLObject) : list GLObject :=
  match o with
  | Some x => release x live
  | None => live
  end.

Definition releaseList (os : list (option GLObject)) (live : list GLObject)
    : list GLObject :=
  fold_right releaseOpt live os.

(** [{ nodeCount: 1 }]. *)
Definition oneNode : PartialOptions :=
  mkPartial (Some 1%Z) None None None None None None None None.

(** The desktop instance after [updateOptions({ nodeCount: 1 })]. *)
Definition desktopSeeded : World :=
  mkWorld
    (with_nodes [seedNode desktopPage 1920 1080 (spread defaultOptions oneNode) 2000]
       (with_options (spread defaultOptions oneNode) (inst desktopWorld)))
    (with_rng 2007 (host desktopWorld)).

(** The desktop page without any GL context. *)
Definition softwarePage : Env :=
  mkEnv (fun _ => Some 0%nat) false true (fun _ _ => true) (fun _ => true)
        (Some 8%Z) "Mozilla/5.0 (X11; Linux x86_64)" None true 1 0 0 0
        (fun _ => 1 / 4).

(** [{ nodeCount: 400 }]. *)
Definition manyNodes : PartialOptions :=
  mkPartial (Some 400%Z) None None None None None None None None.

(** The desktop page, but the vertex shader of the node program does not
    compile. *)
Definition nodeShaderBroken : Env :=
  mkEnv (fun _ => Some 0%nat) true true
        (fun p s => match p, s with
                    | NodeProgram, VertexStage => false
                    | _, _ => true
                    end)
        (fun _ => true)
        (Some 8%Z) "Mozilla/5.0 (X11; Linux x86_64)" None true 1 0 0 0
        (fun _ => 1 / 4).

(** The desktop page, but the connection program does not link. *)
Definition connectionLinkBroken : Env :=
  mkEnv (fun _ => Some 0%nat) true true (fun _ _ => true)
        (fun p => match p with
                  | ConnectionProgram => false
                  | NodeProgram => true
                  end)
        (Some 8%Z) "Mozilla/5.0 (X11; Linux x86_64)" None true 1 0 0 0
        (fun _ => 1 / 4).

(* ------------------------------------------------------------------------- *)
(** ** Further vocabulary: seeding, sessions, frames *)

(** The segment with its two end points exchanged. *)
Definition flipSegment (s : Segment) : Segment :=
  match s with (x1, y1, x2, y2) => (x2, y2, x1, y1) end.

(** A node as [createNodes] seeds it for options [o] on a [wd] x [ht]
    canvas. *)
Definition wellSeeded (o : Options) (wd ht : R) (n : Node) : Prop :=
  0 <= n_x n <= wd /\ 0 <= n_y n <= ht /\
  Rabs (n_vx n) <= speed o / 2 /\ Rabs (n_vy n) <= speed o / 2 /\
  1.5 <= n_size n <= nodeSize o + 1.5 /\
  1.5 <= n_originalSize n <= nodeSize o + 1.5 /\
  0 <= n_pulseOffset n < 2 * PI.

(** [n] frame callbacks are pending. *)
Definition pending (n : nat) (w : World) : Prop :=
  List.length (frameQueue (host w)) = n.

(** Every registered listener function was created before now. *)
Definition freshListeners (w : World) : Prop :=
  Forall (fun l => (fn_id (l_fn l) < nextFn (host w))%nat) (listeners (host w)).

(** The registered listeners are [L]. *)
Definition settled (L : list Listener) (w : World) : Prop :=
  listeners (host w) = L /\ freshListeners w.

(** A listener that does not read the pointer. *)
Definition passive (l : Listener) : Prop :=
  fn_body (l_fn l) = HResize \/ fn_body (l_fn l) = HVisibility.

(** The pointer is inactive and no registered listener can activate it. *)
Definition pointerOff (w : World) : Prop :=
  m_active (mouse (inst w)) = false /\ Forall passive (listeners (host w)).

(** The same, while the constructor runs with [interactive: false]. *)
Definition notInteractive (w : World) : Prop :=
  interactive (options (inst w)) = false /\ pointerOff w.

(** [{ interactive: false }]. *)
Definition notInteractiveOptions : PartialOptions :=
  mkPartial None None None None (Some false) None None None None.

(** [{ interactive: true }]. *)
Definition interactiveOptions : PartialOptions :=
  mkPartial None None None None (Some true) None None None None.

(** An event that is not a call of [updateOptions] with a [nodeCount]. *)
Definition keepsCount (ev : Event) : Prop :=
  match ev with
  | EvUpdateOptions p => p_nodeCount p = None
  | _ => True
  end.

(** No node, on a canvas that has no size yet. *)
Definition unsized (w : World) : Prop :=
  nodes (inst w) = [] /\ width (inst w) = 0 /\ height (inst w) = 0.

Definition noNodes (w : World) : Prop := nodes (inst w) = [].

(** Nothing was drawn on a 2D context, no frame callback is pending and
    [animate] is the frame callback of the instance. *)
Definition glLoopReady (w : World) : Prop :=
  ctxOps (host w) = [] /\ frameQueue (host w) = [] /\ animate_ (inst w) = WebGLLoop.

(** Nothing was drawn on a 2D context, no frame callback is pending and
    there is no GL context. *)
Definition stalled (w : World) : Prop :=
  ctxOps (host w) = [] /\ frameQueue (host w) = [] /\ gl (inst w) = false.

(** Nothing was drawn on a 2D context and [animate] is the only frame
    callback there is. *)
Definition glLoopOnly (w : World) : Prop :=
  ctxOps (host w) = [] /\ animate_ (inst w) = WebGLLoop /\
  Forall (eq WebGLLoop) (frameQueue (host w)).

(** Nothing was drawn on a 2D context, and if a frame callback is pending
    then [animate] is the only one there is. *)
Definition noCanvasFrame (w : World) : Prop :=
  ctxOps (host w) = [] /\ (frameQueue (host w) = [] \/ glLoopOnly w).

(** The calls of one drawn frame that the trace records, for [n] nodes
    and [c] connections: the three uploads, the clear, and the program
    switch and draw of each pass.  The buffer bindings, uniforms,
    attribute pointers, blending and line width calls that the source
    makes between them are not in the trace. *)
Definition frameCalls (i : Inst) (n c : nat) : list GLCall :=
  [BufferData (nodePositionBuffer i) (n * 2);
   BufferData (nodeSizeBuffer i) n;
   BufferData (connectionPositionBuffer i) (4 * c);
   ClearColor (theme (options i)); Clear;
   UseProgram (connectionProgram i); DrawArrays LINES (2 * c);
   UseProgram (nodeProgram i); DrawArrays POINTS n].

(** The instance does not render: it is scrolled out of view, or the
    page is hidden, or it was destroyed. *)
Definition paused (w : World) : Prop :=
  isVisible (inst w) = false \/ shouldRender (inst w) = false.

(** Options [o] are options [o0] with the numbers lowered, not below
    zero, and possibly the data-flow effect switched off. *)
Definition lowered (o0 o : Options) : Prop :=
  (0 <= nodeCount o <= nodeCount o0)%Z /\
  0 <= connectionDistance o <= connectionDistance o0 /\
  0 <= speed o <= speed o0 /\
  Bool.le (dataFlowEffect o) (dataFlowEffect o0) /\
  nodeSize o = nodeSize o0 /\ interactive o = interactive o0 /\
  pulseEffect o = pulseEffect o0 /\ adaptivePerformance o = adaptivePerformance o0 /\
  theme o = theme o0.

(** The options of the instance are [o0], lowered. *)
Definition loweredIn (o0 : Options) (w : World) : Prop :=
  lowered o0 (options (inst w)).

(** [createShaderProgram] returns null for the sources of [p]. *)
Definition shaderFails (env : Env) (p : Program) : bool :=
  negb (compileOk env p VertexStage) || negb (compileOk env p FragmentStage)
  || negb (linkOk env p).

(** [satx c w Q E]: like [sat], with the exception in hand. *)
Definition satx {A : Type} (c : M A) (w : World)
    (Q : A -> World -> Prop) (E : JsError -> World -> Prop) : Prop :=
  match c w with
  | (Ok a, w') => Q a w'
  | (Throw e, w') => E e w'
  end.

(** A page on which nothing of the instance can run any more: no
    listener, no pending frame, no observer, and no reference to the
    instance. *)
Definition dead (w : World) : Prop :=
  listeners (host w) = [] /\ frameQueue (host w) = [] /\
  observing (host w) = false /\ reference (host w) = false.

Definition isDraw (c : GLCall) : bool :=
  match c with
  | DrawArrays _ _ => true
  | _ => false
  end.

(** The two arcs [animateCanvas] fills for a node: the glow, then the
    node. *)
Definition nodeArcs (n : Node) : list CtxOp :=
  [FillArc (n_x n) (n_y n) (n_size n * 2) 0.6;
   FillArc (n_x n) (n_y n) (n_size n) 1].

(** Two nodes, 5 apart, for a pointer at 3 of the first and 4 of the
    second. *)
Definition twoNodes : list Node :=
  [mkNode 0 0 0 0 2 2 0; mkNode 3 4 0 0 2 2 0].

(** An instance that holds them, with the pointer active: with a GL
    context, or on the Canvas path. *)
Definition pairWorld (withGL : bool) : World :=
  mkWorld
    (mkInst (Some 0%nat) defaultOptions 1920 1080 0 twoNodes (mkMouse 3 0 true)
            true true high true withGL (negb withGL)
            (Some NodeProgram) (Some ConnectionProgram)
            (Some NodePositionBuffer) (Some NodeSizeBuffer)
            (Some ConnectionPositionBuffer)
            (if withGL then WebGLLoop else CanvasLoop) true)
    (mkHost (1920, 1080) true true [] 0%nat [] 0%nat [] [] [] [] [] true).

(** An instance without GL context whose canvas is 1920 x 1080 and whose
    options hold [nodeCount: 400]: a state on which the method
    [fallbackToCanvas] can be called. *)
Definition crowded : World :=
  mkWorld
    (mkInst (Some 0%nat) (spread defaultOptions manyNodes) 1920 1080 0 []
            (mkMouse 0 0 false) true true high true false false
            None None None None None WebGLLoop false)
    (mkHost (1920, 1080) true false [] 0%nat [] 0%nat [] [] [] [AppendChild] [] false).

(* ========================================================================= *)
(** * Properties *)

(* ------------------------------------------------------------------------- *)
(** ** Comparisons *)

Lemma Rltb_true (a b : R) : Rltb a b = true <-> a < b.
Proof.
  unfold Rltb. destruct (Rlt_dec a b); split; intros; auto; discriminate.
Qed.

Lemma Rltb_false (a b : R) : Rltb a b = false <-> ~ a < b.
Proof.
  unfold Rltb. destruct (Rlt_dec a b); split; intros; auto; try discriminate.
  contradiction.
Qed.

Lemma Rleb_true (a b : R) : Rleb a b = true <-> a <= b.
Proof.
  unfold Rleb. destruct (Rle_dec a b); split; intros; auto; discriminate.
Qed.

(** Turns the boolean comparisons among the hypotheses into order facts. *)
Ltac rltb :=
  repeat match goal with
  | H : Rltb _ _ = true |- _ => apply (proj1 (Rltb_true _ _)) in H
  | H : Rltb _ _ = false |- _ => apply (proj1 (Rltb_false _ _)) in H
  | H : Rleb _ _ = true |- _ => apply (proj1 (Rleb_true _ _)) in H
  end.

(* ------------------------------------------------------------------------- *)
(** ** The connection set *)

Lemma pairLoop_In (T : R) (a : Node) (rest : list Node) (s : Segment) :
  In s (pairLoop T a rest) <->
  exists k b, nth_error rest k = Some b /\ linked T a b /\ s = pairSegment a b.
Proof.
  induction rest as [|b rest IH]; simpl.
  - split; [contradiction|]. intros (k & b & H & _). destruct k; discriminate.
  - rewrite in_app_iff, IH. split.
    + intros [H | (k & c & Hk & Hl & Hs)].
      * destruct (Rltb _ _) eqn:E; simpl in H; [|contradiction].
        destruct H as [H|[]]. exists 0%nat, b. apply Rltb_true in E. auto.
      * exists (S k), c. auto.
    + intros (k & c & Hk & Hl & Hs). destruct k as [|k]; simpl in Hk.
      * inversion Hk; subst c. left.
        apply Rltb_true in Hl. rewrite Hl. left. auto.
      * right. exists k, c. auto.
Qed.

Lemma mouseLink_In (T : R) (m : Mouse) (a : Node) (s : Segment) :
  In s (mouseLink T m a) <-> reached T m a /\ s = mouseSegment m a.
Proof.
  unfold mouseLink, reached. destruct (m_active m).
  - destruct (Rltb _ _) eqn:E; simpl.
    + apply Rltb_true in E. intuition.
    + apply Rltb_false in E. intuition.
  - simpl. intuition discriminate.
Qed.

Lemma connectionsOf_In (T : R) (m : Mouse) (nodes : list Node) (s : Segment) :
  In s (connectionsOf T m nodes) <->
  (exists i j a b, (i < j)%nat /\ nth_error nodes i = Some a /\
                   nth_error nodes j = Some b /\ linked T a b /\
                   s = pairSegment a b)
  \/ (exists i a, nth_error nodes i = Some a /\ reached T m a /\
                  s = mouseSegment m a).
Proof.
  induction nodes as [|a rest IH]; simpl.
  - split; [contradiction|].
    intros [(i & j & x & y & _ & H & _) | (i & x & H & _)];
      destruct i; discriminate.
  - rewrite !in_app_iff, pairLoop_In, mouseLink_In, IH. split.
    + intros [(k & b & Hk & Hl & Hs) | [[Hr Hs] | [H | H]]].
      * left. exists 0%nat, (S k), a, b. simpl. repeat split; auto. lia.
      * right. exists 0%nat, a. auto.
      * destruct H as (i & j & x & y & Hij & Hi & Hj & Hl & Hs).
        left. exists (S i), (S j), x, y. simpl. repeat split; auto. lia.
      * destruct H as (i & x & Hi & Hr & Hs).
        right. exists (S i), x. auto.
    + intros [(i & j & x & y & Hij & Hi & Hj & Hl & Hs) | (i & x & Hi & Hr & Hs)].
      * destruct i as [|i]; simpl in Hi.
        -- inversion Hi; subst x. destruct j as [|j]; [lia|]. simpl in Hj.
           left. exists j, y. auto.
        -- destruct j as [|j]; [lia|]. simpl in Hj.
           right. right. left. exists i, j, x, y. repeat split; auto. lia.
      * destruct i as [|i]; simpl in Hi.
        -- inversion Hi; subst x. right. left. auto.
        -- right. right. right. exists i, x. auto.
Qed.

Lemma pairLoopCanvas_segments (T a3 : R) (a : Node) (rest : list Node) :
  map segmentOfStroke (pairLoopCanvas T a3 a rest) = pairLoop T a rest.
Proof.
  induction rest as [|b rest IH]; simpl; auto.
  rewrite map_app, IH. destruct (Rltb _ _); reflexivity.
Qed.

Lemma mouseLinkCanvas_segments (T a3 : R) (m : Mouse) (a : Node) :
  map segmentOfStroke (mouseLinkCanvas T a3 m a) = mouseLink T m a.
Proof.
  unfold mouseLinkCanvas, mouseLink.
  destruct (m_active m); auto. destruct (Rltb _ _); reflexivity.
Qed.

Lemma strokesOf_segments (T a3 : R) (m : Mouse) (nodes : list Node) :
  map segmentOfStroke (strokesOf T a3 m nodes) = connectionsOf T m nodes.
Proof.
  induction nodes as [|a rest IH]; simpl; auto.
  now rewrite !map_app, pairLoopCanvas_segments, mouseLinkCanvas_segments, IH.
Qed.

Lemma flatten_length (segs : list Segment) :
  List.length (flatten segs) = (4 * List.length segs)%nat.
Proof.
  induction segs as [|[[[x1 y1] x2] y2] segs IH]; simpl in *; auto.
  rewrite IH. lia.
Qed.

(* ------------------------------------------------------------------------- *)
(** ** One tick of one node *)

Lemma boundaryX_x (w : R) (n : Node) :
  (exits w (n_x n) -> n_x (boundaryX w n) = clampTo w (n_x n)) /\
  (~ exits w (n_x n) -> n_x (boundaryX w n) = n_x n).
Proof.
  unfold boundaryX, exits, clampTo.
  destruct (Rltb (n_x n) 0) eqn:E1; destruct (Rltb w (n_x n)) eqn:E2; simpl;
    rltb; split; intros; auto; tauto.
Qed.

Lemma boundaryY_y (h : R) (n : Node) :
  (exits h (n_y n) -> n_y (boundaryY h n) = clampTo h (n_y n)) /\
  (~ exits h (n_y n) -> n_y (boundaryY h n) = n_y n).
Proof.
  unfold boundaryY, exits, clampTo.
  destruct (Rltb (n_y n) 0) eqn:E1; destruct (Rltb h (n_y n)) eqn:E2; simpl;
    rltb; split; intros; auto; tauto.
Qed.

Lemma boundaryX_vx (w : R) (n : Node) :
  n_vx (boundaryX w n) = reflected w (n_x n) (n_vx n).
Proof.
  unfold boundaryX, reflected. destruct (_ || _); simpl; lra.
Qed.

Lemma boundaryY_vy (h : R) (n : Node) :
  n_vy (boundaryY h n) = reflected h (n_y n) (n_vy n).
Proof.
  unfold boundaryY, reflected. destruct (_ || _); simpl; lra.
Qed.

Lemma boundaryX_rest (w : R) (n : Node) :
  n_y (boundaryX w n) = n_y n /\ n_vy (boundaryX w n) = n_vy n /\
  n_size (boundaryX w n) = n_size n /\
  n_originalSize (boundaryX w n) = n_originalSize n /\
  n_pulseOffset (boundaryX w n) = n_pulseOffset n.
Proof. unfold boundaryX. destruct (_ || _); simpl; auto. Qed.

Lemma boundaryY_rest (h : R) (n : Node) :
  n_x (boundaryY h n) = n_x n /\ n_vx (boundaryY h n) = n_vx n /\
  n_size (boundaryY h n) = n_size n /\
  n_originalSize (boundaryY h n) = n_originalSize n /\
  n_pulseOffset (boundaryY h n) = n_pulseOffset n.
Proof. unfold boundaryY. destruct (_ || _); simpl; auto. Qed.

Lemma applyPulse_rest (o : Options) (t : R) (n : Node) :
  n_x (applyPulse o t n) = n_x n /\ n_y (applyPulse o t n) = n_y n /\
  n_vx (applyPulse o t n) = n_vx n /\ n_vy (applyPulse o t n) = n_vy n /\
  n_originalSize (applyPulse o t n) = n_originalSize n /\
  n_pulseOffset (applyPulse o t n) = n_pulseOffset n.
Proof. unfold applyPulse. destruct (pulseEffect o); simpl; repeat split. Qed.

Lemma mouseInteraction_rest (o : Options) (m : Mouse) (n : Node) :
  n_x (mouseInteraction o m n) = n_x n /\ n_y (mouseInteraction o m n) = n_y n /\
  n_size (mouseInteraction o m n) = n_size n /\
  n_originalSize (mouseInteraction o m n) = n_originalSize n /\
  n_pulseOffset (mouseInteraction o m n) = n_pulseOffset n.
Proof.
  unfold mouseInteraction. destruct (m_active m); auto.
  cbv zeta. destruct (Rltb _ _); auto. destruct (Rltb _ _); simpl; auto.
Qed.

(** Scaling a vector longer than [M] by [M / length] gives length [M]. *)
Lemma scaled_magnitude (ax ay M : R) :
  0 <= M -> M < sqrt (ax * ax + ay * ay) ->
  let s := M / sqrt (ax * ax + ay * ay) in
  sqrt (ax * s * (ax * s) + ay * s * (ay * s)) = M.
Proof.
  intros HM Hlt s.
  set (g := sqrt (ax * ax + ay * ay)) in *.
  assert (Hg : 0 < g) by lra.
  assert (Hs : 0 <= s) by (unfold s; apply Rmult_le_pos; [lra | left; apply Rinv_0_lt_compat; lra]).
  replace (ax * s * (ax * s) + ay * s * (ay * s)) with ((ax * ax + ay * ay) * (s * s)) by ring.
  assert (Hsq : 0 <= ax * ax + ay * ay) by nra.
  rewrite sqrt_mult by nra.
  rewrite sqrt_square by assumption.
  fold g. unfold s. field. lra.
Qed.

Lemma mouseInteraction_velocity (o : Options) (m : Mouse) (n : Node) :
  let dx := m_x m - n_x n in
  let dy := m_y m - n_y n in
  let d := sqrt (dx * dx + dy * dy) in
  let maxDistance := connectionDistance o * 1.5 in
  let n' := mouseInteraction o m n in
  (m_active m = true /\ d < maxDistance ->
     let k := (1 - d / maxDistance) * 0.05 in
     let ax := n_vx n - k * dx in
     let ay := n_vy n - k * dy in
     let mag := sqrt (ax * ax + ay * ay) in
     (mag <= speed o * 2 -> n_vx n' = ax /\ n_vy n' = ay) /\
     (speed o * 2 < mag ->
        n_vx n' = ax * (speed o * 2 / mag) /\ n_vy n' = ay * (speed o * 2 / mag)) /\
     (0 <= speed o -> sqrt (n_vx n' * n_vx n' + n_vy n' * n_vy n') <= speed o * 2))
  /\ (~ (m_active m = true /\ d < maxDistance) ->
      n_vx n' = n_vx n /\ n_vy n' = n_vy n).
Proof.
  intros dx dy d maxDistance n'. subst n'. unfold mouseInteraction.
  fold dx dy. fold d. fold maxDistance.
  destruct (m_active m).
  2:{ split; [intros [H _]; discriminate | auto]. }
  cbv zeta.
  destruct (Rltb d maxDistance) eqn:Ed.
  2:{ apply Rltb_false in Ed. split; [intros [_ H]; contradiction | auto]. }
  apply Rltb_true in Ed. split; [|intros H; exfalso; apply H; auto].
  intros _. unfold repelFactor.
  replace (n_vx n + dx * ((1 - d / maxDistance) * 0.05) * -1)
    with (n_vx n - (1 - d / maxDistance) * 0.05 * dx) by ring.
  replace (n_vy n + dy * ((1 - d / maxDistance) * 0.05) * -1)
    with (n_vy n - (1 - d / maxDistance) * 0.05 * dy) by ring.
  set (ax := n_vx n - (1 - d / maxDistance) * 0.05 * dx).
  set (ay := n_vy n - (1 - d / maxDistance) * 0.05 * dy).
  destruct (Rltb (speed o * 2) (sqrt (ax * ax + ay * ay))) eqn:Ev; simpl.
  - apply Rltb_true in Ev. repeat split; try lra.
    intros Hs. rewrite scaled_magnitude; lra.
  - apply Rltb_false in Ev. repeat split; try lra.
Qed.

Lemma updateNode_Tick (o : Options) (w h t : R) (m : Mouse) (n : Node) :
  Tick o w h t m n (updateNode o w h t m n).
Proof.
  unfold updateNode.
  set (n1 := integrate n).
  set (n2 := boundaryX w n1).
  set (n3 := boundaryY h n2).
  set (n4 := applyPulse o t n3).
  destruct (boundaryX_x w n1) as [X1 X2].
  destruct (boundaryX_rest w n1) as (X3 & X4 & X5 & X6 & X7).
  destruct (boundaryY_y h n2) as [Y1 Y2].
  destruct (boundaryY_rest h n2) as (Y3 & Y4 & Y5 & Y6 & Y7).
  destruct (applyPulse_rest o t n3) as (P1 & P2 & P3 & P4 & P5 & P6).
  destruct (mouseInteraction_rest o m n4) as (M1 & M2 & M3 & M4 & M5).
  fold n2 in X1, X2, X3, X4, X5, X6, X7.
  fold n3 in Y1, Y2, Y3, Y4, Y5, Y6, Y7.
  fold n4 in P1, P2, P3, P4, P5, P6.
  assert (Ex : n_x n1 = n_x n + n_vx n) by reflexivity.
  assert (Ey : n_y n1 = n_y n + n_vy n) by reflexivity.
  assert (Hvx : n_vx n4 = reflected w (n_x n + n_vx n) (n_vx n)).
  { rewrite P3, Y4. unfold n2. rewrite boundaryX_vx. reflexivity. }
  assert (Hvy : n_vy n4 = reflected h (n_y n + n_vy n) (n_vy n)).
  { rewrite P4. unfold n3. rewrite boundaryY_vy, X3, X4. reflexivity. }
  constructor.
  - intros H. rewrite M1, P1, Y3, X1; rewrite Ex; auto.
  - intros H. rewrite M1, P1, Y3, X2; rewrite Ex; auto.
  - intros H. rewrite M2, P2, Y1; rewrite X3, Ey; auto.
  - intros H. rewrite M2, P2, Y2; rewrite X3, Ey; auto.
  - intros H. rewrite M3. unfold n4, applyPulse. rewrite H. simpl.
    rewrite Y6, Y7, X6, X7. unfold pulseAmount, pulseRate. reflexivity.
  - intros H. rewrite M3. unfold n4, applyPulse. rewrite H.
    rewrite Y5, X5. reflexivity.
  - rewrite M4, P5, Y6, X6. reflexivity.
  - rewrite M5, P6, Y7, X7. reflexivity.
  - cbv zeta. rewrite M1, M2, <- Hvx, <- Hvy.
    apply (mouseInteraction_velocity o m n4).
Qed.

(** C3. One call of [updateNodes] transforms every node, and only in
    this way: the position is advanced by the velocity and reflected at
    the boundary; with pulsing on, the size becomes
    [originalSize * (1 + 0.2 * sin (time * 0.002 + pulseOffset))]; when the
    pointer is active and closer than [connectionDistance * 1.5], the
    velocity is adjusted by [-(1 - d / maxDistance) * 0.05] times the
    node-to-pointer vector and then its magnitude is clamped to
    [speed * 2]; everything else is unchanged. *)
Theorem updateNodes_tick (o : Options) (width height time : R) (m : Mouse)
    (nodes : list Node) :
  Forall2 (Tick o width height time m) nodes
          (updateNodes o width height time m nodes).
Proof.
  unfold updateNodes.
  induction nodes as [|n rest IH]; simpl; constructor; auto.
  apply updateNode_Tick.
Qed.

(* ------------------------------------------------------------------------- *)
(** ** Reasoning about methods

    [sat c w Q E]: run from [w], the method [c] either returns [a] in a
    world satisfying [Q a], or throws in a world satisfying [E]. *)

Section SatRules.

Context {A B : Type}.

Lemma sat_ret (a : A) w (Q : A -> World -> Prop) E : Q a w -> sat (ret a) w Q E.
Proof. auto. Qed.

Lemma sat_throw e w (Q : A -> World -> Prop) (E : World -> Prop) :
  E w -> sat (throw e) w Q E.
Proof. auto. Qed.

Lemma sat_bind (c : M A) (k : A -> M B) w (Q : B -> World -> Prop) E :
  sat c w (fun a w' => sat (k a) w' Q E) E -> sat (bind c k) w Q E.
Proof.
  unfold sat, bind. destruct (c w) as [[a|e] w']; auto.
Qed.

Lemma sat_mono (c : M A) w (Q Q' : A -> World -> Prop) (E E' : World -> Prop) :
  sat c w Q E -> (forall a w', Q a w' -> Q' a w') -> (forall w', E w' -> E' w') ->
  sat c w Q' E'.
Proof.
  unfold sat. destruct (c w) as [[a|e] w']; auto.
Qed.

Lemma keeps_sat (P : World -> Prop) (c : M A) w (Q : A -> World -> Prop)
    (E : World -> Prop) :
  keeps P c -> P w -> (forall a w', P w' -> Q a w') -> (forall w', P w' -> E w') ->
  sat c w Q E.
Proof.
  intros K H HQ HE. eapply sat_mono; [apply K; exact H | auto | auto].
Qed.

Lemma keeps_ret (P : World -> Prop) (a : A) : keeps P (ret a).
Proof. intros w H. exact H. Qed.

Lemma keeps_throw (P : World -> Prop) e : keeps P (@throw A e).
Proof. intros w H. exact H. Qed.

Lemma keeps_bind (P : World -> Prop) (c : M A) (k : A -> M B) :
  keeps P c -> (forall a, keeps P (k a)) -> keeps P (bind c k).
Proof.
  intros Hc Hk w H. apply sat_bind.
  eapply sat_mono; [apply Hc; exact H | | auto].
  intros a w' H'. apply Hk. exact H'.
Qed.

End SatRules.

Lemma sat_this w (Q : Inst -> World -> Prop) E : Q (inst w) w -> sat this w Q E.
Proof. auto. Qed.

Lemma sat_page w (Q : Host -> World -> Prop) E : Q (host w) w -> sat page w Q E.
Proof. auto. Qed.

Lemma sat_setThis f w (Q : unit -> World -> Prop) E :
  Q tt (mkWorld (f (inst w)) (host w)) -> sat (setThis f) w Q E.
Proof. auto. Qed.

Lemma sat_setPage f w (Q : unit -> World -> Prop) E :
  Q tt (mkWorld (inst w) (f (host w))) -> sat (setPage f) w Q E.
Proof. auto. Qed.

Lemma keeps_this (P : World -> Prop) : keeps P this.
Proof. intros w H. exact H. Qed.

Lemma keeps_page (P : World -> Prop) : keeps P page.
Proof. intros w H. exact H. Qed.

Lemma keeps_setThis (P : World -> Prop) f :
  (forall w, P w -> P (mkWorld (f (inst w)) (host w))) -> keeps P (setThis f).
Proof. intros H w Hw. apply H. exact Hw. Qed.

Lemma keeps_setPage (P : World -> Prop) f :
  (forall w, P w -> P (mkWorld (inst w) (f (host w)))) -> keeps P (setPage f).
Proof. intros H w Hw. apply H. exact Hw. Qed.

Lemma keeps_when (P : World -> Prop) b c : keeps P c -> keeps P (when b c).
Proof. intros H. destruct b; [exact H | apply keeps_ret]. Qed.

Lemma keeps_times (P : World -> Prop) n c : keeps P c -> keeps P (times n c).
Proof.
  intros H. induction n as [|n IH]; simpl.
  - apply keeps_ret.
  - apply keeps_bind; auto.
Qed.

Lemma keeps_forEach {A : Type} (P : World -> Prop) (f : A -> M unit) l :
  (forall a, keeps P (f a)) -> keeps P (forEach f l).
Proof.
  intros H. induction l as [|a l IH]; simpl.
  - apply keeps_ret.
  - apply keeps_bind; auto.
Qed.

(** What a callback leaves behind satisfies whatever the method keeps. *)
Lemma keeps_callback (P : World -> Prop) (c : M unit) w :
  keeps P c -> P w -> P (callback c w).
Proof.
  intros K H. specialize (K w H). unfold sat, callback in *.
  destruct (c w) as [[a|e] w']; exact K.
Qed.

(** Breaks a goal [keeps P c] down along the structure of [c]; the leaves
    are closed from the hint database [keeps]. *)
Create HintDb keeps.

Ltac keeps_step :=
  match goal with
  | |- keeps _ (ret _) => apply keeps_ret
  | |- keeps _ (throw _) => apply keeps_throw
  | |- keeps _ this => apply keeps_this
  | |- keeps _ page => apply keeps_page
  | |- keeps _ (bind _ _) => apply keeps_bind; [|intros ?]
  | |- keeps _ (when _ _) => apply keeps_when
  | |- keeps _ (times _ _) => apply keeps_times
  | |- keeps _ (forEach _ _) => apply keeps_forEach; intros ?
  | |- keeps _ (if ?b then _ else _) => destruct b
  | |- keeps _ (match ?x with _ => _ end) => destruct x
  | |- keeps _ _ => solve [auto with keeps]
  end.

Ltac keeps_all := repeat keeps_step.

(* ------------------------------------------------------------------------- *)
(** ** The quality tier after construction *)

Section TierIsStable.

Variable env : Env.
Variable L : PerformanceLevel.

(** Closes the leaves of a [keeps (tierIs L)] goal: assignments to other
    fields. *)
Ltac tier_leaf :=
  match goal with
  | |- keeps _ (setThis _) => apply keeps_setThis
  | |- keeps _ (setPage _) => apply keeps_setPage
  end;
  let w := fresh "w" in let H := fresh "H" in
  intros w H; exact H.

Ltac tier_keeps := repeat first [ keeps_step | tier_leaf ].

Lemma tier_mathRandom : keeps (tierIs L) (mathRandom env).
Proof. unfold mathRandom. tier_keeps. Qed.

Lemma tier_glCall c : keeps (tierIs L) (glCall c).
Proof. unfold glCall. tier_keeps. Qed.

Lemma tier_ctxCall c : keeps (tierIs L) (ctxCall c).
Proof. unfold ctxCall. tier_keeps. Qed.

Lemma tier_property p : keeps (tierIs L) (property p).
Proof. unfold property. tier_keeps. Qed.

Lemma tier_newFunction b : keeps (tierIs L) (newFunction b).
Proof. unfold newFunction. tier_keeps. Qed.

Lemma tier_unlisten t ty b : keeps (tierIs L) (unlisten t ty b).
Proof.
  pose proof tier_newFunction.
  unfold unlisten, removeEventListener. tier_keeps.
Qed.

#[local] Hint Resolve tier_mathRandom tier_glCall tier_ctxCall tier_property
  tier_newFunction tier_unlisten : keeps.

Lemma tier_pushNode : keeps (tierIs L) (pushNode env).
Proof. unfold pushNode. tier_keeps. Qed.

#[local] Hint Resolve tier_pushNode : keeps.

Lemma tier_createNodes : keeps (tierIs L) (createNodes env).
Proof. unfold createNodes. tier_keeps. Qed.

Lemma tier_resetPositions done todo : keeps (tierIs L) (resetPositions env done todo).
Proof.
  revert done. induction todo as [|n rest IH]; intros done; simpl.
  - tier_keeps.
  - apply keeps_bind; [auto with keeps | intros rx].
    apply keeps_bind; [auto with keeps | intros ry].
    apply keeps_bind; [apply keeps_this | intros i]. apply IH.
Qed.

#[local] Hint Resolve tier_createNodes tier_resetPositions : keeps.

Lemma tier_resize : keeps (tierIs L) (resize env).
Proof. unfold resize. tier_keeps. Qed.

Lemma tier_animate now : keeps (tierIs L) (animate now).
Proof.
  unfold animate, requestAnimationFrame, doUpdateNodes, prepareNodeData,
    prepareConnectionData, clear, renderConnections, renderNodes.
  tier_keeps.
Qed.

Lemma tier_animateCanvas now : keeps (tierIs L) (animateCanvas now).
Proof.
  unfold animateCanvas, requestAnimationFrame, doUpdateNodes, drawNode.
  tier_keeps.
Qed.

Lemma tier_updateOptions p : keeps (tierIs L) (updateOptions env p).
Proof. unfold updateOptions, setOptions. tier_keeps. Qed.

Lemma tier_destroy : keeps (tierIs L) destroy.
Proof. unfold destroy. tier_keeps. Qed.

#[local] Hint Resolve tier_resize tier_animate tier_animateCanvas
  tier_updateOptions tier_destroy : keeps.

Lemma tier_runHandler body ev : keeps (tierIs L) (runHandler env body ev).
Proof.
  unfold runHandler, handleMouseMove, handleTouchMove.
  destruct body; try destruct ev; tier_keeps.
Qed.

Lemma tier_dispatch t ty ev w : tierIs L w -> tierIs L (dispatch env t ty ev w).
Proof.
  unfold dispatch. generalize (listeners (host w)). intros ls. revert w.
  induction ls as [|l ls IH]; intros w H; simpl; auto.
  apply IH. destruct (_ && _); auto.
  apply keeps_callback; auto. apply tier_runHandler.
Qed.

Lemma tier_deliver ev w : tierIs L w -> tierIs L (deliver env ev w).
Proof.
  intros H. destruct ev; simpl; try (apply tier_dispatch; exact H).
  - destruct (frameQueue (host w)) as [|l q]; auto.
    apply keeps_callback; [|exact H]. destruct l; simpl; auto with keeps.
  - destruct (observing (host w)); exact H.
  - unfold call. destruct (container (inst w)); auto.
    destruct (reference (host w)); auto.
    apply (keeps_callback (tierIs L) (updateOptions env newOptions) w); auto with keeps.
  - unfold call. destruct (container (inst w)); auto.
    destruct (reference (host w)); auto.
    apply (keeps_callback (tierIs L) destroy w); auto with keeps.
Qed.

Lemma tier_run evs w : tierIs L w -> tierIs L (run env evs w).
Proof.
  revert w. induction evs as [|ev evs IH]; intros w H; simpl; auto.
  apply IH. apply tier_deliver. exact H.
Qed.

End TierIsStable.

(* ------------------------------------------------------------------------- *)
(** ** Stepping through a method *)

Lemma sat_glCall c w (Q : unit -> World -> Prop) E :
  (gl (inst w) = true ->
   Q tt (mkWorld (inst w)
           (with_glLive (glEffect c (glLive (host w)))
              (with_glCalls (glCalls (host w) ++ [c]) (host w))))) ->
  (gl (inst w) = false -> E w) ->
  sat (glCall c) w Q E.
Proof.
  unfold sat, glCall, bind, this, setPage, throw.
  destruct (gl (inst w)); auto.
Qed.

Lemma sat_ctxCall c w (Q : unit -> World -> Prop) E :
  (ctx (inst w) = true ->
   Q tt (mkWorld (inst w) (with_ctxOps (ctxOps (host w) ++ [c]) (host w)))) ->
  (ctx (inst w) = false -> E w) ->
  sat (ctxCall c) w Q E.
Proof.
  unfold sat, ctxCall, bind, this, setPage, throw.
  destruct (ctx (inst w)); auto.
Qed.

Lemma sat_property p w (Q : Program -> World -> Prop) E :
  (forall q, p = Some q -> Q q w) -> (p = None -> E w) ->
  sat (property p) w Q E.
Proof.
  unfold sat, property. destruct p; simpl; auto.
Qed.

Lemma sat_mathRandom env w (Q : R -> World -> Prop) E :
  Q (random env (rng (host w)))
    (mkWorld (inst w) (with_rng (S (rng (host w))) (host w))) ->
  sat (mathRandom env) w Q E.
Proof. auto. Qed.

Lemma sat_newFunction body w (Q : Fn -> World -> Prop) E :
  Q (mkFn (nextFn (host w)) body)
    (mkWorld (inst w) (with_nextFn (S (nextFn (host w))) (host w))) ->
  sat (newFunction body) w Q E.
Proof. auto. Qed.

(** Projections of updated records. *)
Ltac fields :=
  cbn [inst host
       container options width height time nodes mouse isVisible shouldRender
       performanceLevel canvas gl ctx nodeProgram connectionProgram
       nodePositionBuffer nodeSizeBuffer connectionPositionBuffer animate_
       visibilityObserver
       rect canvasAttached observing listeners nextFn frameQueue rng console
       glCalls glLive domCalls ctxOps reference
       with_container with_options with_width with_height with_time with_nodes
       with_mouse with_isVisible with_shouldRender with_performanceLevel
       with_canvas with_gl with_ctx with_nodeProgram with_connectionProgram
       with_buffers with_animate with_visibilityObserver
       with_rect with_canvasAttached with_observing with_listeners with_nextFn
       with_frameQueue with_rng with_console with_glCalls with_glLive
       with_domCalls with_ctxOps with_reference
       nodeCount connectionDistance nodeSize speed interactive pulseEffect
       adaptivePerformance theme dataFlowEffect
       set_nodeCount set_connectionDistance set_speed set_dataFlowEffect].

(** One step of a method, on a goal [sat c w Q E]. *)
Ltac sat_step :=
  match goal with
  | |- sat (bind _ _) _ _ _ => apply sat_bind
  | |- sat (ret _) _ _ _ => apply sat_ret
  | |- sat (throw _) _ _ _ => apply sat_throw
  | |- sat this _ _ _ => apply sat_this
  | |- sat page _ _ _ => apply sat_page
  | |- sat (setThis _) _ _ _ => apply sat_setThis
  | |- sat (setPage _) _ _ _ => apply sat_setPage
  | |- sat (setOptions _) _ _ _ => unfold setOptions at 1
  | |- sat (consoleWarn _) _ _ _ => unfold consoleWarn at 1
  | |- sat (consoleError _) _ _ _ => unfold consoleError at 1
  | |- sat (consoleLog _) _ _ _ => unfold consoleLog at 1
  | |- sat (requestAnimationFrame _) _ _ _ => unfold requestAnimationFrame at 1
  | |- sat (addEventListener _ _ _) _ _ _ => unfold addEventListener at 1
  | |- sat (removeEventListener _ _ _) _ _ _ => unfold removeEventListener at 1
  | |- sat (listen _ _ _) _ _ _ => unfold listen at 1
  | |- sat (unlisten _ _ _) _ _ _ => unfold unlisten at 1
  | |- sat (mathRandom _) _ _ _ => apply sat_mathRandom
  | |- sat (newFunction _) _ _ _ => apply sat_newFunction
  | |- sat (when _ _) _ _ _ => unfold when at 1
  end; cbv beta; fields.

Ltac sat_steps := repeat sat_step.

(* ------------------------------------------------------------------------- *)
(** ** Construction without a container *)

(** C6. When the container argument resolves to no element, the
    constructor returns normally: it logs one warning and does nothing
    else (no canvas, no listener, no frame request, no GL call). *)
Theorem missing_container_is_safe (env : Env) (arg : ContainerArg)
    (opts : PartialOptions) (r : R * R) :
  resolve env arg = None ->
  construct env arg opts r =
    (Ok tt,
     mkWorld blankInst
       (with_reference true
          (with_console [ConsoleWarn "WebGL neural network container not found"]
             (blankHost r)))).
Proof.
  intros H. unfold construct, constructor, bind, setThis, this.
  cbn [inst host container with_container blankWorld fst snd].
  rewrite H. reflexivity.
Qed.

Lemma missing_container_is_safe_witness :
  construct emptyPage (Selector ".ai-webgl-container") noOptions (800, 600) =
    (Ok tt,
     mkWorld blankInst
       (with_reference true
          (with_console [ConsoleWarn "WebGL neural network container not found"]
             (blankHost (800, 600))))).
Proof.
  apply (missing_container_is_safe emptyPage (Selector ".ai-webgl-container")
           noOptions (800, 600)).
  reflexivity.
Defined.

(* ------------------------------------------------------------------------- *)
(** ** Seeding and reseeding the nodes *)

Lemma seedNodes_length env wd ht o count k :
  List.length (seedNodes env wd ht o count k) = count.
Proof.
  revert k. induction count as [|c IH]; intros k; simpl; auto.
Qed.

Lemma reseat_length env w h k ns :
  List.length (reseat env w h k ns) = List.length ns.
Proof.
  revert k. induction ns as [|n rest IH]; intros k; simpl; auto.
Qed.

Lemma pushNode_eq env w :
  pushNode env w =
    (Ok tt,
     mkWorld (with_nodes (nodes (inst w) ++ [seedNode env (width (inst w)) (height (inst w)) (options (inst w))
                                         (rng (host w))]) (inst w))
             (with_rng (7 + rng (host w)) (host w))).
Proof. reflexivity. Qed.

Lemma times_pushNode_eq env count w :
  times count (pushNode env) w =
    (Ok tt,
     mkWorld (with_nodes
                (nodes (inst w)
                 ++ seedNodes env (width (inst w)) (height (inst w)) (options (inst w))
                      count (rng (host w)))
                (inst w))
             (with_rng (7 * count + rng (host w)) (host w))).
Proof.
  revert w. induction count as [|c IH]; intros w.
  - simpl. unfold ret. rewrite app_nil_r. destruct w as [i h]; destruct i; destruct h; reflexivity.
  - cbn [times]. unfold bind at 1. rewrite pushNode_eq, IH. fields.
    rewrite <- app_assoc. cbn [seedNodes app].
    replace (7 * S c + rng (host w))%nat with (7 * c + (7 + rng (host w)))%nat by lia.
    reflexivity.
Qed.

Lemma createNodes_eq env w :
  createNodes env w =
    (Ok tt,
     mkWorld (with_nodes
                (seedNodes env (width (inst w)) (height (inst w)) (options (inst w))
                   (Z.to_nat (adjustNodeCountForPerformance (inst w))) (rng (host w)))
                (inst w))
             (with_rng (7 * Z.to_nat (adjustNodeCountForPerformance (inst w))
                        + rng (host w)) (host w))).
Proof.
  unfold createNodes, bind at 1, setThis at 1. unfold bind at 1, this at 1.
  rewrite times_pushNode_eq. reflexivity.
Qed.

Lemma resetPositions_eq env done todo w :
  resetPositions env done todo w =
    (Ok tt,
     mkWorld (with_nodes
                (done ++ reseat env (width (inst w)) (height (inst w))
                           (rng (host w)) todo)
                (inst w))
             (with_rng (2 * List.length todo + rng (host w)) (host w))).
Proof.
  revert done w. induction todo as [|n rest IH]; intros done w.
  - simpl. rewrite app_nil_r. destruct w as [i h]; destruct h; reflexivity.
  - cbn [resetPositions]. unfold bind at 1, mathRandom at 1.
    unfold bind at 1, page at 1, bind at 1, setPage at 1, ret at 1.
    unfold bind at 1, mathRandom at 1.
    unfold bind at 1, page at 1, bind at 1, setPage at 1, ret at 1.
    unfold bind at 1, this at 1.
    rewrite IH. fields. rewrite <- app_assoc. cbn [reseat app List.length].
    replace (2 * S (List.length rest) + rng (host w))%nat
      with (2 * List.length rest + S (S (rng (host w))))%nat by lia.
    reflexivity.
Qed.

(** [resize] on an instance that has its GL context. *)
Lemma resize_eq env w :
  gl (inst w) = true ->
  resize env w =
    (Ok tt,
     mkWorld (with_nodes
                (reseat env (fst (rect (host w))) (snd (rect (host w)))
                        (rng (host w)) (nodes (inst w)))
                (with_height (snd (rect (host w)))
                   (with_width (fst (rect (host w))) (inst w))))
             (with_rng (2 * List.length (nodes (inst w)) + rng (host w))
                (with_glLive (glLive (host w))
                   (with_glCalls
                      (glCalls (host w)
                       ++ [Viewport (fst (rect (host w))) (snd (rect (host w)))])
                      (host w))))).
Proof.
  intros G. unfold resize, bind at 1, page at 1.
  unfold bind at 1, setThis at 1. unfold bind at 1, setThis at 1.
  unfold bind at 1, this at 1. unfold bind at 1, glCall. 
  unfold bind at 1, this at 1. fields. rewrite G. unfold setPage at 1.
  rewrite resetPositions_eq. reflexivity.
Qed.

(** [resize] on an instance whose [gl] is null: the new size is stored,
    then the call of [viewport] throws and the nodes stay where they were. *)
Lemma resize_null env w :
  gl (inst w) = false ->
  resize env w =
    (Throw (TypeError "this.gl is null"),
     mkWorld (with_height (snd (rect (host w)))
                (with_width (fst (rect (host w))) (inst w)))
             (host w)).
Proof.
  intros G. unfold resize, bind at 1, page at 1.
  unfold bind at 1, setThis at 1. unfold bind at 1, setThis at 1.
  unfold bind at 1, this at 1. unfold bind at 1, glCall.
  unfold bind at 1, this at 1. fields. rewrite G. reflexivity.
Qed.

Lemma Zfloor_0 : Zfloor 0 = 0%Z.
Proof. apply (ZfloorZ 0). Qed.

(** With no area, no node: this is the state in which the constructor
    and [fallbackToCanvas] call [createNodes]. *)
Lemma adjust_zero_area (i : Inst) :
  width i * height i = 0 -> adjustNodeCountForPerformance i = 0%Z.
Proof.
  intros H. unfold adjustNodeCountForPerformance. rewrite H.
  replace (0 / (1920 * 1080)) with 0 by (unfold Rdiv; ring).
  rewrite Rmin_right by lra. rewrite Rmult_0_r, Zfloor_0.
  destruct (performanceLevel i); reflexivity.
Qed.

(* ------------------------------------------------------------------------- *)
(** ** The effective node count *)

Lemma adjust_formula (i : Inst) :
  adjustNodeCountForPerformance i =
    tierCap (performanceLevel i)
      (Zfloor (IZR (nodeCount (options i)) * areaRatio (width i) (height i))).
Proof.
  unfold adjustNodeCountForPerformance, tierCap, areaRatio.
  destruct (performanceLevel i); reflexivity.
Qed.

Lemma createNodes_count env w :
  List.length (nodes (inst (snd (createNodes env w)))) =
    Z.to_nat (adjustNodeCountForPerformance (inst w)).
Proof.
  rewrite createNodes_eq. cbn [snd]. fields. apply seedNodes_length.
Qed.

Lemma areaRatio_mono (w1 h1 w2 h2 : R) :
  w1 * h1 <= w2 * h2 -> areaRatio w1 h1 <= areaRatio w2 h2.
Proof.
  intros H. unfold areaRatio.
  assert (D : w1 * h1 / (1920 * 1080) <= w2 * h2 / (1920 * 1080)).
  { unfold Rdiv. apply Rmult_le_compat_r; [|exact H].
    left. apply Rinv_0_lt_compat. lra. }
  apply Rle_min_compat_l. exact D.
Qed.

Lemma tierCap_mono (l : PerformanceLevel) (a b : Z) :
  (a <= b)%Z -> (tierCap l a <= tierCap l b)%Z.
Proof. destruct l; simpl; lia. Qed.

Lemma adjust_mono (i1 i2 : Inst) :
  options i1 = options i2 -> performanceLevel i1 = performanceLevel i2 ->
  (0 <= nodeCount (options i1))%Z ->
  width i1 * height i1 <= width i2 * height i2 ->
  (adjustNodeCountForPerformance i1 <= adjustNodeCountForPerformance i2)%Z.
Proof.
  intros Ho Hl Hn Ha. rewrite !adjust_formula, <- Ho, <- Hl.
  apply tierCap_mono, Zfloor_le.
  apply Rmult_le_compat_l; [apply IZR_le; exact Hn | apply areaRatio_mono; exact Ha].
Qed.

Lemma floor_150_03 : Zfloor (IZR 150 * 0.3) = 45%Z.
Proof. apply Zfloor_eq. lra. Qed.

Lemma adjust_low (i : Inst) :
  performanceLevel i = low -> (adjustNodeCountForPerformance i <= 50)%Z.
Proof.
  intros H. rewrite adjust_formula, H. simpl. lia.
Qed.

Lemma checkPerformance_low env w :
  isLowEndDevice env = true ->
  sat (checkPerformance env) w
      (fun _ => lowEndSettings (options (inst w)))
      (lowEndSettings (options (inst w))).
Proof.
  intros H. unfold checkPerformance. rewrite H.
  sat_steps. unfold runWebGLBenchmark. sat_steps.
  assert (P : forall h, lowEndSettings (options (inst w))
    (mkWorld
       (with_options
          (set_dataFlowEffect
             (set_speed
                (set_connectionDistance
                   (set_nodeCount (options (inst w))
                      (Zfloor (IZR (nodeCount (options (inst w))) * 0.3)))
                   (IZR (Zfloor (connectionDistance (options (inst w)) * 0.7))))
                (speed (options (inst w)) * 0.7))
             false)
          (with_performanceLevel low (inst w))) h)).
  { intros h. unfold lowEndSettings. fields. repeat split. }
  repeat first
    [ sat_step
    | apply sat_glCall; [intros _ | intros _; apply P]
    | apply sat_property; [intros ? _ | intros _; apply P] ];
    try apply P.
  destruct (Rltb 10 (benchmarkTime env)); sat_steps; apply P.
Qed.

(** The number of nodes [createNodes] seeds is the configured count
    scaled by the viewport-area ratio against 1920 x 1080 (at most 1),
    floored, and capped by the tier (50 for low, 100 for medium); it does
    not grow when the area shrinks; and on a device with at most four
    cores and a mobile user agent, starting from the default options, it
    is strictly below the default count of 150 whatever the viewport. *)
Theorem effective_node_count (env : Env) :
  (forall w,
      List.length (nodes (inst (snd (createNodes env w)))) =
        Z.to_nat (tierCap (performanceLevel (inst w))
                    (Zfloor (IZR (nodeCount (options (inst w)))
                             * areaRatio (width (inst w)) (height (inst w))))))
  /\ (forall i1 i2,
         options i1 = options i2 -> performanceLevel i1 = performanceLevel i2 ->
         (0 <= nodeCount (options i1))%Z ->
         width i1 * height i1 <= width i2 * height i2 ->
         (adjustNodeCountForPerformance i1 <= adjustNodeCountForPerformance i2)%Z)
  /\ (forall w c wd ht,
         hardwareConcurrency env = Some c -> (1 <= c <= 4)%Z ->
         testAnyCI lowEndAgents (userAgent env) = true ->
         options (inst w) = defaultOptions ->
         let w1 := snd (checkPerformance env w) in
         let w2 := snd (createNodes env
                          (mkWorld (with_height ht (with_width wd (inst w1))) (host w1))) in
         performanceLevel (inst w1) = low /\
         nodeCount (options (inst w1)) = 45%Z /\
         (List.length (nodes (inst w2)) < 150)%nat).
Proof.
  split; [|split].
  - intros w. rewrite createNodes_count, adjust_formula. reflexivity.
  - apply adjust_mono.
  - intros w c wd ht Hc Hr Hua Ho w1 w2.
    assert (Hlow : isLowEndDevice env = true).
    { unfold isLowEndDevice. rewrite Hua. apply orb_true_iff. left.
      apply orb_true_iff. right. reflexivity. }
    pose proof (checkPerformance_low env w Hlow) as S.
    unfold sat in S. fold w1 in S.
    assert (L : lowEndSettings (options (inst w)) w1).
    { subst w1. destruct (checkPerformance env w) as [[a|e] w']; exact S. }
    destruct L as (L1 & L2 & _).
    rewrite Ho in L2. cbn [nodeCount defaultOptions] in L2.
    rewrite floor_150_03 in L2.
    repeat split; auto.
    subst w2. rewrite createNodes_count. fields.
    assert (B : (adjustNodeCountForPerformance
                   (with_height ht (with_width wd (inst w1))) <= 50)%Z)
      by (apply adjust_low; exact L1).
    lia.
Qed.

(* ------------------------------------------------------------------------- *)
(** ** Nodes stay inside the canvas *)

Lemma clampTo_range (limit p : R) : 0 <= limit -> 0 <= clampTo limit p <= limit.
Proof.
  intros H. unfold clampTo. split.
  - apply Rmax_l.
  - apply Rmax_lub; [exact H | apply Rmin_l].
Qed.

Lemma updateNode_inBounds o w h t m n :
  0 <= w -> 0 <= h -> inBounds w h (updateNode o w h t m n).
Proof.
  intros Hw Hh. destruct (updateNode_Tick o w h t m n) as [X1 X2 Y1 Y2 _ _ _ _ _].
  unfold inBounds. split.
  - destruct (Rlt_dec (n_x n + n_vx n) 0) as [L|L].
    + rewrite X1 by (left; exact L). apply clampTo_range; exact Hw.
    + destruct (Rlt_dec w (n_x n + n_vx n)) as [U|U].
      * rewrite X1 by (right; exact U). apply clampTo_range; exact Hw.
      * rewrite X2 by (unfold exits; tauto). lra.
  - destruct (Rlt_dec (n_y n + n_vy n) 0) as [L|L].
    + rewrite Y1 by (left; exact L). apply clampTo_range; exact Hh.
    + destruct (Rlt_dec h (n_y n + n_vy n)) as [U|U].
      * rewrite Y1 by (right; exact U). apply clampTo_range; exact Hh.
      * rewrite Y2 by (unfold exits; tauto). lra.
Qed.

Lemma updateNodes_inBounds o w h t m ns :
  0 <= w -> 0 <= h -> Forall (inBounds w h) (updateNodes o w h t m ns).
Proof.
  intros Hw Hh. unfold updateNodes. apply Forall_forall. intros n' Hin.
  apply in_map_iff in Hin. destruct Hin as (n & <- & _).
  apply updateNode_inBounds; assumption.
Qed.

Section Bounded.

Variable env : Env.
Hypothesis random_range : forall k, 0 <= random env k < 1.

Lemma scaled_in_range (k : nat) (limit : R) :
  0 <= limit -> 0 <= random env k * limit <= limit.
Proof.
  intros H. destruct (random_range k) as [L U]. split.
  - apply Rmult_le_pos; assumption.
  - rewrite <- (Rmult_1_l limit) at 2. apply Rmult_le_compat_r; lra.
Qed.

Lemma seedNodes_inBounds w h o count k :
  0 <= w -> 0 <= h -> Forall (inBounds w h) (seedNodes env w h o count k).
Proof.
  intros Hw Hh. revert k. induction count as [|c IH]; intros k; simpl; constructor.
  - unfold inBounds, seedNode. simpl. split; apply scaled_in_range; assumption.
  - apply IH.
Qed.

Lemma reseat_inBounds w h k ns :
  0 <= w -> 0 <= h -> Forall (inBounds w h) (reseat env w h k ns).
Proof.
  intros Hw Hh. revert k. induction ns as [|n rest IH]; intros k; simpl; constructor.
  - unfold inBounds. simpl. split; apply scaled_in_range; assumption.
  - apply IH.
Qed.

(** Closes [keeps P (setThis f)] and [keeps P (setPage f)] when [f] leaves
    alone what [P] reads. *)
Ltac untouched P :=
  match goal with
  | |- keeps _ (setThis _) => apply keeps_setThis
  | |- keeps _ (setPage _) => apply keeps_setPage
  end;
  let w := fresh "w" in let H := fresh "H" in
  intros w H; unfold P in *; fields; exact H.

Ltac bounded_keeps := repeat first [ keeps_step | untouched boundedGL ].

Lemma bounded_mathRandom : keeps boundedGL (mathRandom env).
Proof. unfold mathRandom. bounded_keeps. Qed.

Lemma bounded_glCall c : keeps boundedGL (glCall c).
Proof. unfold glCall. bounded_keeps. Qed.

Lemma bounded_ctxCall c : keeps boundedGL (ctxCall c).
Proof. unfold ctxCall. bounded_keeps. Qed.

Lemma bounded_property p : keeps boundedGL (property p).
Proof. unfold property. bounded_keeps. Qed.

Lemma bounded_newFunction b : keeps boundedGL (newFunction b).
Proof. unfold newFunction. bounded_keeps. Qed.

#[local] Hint Resolve bounded_mathRandom bounded_glCall bounded_ctxCall
  bounded_property bounded_newFunction : keeps.

Lemma bounded_unlisten t ty b : keeps boundedGL (unlisten t ty b).
Proof. unfold unlisten, removeEventListener. bounded_keeps. Qed.

Lemma bounded_listen t ty b : keeps boundedGL (listen t ty b).
Proof.
  unfold listen, addEventListener. bounded_keeps.
  apply keeps_setPage. intros w H. unfold boundedGL in *.
  destruct (existsb _ _); fields; exact H.
Qed.

Lemma bounded_createNodes : keeps boundedGL (createNodes env).
Proof.
  intros w (G & Hw & Hh & R1 & R2 & _). unfold sat. rewrite createNodes_eq.
  unfold boundedGL. fields. repeat split; auto.
  apply seedNodes_inBounds; assumption.
Qed.

Lemma bounded_resize : keeps boundedGL (resize env).
Proof.
  intros w (G & Hw & Hh & R1 & R2 & _). unfold sat. rewrite resize_eq by exact G.
  unfold boundedGL. fields. repeat split; auto.
  apply reseat_inBounds; assumption.
Qed.

Lemma bounded_doUpdateNodes : keeps boundedGL doUpdateNodes.
Proof.
  unfold doUpdateNodes. apply keeps_setThis.
  intros w (G & Hw & Hh & R1 & R2 & _). unfold boundedGL. fields.
  repeat split; auto. apply updateNodes_inBounds; assumption.
Qed.

#[local] Hint Resolve bounded_unlisten bounded_listen bounded_createNodes
  bounded_resize bounded_doUpdateNodes : keeps.

Lemma bounded_setOptions f : keeps boundedGL (setOptions f).
Proof. unfold setOptions. bounded_keeps. Qed.

#[local] Hint Resolve bounded_setOptions : keeps.

Lemma bounded_animate now : keeps boundedGL (animate now).
Proof.
  unfold animate, requestAnimationFrame, prepareNodeData,
    prepareConnectionData, clear, renderConnections, renderNodes.
  bounded_keeps.
Qed.

Lemma bounded_animateCanvas now : keeps boundedGL (animateCanvas now).
Proof.
  unfold animateCanvas, requestAnimationFrame, drawNode. bounded_keeps.
Qed.

Lemma bounded_updateOptions p : keeps boundedGL (updateOptions env p).
Proof. unfold updateOptions. bounded_keeps. Qed.

Lemma bounded_destroy : keeps boundedGL destroy.
Proof. unfold destroy. bounded_keeps. Qed.

Lemma bounded_runHandler body ev : keeps boundedGL (runHandler env body ev).
Proof.
  unfold runHandler, handleMouseMove, handleTouchMove.
  destruct body; try destruct ev; bounded_keeps.
Qed.

Lemma bounded_runLoop l now : keeps boundedGL (runLoop l now).
Proof.
  destruct l; simpl; [apply bounded_animate | apply bounded_animateCanvas].
Qed.

Lemma bounded_setupShaders : keeps boundedGL (setupShaders env).
Proof. unfold setupShaders, createShaderProgram, consoleError. bounded_keeps. Qed.

Lemma bounded_checkPerformance : keeps boundedGL (checkPerformance env).
Proof. unfold checkPerformance, runWebGLBenchmark. bounded_keeps. Qed.

Lemma bounded_createBuffers : keeps boundedGL createBuffers.
Proof. unfold createBuffers. bounded_keeps. Qed.

Lemma bounded_setupEventListeners : keeps boundedGL (setupEventListeners env).
Proof. unfold setupEventListeners. bounded_keeps. Qed.

End Bounded.

Section Inert.

Variable env : Env.

Ltac untouched P :=
  match goal with
  | |- keeps _ (setThis _) => apply keeps_setThis
  | |- keeps _ (setPage _) => apply keeps_setPage
  end;
  let w := fresh "w" in let H := fresh "H" in
  intros w H; unfold P in *; fields; exact H.

Ltac inert_keeps := repeat first [ keeps_step | untouched inert ].
Ltac seed_keeps := repeat first [ keeps_step | untouched fallbackSeed ].

Lemma inert_glCall c : keeps inert (glCall c).
Proof. unfold glCall. inert_keeps. Qed.

Lemma inert_ctxCall c : keeps inert (ctxCall c).
Proof. unfold ctxCall. inert_keeps. Qed.

Lemma inert_property p : keeps inert (property p).
Proof. unfold property. inert_keeps. Qed.

Lemma inert_doUpdateNodes : keeps inert doUpdateNodes.
Proof.
  unfold doUpdateNodes. apply keeps_setThis.
  intros w (G & N & H). unfold inert. fields. rewrite N. simpl. auto.
Qed.

Lemma inert_resize : keeps inert (resize env).
Proof.
  intros w (G & N & H). unfold sat. rewrite resize_null by exact G.
  unfold inert. fields. auto.
Qed.

#[local] Hint Resolve inert_glCall inert_ctxCall inert_property
  inert_doUpdateNodes inert_resize : keeps.

Lemma inert_runLoop l now : keeps inert (runLoop l now).
Proof.
  destruct l; simpl.
  - unfold animate, requestAnimationFrame, prepareNodeData,
      prepareConnectionData, clear, renderConnections, renderNodes.
    inert_keeps.
  - unfold animateCanvas, requestAnimationFrame, drawNode. inert_keeps.
Qed.

Lemma inert_runHandler body ev : keeps inert (runHandler env body ev).
Proof.
  unfold runHandler, handleMouseMove, handleTouchMove.
  destruct body; try destruct ev; inert_keeps.
Qed.

Lemma seed_createNodes : keeps fallbackSeed (createNodes env).
Proof.
  intros w (G & N & Hw & Hh & Rf). unfold sat. rewrite createNodes_eq.
  unfold fallbackSeed. fields.
  rewrite adjust_zero_area by (rewrite Hw; ring). simpl. auto.
Qed.

Lemma seed_newFunction b : keeps fallbackSeed (newFunction b).
Proof. unfold newFunction. seed_keeps. Qed.

#[local] Hint Resolve seed_createNodes seed_newFunction : keeps.

Lemma seed_listen t ty b : keeps fallbackSeed (listen t ty b).
Proof.
  unfold listen, addEventListener. seed_keeps.
  apply keeps_setPage. intros w H. unfold fallbackSeed in *.
  destruct (existsb _ _); fields; exact H.
Qed.

#[local] Hint Resolve seed_listen : keeps.

Lemma seed_setupEventListeners : keeps fallbackSeed (setupEventListeners env).
Proof. unfold setupEventListeners. seed_keeps. Qed.

Lemma seed_fallbackToCanvas : keeps fallbackSeed (fallbackToCanvas env).
Proof.
  unfold fallbackToCanvas, setOptions, consoleLog.
  apply keeps_bind; [apply keeps_this | intros i].
  apply keeps_bind.
  { apply keeps_when, keeps_setThis. intros w (G & N & Hw & Hh & Rf).
    unfold fallbackSeed. fields. auto. }
  intros _. seed_keeps.
Qed.

(** Without a GL context the benchmark of [checkPerformance] throws at
    its first GL call. *)
Lemma checkPerformance_throws w :
  fallbackSeed w ->
  sat (checkPerformance env) w (fun _ _ => False) fallbackSeed.
Proof.
  intros (G & N & Hw & Hh & Rf). unfold checkPerformance.
  apply sat_bind.
  assert (B : forall w', fallbackSeed w' ->
    sat (runWebGLBenchmark env) w' (fun _ _ => False) fallbackSeed).
  { intros w' S. unfold runWebGLBenchmark. sat_steps.
    apply sat_glCall; fields; intros G'.
    - destruct S as (G0 & _). congruence.
    - destruct S as (G0 & N0 & W0 & H0 & R0). unfold fallbackSeed. fields. auto. }
  destruct (isLowEndDevice env); [|destruct (isMidRangeDevice env)];
    sat_steps; apply B; unfold fallbackSeed; fields; auto.
Qed.

End Inert.

Section Construction.

Variable env : Env.

(** A sub-call that keeps [P], inside a stepped method. *)
Ltac call_keeping P lemma :=
  apply sat_bind; eapply (keeps_sat P); [apply lemma | | intros ? ? ? | intros ? ?].

(** Without a GL context the constructor never returns an instance: it
    throws in the benchmark or in [resize], with no node seeded. *)
Lemma constructor_without_gl arg opts r :
  glAvailable env = false ->
  sat (constructor env arg opts) (blankWorld r)
      (fun _ w => gl (inst w) = false /\ nodes (inst w) = [] /\
                  container (inst w) = None)
      (fun w => gl (inst w) = false /\ nodes (inst w) = []).
Proof.
  intros NoGL. unfold constructor. sat_steps.
  destruct (resolve env arg) as [e|] eqn:Res; sat_steps.
  2:{ unfold blankWorld, blankInst. fields. auto. }
  unfold initWebGL at 1. sat_steps. rewrite NoGL. cbn [negb]. sat_steps.
  eapply (keeps_sat fallbackSeed);
    [apply seed_fallbackToCanvas | | intros ? w1 S1 | intros w1 S1].
  { unfold fallbackSeed, blankWorld, blankHost. fields. auto. }
  2:{ destruct S1 as (G & N & _). auto. }
  sat_steps.
  assert (Rest : forall w2, fallbackSeed w2 ->
    sat (bind (createNodes env) (fun _ =>
           bind (setupEventListeners env) (fun _ =>
             bind (resize env) (fun _ =>
               bind this (fun i => runLoop (animate_ i) (startTime env))))))
        w2
        (fun _ w => gl (inst w) = false /\ nodes (inst w) = [] /\
                    container (inst w) = None)
        (fun w => gl (inst w) = false /\ nodes (inst w) = [])).
  { intros w2 S2.
    call_keeping fallbackSeed seed_createNodes; [exact S2 | | unfold fallbackSeed in *; tauto].
    call_keeping fallbackSeed seed_setupEventListeners;
      [assumption | | unfold fallbackSeed in *; tauto].
    apply sat_bind. unfold sat at 1.
    match goal with H : fallbackSeed ?w |- context [resize env ?w] =>
      destruct H as (G & N & _); rewrite (resize_null env w G) end.
    fields. auto. }
  destruct (adaptivePerformance (options (inst w1))).
  - eapply sat_mono; [apply checkPerformance_throws; exact S1 | | ].
    + intros _ w2 [].
    + intros w2 (G & N & _). auto.
  - apply sat_ret. apply Rest. exact S1.
Qed.

Hypothesis random_range : forall k, 0 <= random env k < 1.

(** With a GL context, whatever the constructor does keeps the nodes in
    the canvas; with no container it stops before doing anything. *)
Lemma constructor_with_gl arg opts r :
  0 <= fst r -> 0 <= snd r -> glAvailable env = true ->
  sat (constructor env arg opts) (blankWorld r)
      (fun _ w => boundedGL w \/
                  (gl (inst w) = false /\ nodes (inst w) = [] /\
                   container (inst w) = None))
      boundedGL.
Proof.
  intros R1 R2 GL. unfold constructor. sat_steps.
  destruct (resolve env arg) as [e|] eqn:Res; sat_steps.
  2:{ right. unfold blankWorld, blankInst. fields. auto. }
  unfold initWebGL at 1. sat_steps. rewrite GL. cbn [negb].
  match goal with |- sat _ ?w _ _ => assert (B : boundedGL w) end.
  { unfold boundedGL, blankWorld, blankHost. fields.
    repeat split; auto; lra. }
  eapply (keeps_sat boundedGL); [ | exact B | intros ? w1 B1 | intros w1 B1; exact B1].
  { apply keeps_bind; [apply bounded_setupShaders | intros _].
    apply (bounded_createBuffers env). }
  eapply (keeps_sat boundedGL); [ | exact B1 | intros ? w2 B2; left; exact B2
                                | intros w2 B2; exact B2].
  apply keeps_bind; [apply keeps_this | intros i].
  apply keeps_bind;
    [apply keeps_when, bounded_checkPerformance; exact random_range | intros _].
  apply keeps_bind; [apply bounded_createNodes; exact random_range | intros _].
  apply keeps_bind; [apply bounded_setupEventListeners | intros _].
  apply keeps_bind; [apply bounded_resize; exact random_range | intros _].
  apply keeps_bind; [apply keeps_this | intros j].
  apply (bounded_runLoop env).
Qed.

(** Every constructed world is in one of the two states. *)
Lemma construct_state arg opts r :
  0 <= fst r -> 0 <= snd r ->
  let w := snd (construct env arg opts r) in boundedGL w \/ inert w.
Proof.
  intros R1 R2. unfold construct.
  destruct (glAvailable env) eqn:GL.
  - pose proof (constructor_with_gl arg opts r R1 R2 GL) as S. unfold sat in S.
    destruct (constructor env arg opts (blankWorld r)) as [[[]|e] w]; cbn [snd].
    + destruct S as [B | (G & N & C)].
      * left. unfold boundedGL in *. fields. exact B.
      * right. unfold inert. fields. auto.
    + left. unfold boundedGL in *. fields. exact S.
  - pose proof (constructor_without_gl arg opts r GL) as S. unfold sat in S.
    destruct (constructor env arg opts (blankWorld r)) as [[[]|e] w]; cbn [snd];
      right; unfold inert; fields; cbn [isOk]; tauto.
Qed.

Lemma construct_without_gl arg opts r :
  glAvailable env = false -> inert (snd (construct env arg opts r)).
Proof.
  intros GL. unfold construct.
  pose proof (constructor_without_gl arg opts r GL) as S. unfold sat in S.
  destruct (constructor env arg opts (blankWorld r)) as [[[]|e] w]; cbn [snd];
    unfold inert; fields; cbn [isOk]; tauto.
Qed.

(** *** Events *)

Lemma dispatch_keeps (P : World -> Prop) t ty ev w :
  (forall body, keeps P (runHandler env body ev)) ->
  P w -> P (dispatch env t ty ev w).
Proof.
  intros K. unfold dispatch. generalize (listeners (host w)). intros ls. revert w.
  induction ls as [|l ls IH]; intros w H; simpl; auto.
  apply IH. destruct (_ && _); auto.
  apply keeps_callback; auto.
Qed.

Lemma boundedGL_with_rect w rw rh :
  0 <= rw -> 0 <= rh -> boundedGL w ->
  boundedGL (mkWorld (inst w) (with_rect (rw, rh) (host w))).
Proof.
  intros H1 H2 (G & Hw & Hh & _ & _ & F). unfold boundedGL. fields.
  cbn [fst snd]. repeat split; assumption.
Qed.

Lemma deliver_boundedGL ev w :
  wfEvent ev -> boundedGL w -> boundedGL (deliver env ev w).
Proof.
  intros WF H.
  assert (D : forall t ty w', boundedGL w' -> boundedGL (dispatch env t ty ev w')).
  { intros t ty w' H'. apply dispatch_keeps; auto.
    intros body. apply bounded_runHandler. exact random_range. }
  destruct ev; simpl; try (apply D; exact H).
  - destruct (frameQueue (host w)) as [|l q]; auto.
    apply keeps_callback; [apply (bounded_runLoop env) | exact H].
  - apply D. destruct WF. apply boundedGL_with_rect; assumption.
  - destruct (observing (host w)); exact H.
  - unfold call. destruct (container (inst w)); auto.
    destruct (reference (host w)); auto.
    apply (keeps_callback boundedGL (updateOptions env newOptions) w); auto.
    apply bounded_updateOptions. exact random_range.
  - unfold call. destruct (container (inst w)); auto.
    destruct (reference (host w)); auto.
    apply (keeps_callback boundedGL destroy w); auto.
    apply (bounded_destroy env).
Qed.

End Construction.

Lemma deliver_inert env ev w : inert w -> inert (deliver env ev w).
Proof.
  intros H.
  assert (D : forall t ty w', inert w' -> inert (dispatch env t ty ev w')).
  { intros t ty w' H'. apply dispatch_keeps; auto.
    intros body. apply inert_runHandler. }
  destruct ev; simpl; try (apply D; exact H).
  - destruct (frameQueue (host w)) as [|l q]; auto.
    apply keeps_callback; [apply inert_runLoop | exact H].
  - destruct (observing (host w)); exact H.
  - unfold call. destruct H as (G & N & [Rf | C]).
    + rewrite Rf. destruct (container (inst w)); unfold inert; auto.
    + rewrite C. unfold inert; auto.
  - unfold call. destruct H as (G & N & [Rf | C]).
    + rewrite Rf. destruct (container (inst w)); unfold inert; auto.
    + rewrite C. unfold inert; auto.
Qed.

Lemma run_inert env evs w : inert w -> inert (run env evs w).
Proof.
  revert w. induction evs as [|ev evs IH]; intros w H; simpl; auto.
  apply IH, deliver_inert, H.
Qed.

Lemma run_state env evs w :
  (forall k, 0 <= random env k < 1) -> Forall wfEvent evs ->
  boundedGL w \/ inert w ->
  boundedGL (run env evs w) \/ inert (run env evs w).
Proof.
  intros Rr. revert w. induction evs as [|ev evs IH]; intros w WF H; simpl; auto.
  inversion WF; subst. apply IH; auto.
  destruct H as [B | I].
  - left. apply deliver_boundedGL; auto.
  - right. apply deliver_inert; auto.
Qed.

(** C1. In every state an instance goes through (construction, then any
    frames, resizes, pointer events, option updates and disposal), every
    node satisfies [0 <= x <= width] and [0 <= y <= height]; a resize
    stores the new size and reseeds every position inside it before it
    returns; and a tick that moves a node out on an axis clamps the
    position back into range and inverts that axis's velocity (the
    pointer, when active, may then adjust the velocity further). *)
Theorem nodes_stay_in_bounds (env : Env) (arg : ContainerArg)
    (opts : PartialOptions) (r : R * R) (evs : list Event) :
  (forall k, 0 <= random env k < 1) ->
  0 <= fst r -> 0 <= snd r ->
  Forall wfEvent evs ->
  (let w := session env arg opts r evs in
   Forall (inBounds (width (inst w)) (height (inst w))) (nodes (inst w)))
  /\ (forall w,
         gl (inst w) = true ->
         0 <= fst (rect (host w)) -> 0 <= snd (rect (host w)) ->
         let w' := snd (resize env w) in
         width (inst w') = fst (rect (host w)) /\
         height (inst w') = snd (rect (host w)) /\
         Forall (inBounds (fst (rect (host w))) (snd (rect (host w))))
                (nodes (inst w')))
  /\ (forall o wd ht t m n,
         let n' := updateNode o wd ht t m n in
         (exits wd (n_x n + n_vx n) ->
            n_x n' = Rmax 0 (Rmin wd (n_x n + n_vx n)) /\
            (m_active m = false -> n_vx n' = - n_vx n)) /\
         (exits ht (n_y n + n_vy n) ->
            n_y n' = Rmax 0 (Rmin ht (n_y n + n_vy n)) /\
            (m_active m = false -> n_vy n' = - n_vy n))).
Proof.
  intros Rr R1 R2 WF. split; [|split].
  - cbv zeta. unfold session.
    destruct (run_state env evs (snd (construct env arg opts r)) Rr WF
                (construct_state env Rr arg opts r R1 R2)) as [B | I].
    + destruct B as (_ & _ & _ & _ & _ & F). exact F.
    + destruct I as (_ & N & _). rewrite N. constructor.
  - intros w G H1 H2 w'. subst w'. rewrite resize_eq by exact G. cbn [snd]. fields.
    repeat split. apply reseat_inBounds; assumption.
  - intros o wd ht t m n n'.
    destruct (updateNode_Tick o wd ht t m n) as [X1 _ Y1 _ _ _ _ _ V].
    fold n' in X1, Y1, V. cbv zeta in V. destruct V as [_ V].
    split; intros Ex.
    + split; [apply X1; exact Ex|]. intros Hm.
      destruct V as [V _]; [intros [Ha _]; congruence|]. rewrite V.
      unfold reflected. destruct Ex as [Ex | Ex]; apply Rltb_true in Ex; rewrite Ex.
      * reflexivity.
      * rewrite orb_true_r. reflexivity.
    + split; [apply Y1; exact Ex|]. intros Hm.
      destruct V as [_ V]; [intros [Ha _]; congruence|]. rewrite V.
      unfold reflected. destruct Ex as [Ex | Ex]; apply Rltb_true in Ex; rewrite Ex.
      * reflexivity.
      * rewrite orb_true_r. reflexivity.
Qed.

Lemma area_bound (n : Z) (ratio : R) :
  (n <= 50)%Z -> 0 <= ratio <= 1 -> (Zfloor (IZR n * ratio) <= 50)%Z.
Proof.
  intros Hn [H0 H1].
  assert (B : IZR n * ratio <= 50).
  { destruct (Z_lt_le_dec n 0) as [Neg | Pos].
    - apply IZR_lt in Neg. nra.
    - apply IZR_le in Pos. apply IZR_le in Hn. nra. }
  pose proof (Zfloor_bound (IZR n * ratio)) as [L _].
  apply le_IZR. lra.
Qed.

Lemma areaRatio_range (w h : R) : 0 <= w * h -> 0 <= areaRatio w h <= 1.
Proof.
  intros H. unfold areaRatio. split.
  - apply Rmin_glb; [lra|]. unfold Rdiv. apply Rmult_le_pos; [exact H|].
    left. apply Rinv_0_lt_compat. lra.
  - apply Rmin_l.
Qed.

Lemma tierCap_le (l : PerformanceLevel) (z : Z) : (tierCap l z <= z)%Z.
Proof. destruct l; simpl; lia. Qed.

(* ------------------------------------------------------------------------- *)
(** ** The tier the constructor chooses *)

Lemma runWebGLBenchmark_tier env w :
  sat (runWebGLBenchmark env) w
      (fun _ w' =>
         performanceLevel (inst w') =
           if Rltb 10 (benchmarkTime env)
           then downgrade (performanceLevel (inst w))
           else performanceLevel (inst w))
      (fun _ => True).
Proof.
  unfold runWebGLBenchmark.
  repeat first
    [ sat_step
    | apply sat_glCall; [intros _ | trivial]
    | apply sat_property; [intros ? _ | trivial] ].
  destruct (Rltb 10 (benchmarkTime env)); [|apply sat_ret; reflexivity].
  destruct (performanceLevel (inst w)) eqn:E; sat_steps;
    try rewrite E; reflexivity.
Qed.

Lemma checkPerformance_tier env w :
  performanceLevel (inst w) = high ->
  sat (checkPerformance env) w
      (fun _ w' => performanceLevel (inst w') = benchmarkedTier env)
      (fun _ => True).
Proof.
  intros H. unfold checkPerformance, benchmarkedTier, heuristicTier.
  apply sat_bind.
  destruct (isLowEndDevice env); [|destruct (isMidRangeDevice env)]; sat_steps;
    (eapply sat_mono; [apply runWebGLBenchmark_tier | | trivial]);
    intros ? w' E; rewrite E; fields; try rewrite H; reflexivity.
Qed.

Section TierChosen.

Variable env : Env.

Ltac untuned_keeps :=
  repeat first
    [ keeps_step
    | match goal with
      | |- keeps _ (setThis _) => apply keeps_setThis
      | |- keeps _ (setPage _) => apply keeps_setPage
      end; intros w H; exact H ].

Lemma untuned_createBuffers A : keeps (untuned A) createBuffers.
Proof. unfold createBuffers, glCall. untuned_keeps. Qed.

Lemma untuned_setupShaders A : keeps (untuned A) (setupShaders env).
Proof.
  unfold setupShaders, createShaderProgram, consoleError, property, glCall.
  repeat first
    [ keeps_step
    | match goal with
      | |- keeps _ (setThis _) => apply keeps_setThis
      | |- keeps _ (setPage _) => apply keeps_setPage
      end; intros w H; exact H ].
Qed.

Lemma tier_listen L t ty b : keeps (tierIs L) (listen t ty b).
Proof.
  unfold listen, addEventListener.
  apply keeps_bind; [apply tier_newFunction | intros f].
  apply keeps_setPage. intros w H. destruct (existsb _ _); exact H.
Qed.

Lemma tier_setupEventListeners L : keeps (tierIs L) (setupEventListeners env).
Proof.
  pose proof (tier_listen L).
  unfold setupEventListeners.
  repeat first
    [ keeps_step
    | match goal with
      | |- keeps _ (setThis _) => apply keeps_setThis
      | |- keeps _ (setPage _) => apply keeps_setPage
      end; intros w Hw; exact Hw ].
Qed.

Lemma constructor_tier arg opts r :
  glAvailable env = true ->
  sat (constructor env arg opts) (blankWorld r)
      (fun _ w => container (inst w) <> None ->
                  performanceLevel (inst w) = chosenTier env opts)
      (fun _ => True).
Proof.
  intros GL. unfold constructor. sat_steps.
  destruct (resolve env arg) as [e|] eqn:Res; sat_steps.
  2:{ intros C. exfalso. apply C. reflexivity. }
  unfold initWebGL at 1. sat_steps. rewrite GL. cbn [negb].
  eapply (keeps_sat (untuned (adaptivePerformance (spread defaultOptions opts))));
    [ | | intros ? w1 U1 | trivial].
  { apply keeps_bind; [apply untuned_setupShaders | intros _].
    apply untuned_createBuffers. }
  { unfold untuned. fields. auto. }
  destruct U1 as (T1 & A1). sat_steps. rewrite A1. unfold chosenTier.
  assert (Rest : forall L w2, tierIs L w2 ->
    sat (bind (createNodes env) (fun _ =>
           bind (setupEventListeners env) (fun _ =>
             bind (resize env) (fun _ =>
               bind this (fun i => runLoop (animate_ i) (startTime env))))))
        w2
        (fun _ w => container (inst w) <> None -> performanceLevel (inst w) = L)
        (fun _ => True)).
  { intros L w2 T2.
    eapply (keeps_sat (tierIs L)); [ | exact T2 | intros ? w3 T3 _; exact T3 | trivial].
    apply keeps_bind; [apply tier_createNodes | intros _].
    apply keeps_bind; [apply tier_setupEventListeners | intros _].
    apply keeps_bind; [apply tier_resize | intros _].
    apply keeps_bind; [apply keeps_this | intros i].
    destruct (animate_ i); simpl;
      [apply (tier_animate env) | apply (tier_animateCanvas env)]. }
  destruct (adaptivePerformance (spread defaultOptions opts)).
  - eapply sat_mono; [apply checkPerformance_tier; exact T1 | | trivial].
    intros ? w2 T2. apply Rest. exact T2.
  - apply sat_ret. apply Rest. exact T1.
Qed.

End TierChosen.

(** C8. When the constructor returns an instance, its tier is the one
    the device heuristics give, lowered by one step if the benchmark took
    more than 10 ms, or [high] when [adaptivePerformance] is off; it is
    set before the constructor seeds the nodes and runs the first frame;
    and no later frame, DOM event, option update or disposal changes it. *)
Theorem tier_chosen_once (env : Env) (arg : ContainerArg)
    (opts : PartialOptions) (r : R * R) :
  (forall w, construct env arg opts r = (Ok tt, w) ->
             container (inst w) <> None ->
             performanceLevel (inst w) = chosenTier env opts)
  /\ (forall evs,
         performanceLevel (inst (session env arg opts r evs)) =
         performanceLevel (inst (snd (construct env arg opts r)))).
Proof.
  split.
  - intros w E C. unfold construct in E.
    destruct (glAvailable env) eqn:GL.
    + pose proof (constructor_tier env arg opts r GL) as S. unfold sat in S.
      destruct (constructor env arg opts (blankWorld r)) as [[[]|e] w0];
        inversion E; subst w. fields. apply S. exact C.
    + pose proof (constructor_without_gl env arg opts r GL) as S. unfold sat in S.
      destruct (constructor env arg opts (blankWorld r)) as [[[]|e] w0];
        inversion E; subst w. destruct S as (_ & _ & N). contradiction.
  - intros evs. unfold session.
    apply (tier_run env _ evs (snd (construct env arg opts r))). reflexivity.
Qed.

(* ------------------------------------------------------------------------- *)
(** ** Concrete pages *)

Lemma desktop_random_range : forall k, 0 <= random desktopPage k < 1.
Proof. intros k. simpl. lra. Qed.

(* ------------------------------------------------------------------------- *)
(** ** Construction on the desktop page, step by step *)

Lemma sat_createNodes_no_area env w (Q : unit -> World -> Prop) E :
  width (inst w) * height (inst w) = 0 ->
  Q tt (mkWorld (with_nodes [] (inst w)) (with_rng (rng (host w)) (host w))) ->
  sat (createNodes env) w Q E.
Proof.
  intros A H. unfold sat. rewrite createNodes_eq.
  rewrite (adjust_zero_area (inst w) A). exact H.
Qed.

(** [checkPerformance] on a device that is neither low-end nor mid-range
    and passes the benchmark: nothing changes but the GL calls of the
    benchmark. *)
Lemma sat_checkPerformance_fast env w q (Q : unit -> World -> Prop) E :
  isLowEndDevice env = false -> isMidRangeDevice env = false ->
  Rltb 10 (benchmarkTime env) = false ->
  gl (inst w) = true -> nodeProgram (inst w) = Some q ->
  Q tt (mkWorld (inst w)
          (with_glLive (glLive (host w))
             (with_glCalls
                (glCalls (host w)
                 ++ [BufferData (nodePositionBuffer (inst w)) 2000;
                     BufferData (nodeSizeBuffer (inst w)) 1000;
                     UseProgram (Some q);
                     DrawArrays POINTS 1000;
                     Finish])
                (with_rng (rng (host w) + 2000) (host w))))) ->
  sat (checkPerformance env) w Q E.
Proof.
  intros L Mi B G P H. unfold checkPerformance. rewrite L, Mi.
  unfold runWebGLBenchmark. rewrite B.
  repeat first
    [ sat_step
    | apply sat_glCall; fields; [intros _ | intros G'; congruence]
    | rewrite P; apply sat_property; [intros ? _ | intros ?; discriminate] ].
  rewrite <- !app_assoc. exact H.
Qed.

(** Normalises the world of a goal [sat c w Q E] when [w] is concrete. *)
Ltac whole :=
  match goal with
  | |- sat ?c ?w ?Q ?E =>
      let w' := eval cbv
        [inst host
         container options width height time nodes mouse isVisible shouldRender
         performanceLevel canvas gl ctx nodeProgram connectionProgram
         nodePositionBuffer nodeSizeBuffer connectionPositionBuffer animate_
         visibilityObserver
         rect canvasAttached observing listeners nextFn frameQueue rng console
         glCalls glLive domCalls ctxOps reference
         with_container with_options with_width with_height with_time with_nodes
         with_mouse with_isVisible with_shouldRender with_performanceLevel
         with_canvas with_gl with_ctx with_nodeProgram with_connectionProgram
         with_buffers with_animate with_visibilityObserver
         with_rect with_canvasAttached with_observing with_listeners with_nextFn
         with_frameQueue with_rng with_console with_glCalls with_glLive
         with_domCalls with_ctxOps with_reference glEffect release filter
         GLObject_eqb blankWorld blankHost blankInst app Nat.add
         existsb sameListener Target_eqb EventType_eqb Nat.eqb andb orb negb
         l_target l_type l_fn fn_id fn_body fst snd List.length Nat.mul
         spread defaultOptions noOptions orElse
         p_nodeCount p_connectionDistance p_nodeSize p_speed p_interactive
         p_pulseEffect p_adaptivePerformance p_theme p_dataFlowEffect
         nodeCount connectionDistance nodeSize speed interactive pulseEffect
         adaptivePerformance theme dataFlowEffect] in w in
      change (sat c w' Q E)
  end.

(** One step of a method on a concrete world. *)
Ltac conc_step :=
  first
    [ sat_step
    | match goal with
      | |- sat (glCall _) _ _ _ =>
          apply sat_glCall; [intros _ | intros ?; discriminate]
      | |- sat (property _) _ _ _ =>
          apply sat_property; [intros ? _ | intros ?; discriminate]
      end
    | progress unfold constructor, initWebGL, setupShaders, createShaderProgram,
        createBuffers, setupEventListeners, runLoop, animate, doUpdateNodes,
        prepareNodeData, prepareConnectionData, clear, renderConnections,
        renderNodes
    | progress cbn [resolve negb orb andb glAvailable compileOk linkOk
                    hasIntersectionObserver startTime desktopPage
                    updateNodes map connectionsOf flatten flat_map
                    List.length Nat.div Nat.divmod Nat.mul Nat.add fst snd] ];
  try whole.

Ltac conc := repeat conc_step.


Lemma sat_exact {A : Type} (c : M A) w a w' :
  sat c w (fun x v => x = a /\ v = w') (fun _ => False) -> c w = (Ok a, w').
Proof.
  unfold sat. destruct (c w) as [[x|e] v]; [|contradiction].
  intros [-> ->]. reflexivity.
Qed.

Lemma desktop_construct :
  construct desktopPage (Element (Some 0%nat)) noOptions (1920, 1080) =
    (Ok tt, desktopWorld).
Proof.
  assert (S : sat (constructor desktopPage (Element (Some 0%nat)) noOptions)
                  (blankWorld (1920, 1080))
                  (fun x w => x = tt /\
                     w = mkWorld (inst desktopWorld)
                                 (with_reference false (host desktopWorld)))
                  (fun _ => False)).
  { conc.
    apply (sat_checkPerformance_fast desktopPage _ NodeProgram); try reflexivity.
    { apply Rltb_false. simpl. lra. }
    conc.
    apply sat_createNodes_no_area. { fields. lra. }
    conc.
    unfold sat at 1. rewrite resize_eq by reflexivity. cbv beta iota. fields.
    cbn [reseat List.length].
    conc. split; reflexivity. }
  unfold construct. rewrite (sat_exact _ _ _ _ S). reflexivity.
Qed.


(* ------------------------------------------------------------------------- *)
(** ** Disposal *)

Lemma incl_filter {A : Type} (f : A -> bool) (l : list A) : incl (filter f l) l.
Proof. intros x H. apply filter_In in H. tauto. Qed.

Lemma incl_filters {A : Type} (l0 l : list A) :
  incl l l0 -> forall f, incl (filter f l) l0.
Proof. intros H f. eapply incl_tran; [apply incl_filter | exact H]. Qed.

Lemma destroy_disposed w :
  sat destroy w (fun _ => disposed w) (fun _ => False).
Proof.
  unfold destroy.
  destruct (interactive (options (inst w))) eqn:I;
    destruct (visibilityObserver (inst w)) eqn:V;
    destruct (canvas (inst w) && canvasAttached (host w)) eqn:C;
    destruct (gl (inst w)) eqn:G;
    repeat first
      [ sat_step
      | match goal with
        | |- sat (glCall _) _ _ _ =>
            apply sat_glCall; fields; [intros _ | intros ?; congruence]
        end
      | rewrite I | rewrite V | rewrite C | rewrite G ];
    unfold disposed; fields; rewrite ?V, ?C, ?G;
    unfold releaseAll, deleteRequests; rewrite <- ?app_assoc;
    repeat split; auto;
    repeat apply incl_filters; apply incl_refl.
Qed.

Lemma release_twice (o : GLObject) (live : list GLObject) :
  release o (release o live) = release o live.
Proof.
  unfold release. induction live as [|x l IH]; simpl; auto.
  destruct (negb (GLObject_eqb o x)) eqn:E; simpl; rewrite ?E, IH; reflexivity.
Qed.

Lemma release_swap (a b : GLObject) (live : list GLObject) :
  release a (release b live) = release b (release a live).
Proof.
  unfold release. induction live as [|x l IH]; simpl; auto.
  destruct (negb (GLObject_eqb a x)) eqn:Ea;
    destruct (negb (GLObject_eqb b x)) eqn:Eb; simpl;
    rewrite ?Ea, ?Eb, IH; reflexivity.
Qed.

Lemma releaseOpt_twice o live : releaseOpt o (releaseOpt o live) = releaseOpt o live.
Proof. destruct o; simpl; [apply release_twice | reflexivity]. Qed.

Lemma releaseOpt_swap a b live :
  releaseOpt a (releaseOpt b live) = releaseOpt b (releaseOpt a live).
Proof. destruct a, b; simpl; auto using release_swap. Qed.

Lemma releaseList_swap a os live :
  releaseOpt a (releaseList os live) = releaseList os (releaseOpt a live).
Proof.
  induction os as [|b os IH]; simpl; auto.
  rewrite releaseOpt_swap, IH. reflexivity.
Qed.

Lemma releaseList_twice os live :
  releaseList os (releaseList os live) = releaseList os live.
Proof.
  induction os as [|a os IH]; simpl; auto.
  rewrite <- releaseList_swap, releaseOpt_twice, IH. reflexivity.
Qed.

Lemma releaseAll_list (i : Inst) (live : list GLObject) :
  releaseAll i live =
    releaseList (map deleted (rev (deleteRequests i))) live.
Proof.
  unfold releaseAll, deleteRequests. simpl.
  destruct (connectionProgram i), (nodeProgram i), (connectionPositionBuffer i),
    (nodeSizeBuffer i), (nodePositionBuffer i); reflexivity.
Qed.

(** Releasing the objects of an instance a second time releases nothing. *)
Lemma releaseAll_twice (i : Inst) (live : list GLObject) :
  releaseAll i (releaseAll i live) = releaseAll i live.
Proof. rewrite !releaseAll_list. apply releaseList_twice. Qed.

(** C9. A second call of [destroy] after a first one returns normally
    and releases nothing again: the instance is unchanged, the GL objects
    alive are the same (the five delete requests are repeated, on objects
    that are already deleted, which the context ignores), the canvas is
    not removed a second time, the observer stays disconnected, no
    listener registration is touched that the first call left, and the
    frame queue is as it was. *)
Theorem disposal_is_idempotent (w w1 : World) :
  destroy w = (Ok tt, w1) ->
  exists w2,
    destroy w1 = (Ok tt, w2) /\
    inst w2 = inst w1 /\
    glLive (host w2) = glLive (host w1) /\
    glCalls (host w2) =
      (if gl (inst w1) then glCalls (host w1) ++ deleteRequests (inst w1)
       else glCalls (host w1)) /\
    domCalls (host w2) = domCalls (host w1) /\
    canvasAttached (host w2) = canvasAttached (host w1) /\
    observing (host w2) = observing (host w1) /\
    incl (listeners (host w2)) (listeners (host w1)) /\
    frameQueue (host w2) = frameQueue (host w1).
Proof.
  intros E1.
  pose proof (destroy_disposed w) as S1. unfold sat in S1. rewrite E1 in S1.
  pose proof (destroy_disposed w1) as S2. unfold sat in S2.
  destruct (destroy w1) as [[[]|e] w2]; [|contradiction].
  exists w2. split; [reflexivity|].
  destruct S1 as (I1 & L1 & C1 & A1 & D1 & O1 & _).
  destruct S2 as (I2 & L2 & C2 & A2 & D2 & O2 & N2 & F2 & _).
  assert (Ec : canvas (inst w1) = canvas (inst w)) by (rewrite I1; reflexivity).
  assert (Eg : gl (inst w1) = gl (inst w)) by (rewrite I1; reflexivity).
  assert (Ev : visibilityObserver (inst w1) = visibilityObserver (inst w))
    by (rewrite I1; reflexivity).
  assert (Er : forall live, releaseAll (inst w1) live = releaseAll (inst w) live)
    by (intros live; rewrite I1; reflexivity).
  repeat split.
  - rewrite I2, I1. reflexivity.
  - rewrite L2, Eg, L1. destruct (gl (inst w)); [|reflexivity].
    rewrite Er. apply releaseAll_twice.
  - exact C2.
  - rewrite D2, Ec, A1.
    destruct (canvas (inst w)); simpl; [|reflexivity].
    destruct (canvasAttached (host w)); reflexivity.
  - rewrite A2, Ec, A1.
    destruct (canvas (inst w)); simpl; [|reflexivity].
    destruct (canvasAttached (host w)); reflexivity.
  - rewrite O2, Ev, O1. destruct (visibilityObserver (inst w)); reflexivity.
  - exact N2.
  - exact F2.
Qed.

Lemma disposal_is_idempotent_witness :
  exists w2,
    destroy (snd (destroy desktopWorld)) = (Ok tt, w2) /\
    inst w2 = inst (snd (destroy desktopWorld)) /\
    glLive (host w2) = glLive (host (snd (destroy desktopWorld))) /\
    glCalls (host w2) =
      (if gl (inst (snd (destroy desktopWorld)))
       then glCalls (host (snd (destroy desktopWorld)))
            ++ deleteRequests (inst (snd (destroy desktopWorld)))
       else glCalls (host (snd (destroy desktopWorld)))) /\
    domCalls (host w2) = domCalls (host (snd (destroy desktopWorld))) /\
    canvasAttached (host w2) = canvasAttached (host (snd (destroy desktopWorld))) /\
    observing (host w2) = observing (host (snd (destroy desktopWorld))) /\
    incl (listeners (host w2)) (listeners (host (snd (destroy desktopWorld)))) /\
    frameQueue (host w2) = frameQueue (host (snd (destroy desktopWorld))).
Proof.
  apply (disposal_is_idempotent desktopWorld (snd (destroy desktopWorld))).
  vm_compute. reflexivity.
Defined.

(* ------------------------------------------------------------------------- *)
(** ** Frames after disposal *)

Lemma adjust_full_area (i : Inst) :
  performanceLevel i = high -> width i * height i = 1920 * 1080 ->
  adjustNodeCountForPerformance i = nodeCount (options i).
Proof.
  intros L A. unfold adjustNodeCountForPerformance. rewrite L, A.
  replace (1920 * 1080 / (1920 * 1080)) with 1 by (field; lra).
  rewrite Rmin_left by lra. rewrite Rmult_1_r. apply ZfloorZ.
Qed.

Lemma desktop_seeded :
  deliver desktopPage (EvUpdateOptions oneNode) desktopWorld = desktopSeeded.
Proof.
  cbn [deliver]. unfold call. cbn [desktopWorld inst host container reference].
  assert (S : sat (updateOptions desktopPage oneNode) desktopWorld
                  (fun x w => x = tt /\ w = desktopSeeded) (fun _ => False)).
  { unfold updateOptions. cbn [p_nodeCount oneNode]. sat_steps.
    unfold sat. rewrite createNodes_eq.
    rewrite adjust_full_area by (vm_compute; auto). split; reflexivity. }
  rewrite (sat_exact _ _ _ _ S). reflexivity.
Qed.

(** C5, evaluated.  The frame that runs after disposal, as the class
    behaves on the desktop page: construction, one node seeded, [destroy], the tab
    becomes visible again, the queued frame callback fires.  [destroy]
    has released the GL objects and removed the canvas, but every
    listener is still registered and the frame is still queued; the
    visibility listener sets [shouldRender] again, and the frame moves the
    node and issues both draw calls. *)
Theorem frames_run_after_disposal :
  let before := session desktopPage (Element (Some 0%nat)) noOptions (1920, 1080)
                  [EvUpdateOptions oneNode; EvDestroy] in
  let after := session desktopPage (Element (Some 0%nat)) noOptions (1920, 1080)
                 [EvUpdateOptions oneNode; EvDestroy;
                  EvVisibilityChange true; EvFrame 16] in
  shouldRender (inst before) = false /\
  glLive (host before) = [] /\
  canvasAttached (host before) = false /\
  listeners (host before) = desktopListeners /\
  frameQueue (host before) = [WebGLLoop] /\
  shouldRender (inst after) = true /\
  time (inst after) = 16 /\
  (exists n, nodes (inst before) = [n] /\
             nodes (inst after) =
               [updateNode (options (inst before)) 1920 1080 16
                           (mouse (inst before)) n] /\
             n_x (updateNode (options (inst before)) 1920 1080 16
                             (mouse (inst before)) n) = n_x n - 0.125) /\
  glCalls (host after) =
    glCalls (host before)
    ++ [BufferData (Some NodePositionBuffer) 2;
        BufferData (Some NodeSizeBuffer) 1;
        BufferData (Some ConnectionPositionBuffer) 0;
        ClearColor light; Clear;
        UseProgram (Some ConnectionProgram); DrawArrays LINES 0;
        UseProgram (Some NodeProgram); DrawArrays POINTS 1] /\
  frameQueue (host after) = [WebGLLoop].
Proof.
  cbv zeta. unfold session. rewrite desktop_construct. cbn [snd run fold_left].
  rewrite desktop_seeded.
  repeat match goal with
         | |- _ /\ _ => split
         end; try (vm_compute; reflexivity).
  exists (seedNode desktopPage 1920 1080 (spread defaultOptions oneNode) 2000).
  split; [vm_compute; reflexivity|]. split; [vm_compute; reflexivity|].
  match goal with |- n_x (updateNode ?o ?w ?h ?t ?m ?n) = _ =>
    destruct (updateNode_Tick o w h t m n) as [_ X _ _ _ _ _ _ _];
    rewrite X end.
  - cbn [seedNode n_x n_vx desktopPage random speed spread defaultOptions oneNode
         orElse p_speed]. lra.
  - cbn [seedNode n_x n_vx desktopPage random speed spread defaultOptions oneNode
         orElse p_speed]. unfold exits. lra.
Qed.

(* ------------------------------------------------------------------------- *)
(** ** A shader that fails to compile or link *)

(** C4, evaluated.  What the constructor does when a shader program
    cannot be built:
    [createShaderProgram] logs and returns null, [setupShaders] stores the
    null and then writes a property on it, and the TypeError leaves the
    constructor.  No fallback is set up ([this.animate] is still the WebGL
    loop, there is no 2D context), no listener is registered, no frame is
    requested and no draw call is made; the canvas stays in the page. *)
Theorem shader_failure_escapes_constructor :
  let broken := construct nodeShaderBroken (Element (Some 0%nat)) noOptions
                  (1920, 1080) in
  let unlinked := construct connectionLinkBroken (Element (Some 0%nat)) noOptions
                    (1920, 1080) in
  (fst broken = Throw (TypeError "program is null") /\
   nodeProgram (inst (snd broken)) = None /\
   animate_ (inst (snd broken)) = WebGLLoop /\
   ctx (inst (snd broken)) = false /\
   console (host (snd broken)) = [ConsoleError "Vertex shader compilation failed:"] /\
   glCalls (host (snd broken)) = [CreateProgram ConnectionProgram] /\
   listeners (host (snd broken)) = [] /\
   frameQueue (host (snd broken)) = [] /\
   canvasAttached (host (snd broken)) = true /\
   reference (host (snd broken)) = false)
  /\
  (fst unlinked = Throw (TypeError "program is null") /\
   connectionProgram (inst (snd unlinked)) = None /\
   animate_ (inst (snd unlinked)) = WebGLLoop /\
   ctx (inst (snd unlinked)) = false /\
   console (host (snd unlinked)) = [ConsoleError "Shader program linking failed:"] /\
   glCalls (host (snd unlinked)) =
     [CreateProgram NodeProgram; CreateProgram ConnectionProgram] /\
   listeners (host (snd unlinked)) = [] /\
   frameQueue (host (snd unlinked)) = [] /\
   canvasAttached (host (snd unlinked)) = true /\
   reference (host (snd unlinked)) = false).
Proof.
  cbv zeta. split; repeat split; vm_compute; reflexivity.
Qed.

(* ------------------------------------------------------------------------- *)
(** ** The nodes the constructor seeds *)

(** C7, evaluated.  The default construction on the desktop page, whose
    container is as large as the 1920 x 1080 reference: the tier is [high] and the options
    keep [nodeCount = 150], so the count scaled by the area ratio and the
    tier cap is 150, and this is what [adjustNodeCountForPerformance]
    returns on the finished instance.  But the constructor calls
    [createNodes] while [width] and [height] are still 0, before its first
    [resize]: it seeds no node, and neither a resize nor a frame seeds one
    later. *)
Theorem constructor_seeds_no_node :
  let w := snd (construct desktopPage (Element (Some 0%nat)) noOptions (1920, 1080)) in
  let later := session desktopPage (Element (Some 0%nat)) noOptions (1920, 1080)
                 [EvResize 1920 1080; EvFrame 16] in
  performanceLevel (inst w) = high /\
  nodeCount (options (inst w)) = 150%Z /\
  width (inst w) = 1920 /\ height (inst w) = 1080 /\
  tierCap (performanceLevel (inst w))
    (Zfloor (IZR (nodeCount (options (inst w)))
             * areaRatio (width (inst w)) (height (inst w)))) = 150%Z /\
  adjustNodeCountForPerformance (inst w) = 150%Z /\
  nodes (inst w) = [] /\
  nodes (inst later) = [].
Proof.
  cbv zeta. unfold session. rewrite desktop_construct. cbn [snd].
  assert (A : adjustNodeCountForPerformance (inst desktopWorld) = 150%Z).
  { rewrite adjust_full_area; [reflexivity | reflexivity | ].
    cbn [desktopWorld inst width height]. reflexivity. }
  split; [reflexivity|]. split; [reflexivity|].
  split; [reflexivity|]. split; [reflexivity|].
  split; [rewrite <- adjust_formula; exact A|].
  split; [exact A|].
  split; [reflexivity|].
  vm_compute. reflexivity.
Qed.

(* ------------------------------------------------------------------------- *)
(** ** The theorems at concrete pages *)

Lemma tier_chosen_once_witness :
  performanceLevel (inst desktopWorld) = chosenTier desktopPage noOptions.
Proof.
  apply (proj1 (tier_chosen_once desktopPage (Element (Some 0%nat)) noOptions
                  (1920, 1080)) desktopWorld).
  - exact desktop_construct.
  - discriminate.
Defined.

(* ========================================================================= *)
(** * Further properties of the code *)

(* ------------------------------------------------------------------------- *)
(** ** The velocity and the size of a node *)

Lemma reflected_abs (limit p v : R) : Rabs (reflected limit p v) = Rabs v.
Proof.
  unfold reflected. destruct (_ || _); [apply Rabs_Ropp | reflexivity].
Qed.

(** X1. With the pointer inactive a tick changes the velocity of a node
    at most by a sign: the speed on each axis is what it was. *)
Theorem speed_kept_without_pointer (o : Options) (wd ht t mx my : R) (n : Node) :
  let n' := updateNode o wd ht t (mkMouse mx my false) n in
  Rabs (n_vx n') = Rabs (n_vx n) /\ Rabs (n_vy n') = Rabs (n_vy n).
Proof.
  intros n'.
  destruct (updateNode_Tick o wd ht t (mkMouse mx my false) n)
    as [_ _ _ _ _ _ _ _ V].
  fold n' in V. cbv zeta in V. destruct V as [_ V].
  destruct V as [Vx Vy]; [simpl; intros [H _]; discriminate|].
  rewrite Vx, Vy, !reflected_abs. auto.
Qed.

(** X3. With pulsing on, the size a tick gives a node differs from its
    base size by at most a fifth of it; with pulsing off the size is not
    touched. *)
Theorem pulse_within_a_fifth (o : Options) (wd ht t : R) (m : Mouse) (n : Node) :
  let n' := updateNode o wd ht t m n in
  if pulseEffect o
  then Rabs (n_size n' - n_originalSize n) <= 0.2 * Rabs (n_originalSize n)
  else n_size n' = n_size n.
Proof.
  intros n'.
  destruct (updateNode_Tick o wd ht t m n) as [_ _ _ _ P S _ _ _].
  fold n' in P, S. destruct (pulseEffect o).
  - rewrite P by reflexivity.
    replace (n_originalSize n * (1 + 0.2 * sin (t * 0.002 + n_pulseOffset n))
             - n_originalSize n)
      with (n_originalSize n * (0.2 * sin (t * 0.002 + n_pulseOffset n))) by ring.
    rewrite Rabs_mult, Rabs_mult, (Rabs_right 0.2) by lra.
    pose proof (SIN_bound (t * 0.002 + n_pulseOffset n)) as [L U].
    assert (A : Rabs (sin (t * 0.002 + n_pulseOffset n)) <= 1)
      by (apply Rabs_le; lra).
    pose proof (Rabs_pos (n_originalSize n)). nra.
  - apply S. reflexivity.
Qed.

(* ------------------------------------------------------------------------- *)
(** ** What [createNodes] seeds *)

Lemma seedNode_wellSeeded env wd ht o k :
  (forall k, 0 <= random env k < 1) ->
  0 <= wd -> 0 <= ht -> 0 <= speed o -> 0 <= nodeSize o ->
  wellSeeded o wd ht (seedNode env wd ht o k).
Proof.
  intros Rg Hw Hh Hs Hn. unfold wellSeeded, seedNode. simpl.
  pose proof (Rg k). pose proof (Rg (S k)). pose proof (Rg (S (S k))).
  pose proof (Rg (S (S (S k)))). pose proof (Rg (S (S (S (S k))))).
  pose proof (Rg (S (S (S (S (S k)))))). pose proof (Rg (S (S (S (S (S (S k))))))).
  pose proof PI_RGT_0.
  repeat split; try nra; apply Rabs_le; nra.
Qed.

Lemma seedNodes_wellSeeded env wd ht o count k :
  (forall k, 0 <= random env k < 1) ->
  0 <= wd -> 0 <= ht -> 0 <= speed o -> 0 <= nodeSize o ->
  Forall (wellSeeded o wd ht) (seedNodes env wd ht o count k).
Proof.
  intros Rg Hw Hh Hs Hn. revert k.
  induction count as [|c IH]; intros k; simpl; constructor; auto.
  apply seedNode_wellSeeded; assumption.
Qed.

(** X4. [createNodes] always returns, and when [Math.random] is in
    [0, 1) and the canvas sides, the speed and the node size are not
    negative, every node it seeds lies on the canvas, moves at most
    [speed / 2] per frame on each axis, has a size and a base size between
    1.5 and [nodeSize + 1.5], and a pulse phase in [0, 2 pi). *)
Theorem createNodes_seeds_well (env : Env) (w : World) :
  (forall k, 0 <= random env k < 1) ->
  0 <= width (inst w) -> 0 <= height (inst w) ->
  0 <= speed (options (inst w)) -> 0 <= nodeSize (options (inst w)) ->
  fst (createNodes env w) = Ok tt /\
  Forall (wellSeeded (options (inst w)) (width (inst w)) (height (inst w)))
         (nodes (inst (snd (createNodes env w)))).
Proof.
  intros Rg Hw Hh Hs Hn. rewrite createNodes_eq. split; [reflexivity|].
  cbn [snd inst with_nodes nodes]. apply seedNodes_wellSeeded; assumption.
Qed.

Lemma createNodes_seeds_well_witness :
  fst (createNodes desktopPage desktopWorld) = Ok tt /\
  Forall (wellSeeded defaultOptions 1920 1080)
         (nodes (inst (snd (createNodes desktopPage desktopWorld)))).
Proof.
  apply (createNodes_seeds_well desktopPage desktopWorld).
  - exact desktop_random_range.
  - simpl. lra.
  - simpl. lra.
  - simpl. lra.
  - simpl. lra.
Defined.

(* ------------------------------------------------------------------------- *)
(** ** What [resize] leaves of the nodes *)

Lemma reseat_rest env w h k ns :
  map n_vx (reseat env w h k ns) = map n_vx ns /\
  map n_vy (reseat env w h k ns) = map n_vy ns /\
  map n_size (reseat env w h k ns) = map n_size ns /\
  map n_originalSize (reseat env w h k ns) = map n_originalSize ns /\
  map n_pulseOffset (reseat env w h k ns) = map n_pulseOffset ns.
Proof.
  revert k. induction ns as [|n rest IH]; intros k; simpl.
  - repeat split.
  - destruct (IH (2 + k)%nat) as (A & B & C & D & E).
    simpl in A, B, C, D, E. rewrite A, B, C, D, E. repeat split.
Qed.

(** X5. [resize] moves the nodes and does nothing else to them: whether
    it returns or throws, the instance has as many nodes as before, each
    with the velocity, size, base size and pulse phase it had. *)
Theorem resize_moves_positions_only (env : Env) (w : World) :
  let ns := nodes (inst w) in
  let ns' := nodes (inst (snd (resize env w))) in
  map n_vx ns' = map n_vx ns /\
  map n_vy ns' = map n_vy ns /\
  map n_size ns' = map n_size ns /\
  map n_originalSize ns' = map n_originalSize ns /\
  map n_pulseOffset ns' = map n_pulseOffset ns.
Proof.
  cbv zeta. destruct (gl (inst w)) eqn:G.
  - rewrite resize_eq by exact G. cbn [snd inst with_nodes nodes].
    apply reseat_rest.
  - rewrite resize_null by exact G. cbn [snd inst with_height with_width nodes].
    repeat split.
Qed.

(* ------------------------------------------------------------------------- *)
(** ** The size of the connection set *)

Lemma pairLoop_length T a rest :
  (List.length (pairLoop T a rest) <= List.length rest)%nat.
Proof.
  induction rest as [|b rest IH]; simpl; [lia|].
  rewrite length_app. unfold Segment in *. destruct (Rltb _ _); simpl; lia.
Qed.

Lemma mouseLink_length T m a : (List.length (mouseLink T m a) <= 1)%nat.
Proof.
  unfold mouseLink. destruct (m_active m); [destruct (Rltb _ _)|]; simpl; lia.
Qed.

Lemma mouseLink_inactive T mx my a : mouseLink T (mkMouse mx my false) a = [].
Proof. reflexivity. Qed.

(** X6. [prepareConnectionData] pushes at most one segment for each pair
    of nodes and one for each node: at most [n (n + 1) / 2] segments for
    [n] nodes, and at most [n (n - 1) / 2] while the pointer is inactive;
    the flat array it uploads holds four numbers for each segment. *)
Theorem connection_count_bound (T mx my : R) (active : bool) (nodes : list Node) :
  let n := List.length nodes in
  (2 * List.length (connectionsOf T (mkMouse mx my active) nodes) <= n * (n + 1))%nat /\
  (2 * List.length (connectionsOf T (mkMouse mx my false) nodes) <= n * (n - 1))%nat /\
  List.length (flatten (connectionsOf T (mkMouse mx my active) nodes)) =
    (4 * List.length (connectionsOf T (mkMouse mx my active) nodes))%nat.
Proof.
  cbv zeta. split; [|split].
  - induction nodes as [|a rest IH]; [simpl; lia|].
    cbn [connectionsOf List.length]. rewrite !length_app.
    pose proof (pairLoop_length T a rest).
    pose proof (mouseLink_length T (mkMouse mx my active) a).
    unfold Segment in *. set (n := List.length rest) in *.
    replace (S n * (S n + 1))%nat with (n * (n + 1) + 2 * n + 2)%nat by lia.
    lia.
  - induction nodes as [|a rest IH]; [simpl; lia|].
    cbn [connectionsOf]. rewrite mouseLink_inactive. cbn [app List.length].
    rewrite length_app. pose proof (pairLoop_length T a rest).
    destruct rest as [|b rest]; [simpl in *; lia|].
    cbn [List.length] in *. unfold Segment in *. set (n := List.length rest) in *.
    replace (S (S n) * (S (S n) - 1))%nat with (S n * (S n - 1) + 2 * S n)%nat
      by (simpl; lia).
    lia.
  - apply flatten_length.
Qed.

(* ------------------------------------------------------------------------- *)
(** ** The connection set and the order of the nodes *)

Lemma dist_sym ax ay bx by_ : dist ax ay bx by_ = dist bx by_ ax ay.
Proof. unfold dist. f_equal. ring. Qed.

Lemma pairLoop_mem T a rest s :
  In s (pairLoop T a rest) <->
  exists b, In b rest /\ linked T a b /\ s = pairSegment a b.
Proof.
  rewrite pairLoop_In. split.
  - intros (j & b & Hj & L & E). exists b. split; [|auto].
    eapply nth_error_In; eassumption.
  - intros (b & Hb & L & E). apply In_nth_error in Hb. destruct Hb as [j Hj].
    exists j, b. auto.
Qed.

Lemma flip_pairSegment a b : flipSegment (pairSegment a b) = pairSegment b a.
Proof. reflexivity. Qed.

Lemma linked_sym T a b : linked T a b -> linked T b a.
Proof. unfold linked. rewrite dist_sym. auto. Qed.

(** X7. The connection set does not depend on the order of the nodes,
    up to the direction of a segment: after any reordering of the node
    list every segment is still there, or its reverse is. *)
Theorem connections_order_independent (T : R) (m : Mouse) (ns ns' : list Node) :
  Permutation ns ns' ->
  forall s, In s (connectionsOf T m ns) ->
            In s (connectionsOf T m ns') \/
            In (flipSegment s) (connectionsOf T m ns').
Proof.
  induction 1 as [|x l l' P IH|x y l|l l' l'' P1 IH1 P2 IH2]; intros s Hs.
  - left. exact Hs.
  - cbn [connectionsOf] in *. rewrite !in_app_iff in *.
    destruct Hs as [Hs|[Hs|Hs]].
    + left. left. apply pairLoop_mem in Hs. apply pairLoop_mem.
      destruct Hs as (b & Hb & L & E). exists b. split; [|auto].
      eapply Permutation_in; eassumption.
    + left. right. left. exact Hs.
    + destruct (IH s Hs) as [H|H]; auto.
  - cbn [connectionsOf pairLoop] in *. rewrite !in_app_iff in *.
    destruct Hs as [[Hs|Hs]|[Hs|[Hs|[Hs|Hs]]]]; auto 8.
    right. destruct (Rltb (dist (n_x y) (n_y y) (n_x x) (n_y x)) T) eqn:D;
      [|destruct Hs].
    destruct Hs as [<-|[]]. left. left.
    rewrite dist_sym in D. rewrite D. left. reflexivity.
  - destruct (IH1 s Hs) as [H|H].
    + apply IH2. exact H.
    + destruct (IH2 _ H) as [H'|H']; [right; exact H'|left].
      destruct s as [[[x1 y1] x2] y2]. exact H'.
Qed.

Lemma connections_order_independent_witness :
  let a := mkNode 0 0 0 0 2 2 0 in
  let b := mkNode 3 4 0 0 2 2 0 in
  In (0, 0, 3, 4) (connectionsOf 10 (mkMouse 0 0 false) [b; a]) \/
  In (flipSegment (0, 0, 3, 4)) (connectionsOf 10 (mkMouse 0 0 false) [b; a]).
Proof.
  cbv zeta.
  apply (connections_order_independent 10 (mkMouse 0 0 false)
           [mkNode 0 0 0 0 2 2 0; mkNode 3 4 0 0 2 2 0]).
  - apply perm_swap.
  - cbn [connectionsOf pairLoop n_x n_y]. apply in_or_app. left.
    replace (Rltb (dist 0 0 3 4) 10) with true; [left; reflexivity|].
    symmetry. apply Rltb_true. unfold dist.
    replace ((0 - 3) * (0 - 3) + (0 - 4) * (0 - 4)) with (5 * 5) by ring.
    rewrite sqrt_square; lra.
Defined.

(* ------------------------------------------------------------------------- *)
(** ** Invariants of whole sessions *)

Lemma keeps_resetPositions (P : World -> Prop) env done todo :
  keeps P (mathRandom env) -> (forall ns, keeps P (setThis (with_nodes ns))) ->
  keeps P (resetPositions env done todo).
Proof.
  intros Hr Hs. revert done. induction todo as [|n rest IH]; intros done; simpl.
  - apply Hs.
  - apply keeps_bind; [exact Hr | intros rx].
    apply keeps_bind; [exact Hr | intros ry].
    apply keeps_bind; [apply keeps_this | intros i]. apply IH.
Qed.

(** Opens the method at the head of a goal [keeps P c]. *)
Ltac open_method :=
  match goal with
  | |- keeps _ (ret _) => apply keeps_ret
  | |- keeps _ (throw _) => apply keeps_throw
  | |- keeps _ this => apply keeps_this
  | |- keeps _ page => apply keeps_page
  | |- keeps _ (bind _ _) => apply keeps_bind; [|intros ?]
  | |- keeps _ (when _ _) => apply keeps_when
  | |- keeps _ (times _ _) => apply keeps_times
  | |- keeps _ (forEach _ _) => apply keeps_forEach; intros ?
  | |- keeps _ (resetPositions _ _ _) => apply keeps_resetPositions; [|intros ?]
  | |- keeps _ (if ?b then _ else _) => destruct b
  | |- keeps _ (match ?x with _ => _ end) => destruct x
  | |- keeps _ (glCall _) => unfold glCall
  | |- keeps _ (ctxCall _) => unfold ctxCall
  | |- keeps _ (property _) => unfold property
  | |- keeps _ (mathRandom _) => unfold mathRandom
  | |- keeps _ (newFunction _) => unfold newFunction
  | |- keeps _ (consoleWarn _) => unfold consoleWarn
  | |- keeps _ (consoleError _) => unfold consoleError
  | |- keeps _ (consoleLog _) => unfold consoleLog
  | |- keeps _ (setOptions _) => unfold setOptions
  | |- keeps _ (listen _ _ _) => unfold listen
  | |- keeps _ (unlisten _ _ _) => unfold unlisten
  | |- keeps _ (addEventListener _ _ _) => unfold addEventListener
  | |- keeps _ (removeEventListener _ _ _) => unfold removeEventListener
  | |- keeps _ (createShaderProgram _ _) => unfold createShaderProgram
  | |- keeps _ (setupShaders _) => unfold setupShaders
  | |- keeps _ createBuffers => unfold createBuffers
  | |- keeps _ (pushNode _) => unfold pushNode
  | |- keeps _ (createNodes _) => unfold createNodes
  | |- keeps _ (resize _) => unfold resize
  | |- keeps _ (runWebGLBenchmark _) => unfold runWebGLBenchmark
  | |- keeps _ (checkPerformance _) => unfold checkPerformance
  | |- keeps _ (fallbackToCanvas _) => unfold fallbackToCanvas
  | |- keeps _ (initWebGL _) => unfold initWebGL
  | |- keeps _ (setupEventListeners _) => unfold setupEventListeners
  | |- keeps _ (handleMouseMove _ _ _) => unfold handleMouseMove
  | |- keeps _ (handleTouchMove _ _) => unfold handleTouchMove
  | |- keeps _ (requestAnimationFrame _) => unfold requestAnimationFrame
  | |- keeps _ doUpdateNodes => unfold doUpdateNodes
  | |- keeps _ prepareNodeData => unfold prepareNodeData
  | |- keeps _ prepareConnectionData => unfold prepareConnectionData
  | |- keeps _ clear => unfold clear
  | |- keeps _ (renderConnections _) => unfold renderConnections
  | |- keeps _ (renderNodes _) => unfold renderNodes
  | |- keeps _ (animate _) => unfold animate
  | |- keeps _ (drawNode _) => unfold drawNode
  | |- keeps _ (animateCanvas _) => unfold animateCanvas
  | |- keeps _ (runLoop ?l _) => destruct l; cbn [runLoop]
  | |- keeps _ (updateOptions _ _) => unfold updateOptions
  | |- keeps _ destroy => unfold destroy
  | |- keeps _ (runHandler _ ?b ?ev) => destruct b; try destruct ev; cbn [runHandler]
  end.

(** Closes an assignment that leaves alone what the invariant reads. *)
Ltac assignment :=
  match goal with
  | |- keeps _ (setThis _) => apply keeps_setThis
  | |- keeps _ (setPage _) => apply keeps_setPage
  end;
  let w := fresh "w" in let H := fresh "H" in
  intros w H; fields;
  first [ exact H | destruct (existsb _ _); fields; exact H ].

Ltac invariant := repeat first [ open_method | assignment ].

Section Sessions.

Variable env : Env.
Variable P : World -> Prop.

(** An invariant of the events: what each of them runs keeps it, and so
    do the changes of the page that come with the event. *)
Lemma deliver_keeps ev w :
  (forall t ty w', P w' -> P (dispatch env t ty ev w')) ->
  (forall l q now, ev = EvFrame now -> frameQueue (host w) = l :: q ->
     P (callback (runLoop l now) (mkWorld (inst w) (with_frameQueue q (host w))))) ->
  (forall r, P (mkWorld (inst w) (with_rect r (host w)))) ->
  (forall b, P (mkWorld (with_isVisible b (inst w)) (host w))) ->
  (forall p, ev = EvUpdateOptions p -> keeps P (updateOptions env p)) ->
  keeps P destroy ->
  P w -> P (deliver env ev w).
Proof.
  intros D Hf Hr Hv Hu Hd H.
  destruct ev; cbn [deliver]; try (apply D; exact H).
  - destruct (frameQueue (host w)) as [|l q] eqn:Q; [exact H|].
    apply Hf; reflexivity.
  - apply D, Hr.
  - destruct (observing (host w)); [apply Hv | exact H].
  - unfold call. destruct (container (inst w)); [|exact H].
    destruct (reference (host w)); [|exact H].
    apply (keeps_callback P (updateOptions env newOptions) w); auto.
  - unfold call. destruct (container (inst w)); [|exact H].
    destruct (reference (host w)); [|exact H].
    apply (keeps_callback P destroy w); auto.
Qed.

End Sessions.

(* ------------------------------------------------------------------------- *)
(** ** The pending frame callbacks *)

Section Pending.

Variable env : Env.

Ltac pending_keeps := unfold pending; invariant.

Lemma pending_runHandler n body ev : keeps (pending n) (runHandler env body ev).
Proof. pending_keeps. Qed.

Lemma pending_updateOptions n p : keeps (pending n) (updateOptions env p).
Proof. pending_keeps. Qed.

Lemma pending_destroy n : keeps (pending n) destroy.
Proof. pending_keeps. Qed.

Lemma pending_initWebGL n : keeps (pending n) (initWebGL env).
Proof. pending_keeps. Qed.

Lemma pending_checkPerformance n : keeps (pending n) (checkPerformance env).
Proof. pending_keeps. Qed.

Lemma pending_createNodes n : keeps (pending n) (createNodes env).
Proof. pending_keeps. Qed.

Lemma pending_setupEventListeners n : keeps (pending n) (setupEventListeners env).
Proof. pending_keeps. Qed.

Lemma pending_resize n : keeps (pending n) (resize env).
Proof. pending_keeps. Qed.

(** A frame callback requests the next frame first, and exactly once,
    whatever happens after that. *)
Lemma runLoop_requests_one l now w :
  sat (runLoop l now) w
      (fun _ w' => pending (S (List.length (frameQueue (host w)))) w')
      (pending (S (List.length (frameQueue (host w))))).
Proof.
  assert (Q : pending (S (List.length (frameQueue (host w))))
                (mkWorld (inst w)
                   (with_frameQueue (frameQueue (host w) ++ [animate_ (inst w)])
                      (host w)))).
  { unfold pending. fields. rewrite length_app. simpl. lia. }
  assert (Q' : pending (S (List.length (frameQueue (host w))))
                (mkWorld (inst w)
                   (with_frameQueue (frameQueue (host w) ++ [CanvasLoop])
                      (host w)))).
  { unfold pending. fields. rewrite length_app. simpl. lia. }
  destruct l; cbn [runLoop].
  - unfold animate. sat_steps.
    eapply (keeps_sat (pending (S (List.length (frameQueue (host w))))));
      [ | exact Q | auto | auto ].
    pending_keeps.
  - unfold animateCanvas. sat_steps.
    eapply (keeps_sat (pending (S (List.length (frameQueue (host w))))));
      [ | exact Q' | auto | auto ].
    pending_keeps.
Qed.

Lemma deliver_pending n ev w : pending n w -> pending n (deliver env ev w).
Proof.
  intros H. apply deliver_keeps; auto.
  - intros t ty w' H'. apply dispatch_keeps; [|exact H'].
    intros body. apply pending_runHandler.
  - intros l q now _ Q.
    pose proof (runLoop_requests_one l now
                  (mkWorld (inst w) (with_frameQueue q (host w)))) as S.
    unfold sat in S. unfold callback.
    destruct (runLoop l now _) as [[a|e] w']; cbn [snd];
      unfold pending in *; rewrite S; fields; rewrite Q in H; simpl in H; exact H.
  - intros p _. apply pending_updateOptions.
  - apply pending_destroy.
Qed.

Lemma run_pending n evs w : pending n w -> pending n (run env evs w).
Proof.
  revert w. induction evs as [|ev evs IH]; intros w H; simpl; auto.
  apply IH, deliver_pending, H.
Qed.

Lemma constructor_pending arg opts r :
  sat (constructor env arg opts) (blankWorld r)
      (fun _ w => (List.length (frameQueue (host w)) <= 1)%nat)
      (fun w => (List.length (frameQueue (host w)) <= 1)%nat).
Proof.
  assert (Z0 : forall w, pending 0 w -> (List.length (frameQueue (host w)) <= 1)%nat).
  { unfold pending. intros w ->. lia. }
  unfold constructor. sat_steps.
  destruct (resolve env arg) as [e|]; sat_steps; [|simpl; lia].
  eapply (keeps_sat (pending 0));
    [apply pending_initWebGL | reflexivity | intros ? w1 Q1 | exact Z0].
  sat_steps.
  eapply (keeps_sat (pending 0));
    [ | exact Q1 | intros ? w2 Q2 | exact Z0].
  { destruct (adaptivePerformance _);
      [apply pending_checkPerformance | apply keeps_ret]. }
  sat_steps.
  eapply (keeps_sat (pending 0));
    [apply pending_createNodes | exact Q2 | intros ? w3 Q3 | exact Z0].
  sat_steps.
  eapply (keeps_sat (pending 0));
    [apply pending_setupEventListeners | exact Q3 | intros ? w4 Q4 | exact Z0].
  sat_steps.
  eapply (keeps_sat (pending 0));
    [apply pending_resize | exact Q4 | intros ? w5 Q5 | exact Z0].
  sat_steps.
  eapply sat_mono; [apply runLoop_requests_one | |];
    cbv beta; unfold pending in *; intros; lia.
Qed.

(** X9. The render loop neither stops nor multiplies.  Whatever happens
    to an instance after construction (frames, resizes, pointer events,
    option updates, disposal), as many frame callbacks are pending as
    when the constructor finished, and that is at most one: [destroy]
    cancels no frame, and a frame callback requests its successor before
    anything in it can throw. *)
Theorem render_loop_never_stops (arg : ContainerArg) (opts : PartialOptions)
    (r : R * R) (evs : list Event) :
  List.length (frameQueue (host (session env arg opts r evs))) =
    List.length (frameQueue (host (snd (construct env arg opts r)))) /\
  (List.length (frameQueue (host (session env arg opts r evs))) <= 1)%nat.
Proof.
  assert (C : (List.length (frameQueue (host (snd (construct env arg opts r)))) <= 1)%nat).
  { unfold construct. pose proof (constructor_pending arg opts r) as S.
    unfold sat in S.
    destruct (constructor env arg opts (blankWorld r)) as [[a|e] w];
      cbn [snd]; fields; exact S. }
  assert (E : List.length (frameQueue (host (session env arg opts r evs))) =
              List.length (frameQueue (host (snd (construct env arg opts r))))).
  { unfold session. apply (run_pending _ evs). reflexivity. }
  split; [exact E | rewrite E; exact C].
Qed.

End Pending.

(* ------------------------------------------------------------------------- *)
(** ** The registered listeners *)

Section Listeners.

Variable env : Env.

Lemma fresh_listen t ty b : keeps freshListeners (listen t ty b).
Proof.
  intros w H. unfold listen. sat_steps.
  assert (F : Forall (fun l => (fn_id (l_fn l) < S (nextFn (host w)))%nat)
                     (listeners (host w))).
  { eapply Forall_impl; [|exact H]. cbv beta. intros l Hl. lia. }
  unfold freshListeners. destruct (existsb _ _); fields; [exact F|].
  apply Forall_app. split; [exact F|]. constructor; [simpl; lia | constructor].
Qed.

Ltac fresh_method :=
  match goal with
  | |- keeps _ (listen _ _ _) => apply fresh_listen
  end.

Ltac fresh_keeps := repeat first [ fresh_method | open_method | assignment ].

Lemma fresh_initWebGL : keeps freshListeners (initWebGL env).
Proof. fresh_keeps. Qed.

Lemma fresh_checkPerformance : keeps freshListeners (checkPerformance env).
Proof. fresh_keeps. Qed.

Lemma fresh_createNodes : keeps freshListeners (createNodes env).
Proof. fresh_keeps. Qed.

Lemma fresh_setupEventListeners : keeps freshListeners (setupEventListeners env).
Proof. fresh_keeps. Qed.

Lemma fresh_resize : keeps freshListeners (resize env).
Proof. fresh_keeps. Qed.

Lemma fresh_runLoop l now : keeps freshListeners (runLoop l now).
Proof. fresh_keeps. Qed.

Lemma fresh_constructor arg opts : keeps freshListeners (constructor env arg opts).
Proof.
  unfold constructor.
  repeat first
    [ match goal with
      | |- keeps _ (initWebGL _) => apply fresh_initWebGL
      | |- keeps _ (checkPerformance _) => apply fresh_checkPerformance
      | |- keeps _ (createNodes _) => apply fresh_createNodes
      | |- keeps _ (setupEventListeners _) => apply fresh_setupEventListeners
      | |- keeps _ (resize _) => apply fresh_resize
      | |- keeps _ (runLoop _ _) => apply fresh_runLoop
      end
    | open_method | assignment ].
Qed.

(** [removeEventListener] with a function made for the call finds no
    registration of it. *)
Lemma settled_unlisten L t ty b : keeps (settled L) (unlisten t ty b).
Proof.
  intros w [HL HF]. unfold unlisten. sat_steps. unfold settled, freshListeners in *.
  fields.
  assert (E : filter (fun l => negb (sameListener t ty (mkFn (nextFn (host w)) b) l))
                     (listeners (host w)) = listeners (host w)).
  { revert HF. generalize (listeners (host w)). intros ls HF.
    induction HF as [|l ls Hl _ IH]; [reflexivity|]. cbn [filter].
    replace (sameListener t ty (mkFn (nextFn (host w)) b) l) with false.
    - cbn [negb]. rewrite IH. reflexivity.
    - symmetry. unfold sameListener. cbn [fn_id].
      replace (Nat.eqb (nextFn (host w)) (fn_id (l_fn l))) with false.
      + apply andb_false_r.
      + symmetry. apply Nat.eqb_neq. lia. }
  rewrite E. split; [exact HL|].
  eapply Forall_impl; [|exact HF]. cbv beta. intros l Hl. lia.
Qed.

Ltac settled_method :=
  match goal with
  | |- keeps _ (unlisten _ _ _) => apply settled_unlisten
  end.

Ltac settled_keeps := repeat first [ settled_method | open_method | assignment ].

Lemma settled_runHandler L body ev : keeps (settled L) (runHandler env body ev).
Proof. settled_keeps. Qed.

Lemma settled_runLoop L l now : keeps (settled L) (runLoop l now).
Proof. settled_keeps. Qed.

Lemma settled_updateOptions L p : keeps (settled L) (updateOptions env p).
Proof. settled_keeps. Qed.

Lemma settled_destroy L : keeps (settled L) destroy.
Proof. settled_keeps. Qed.

Lemma deliver_settled L ev w : settled L w -> settled L (deliver env ev w).
Proof.
  intros H. apply deliver_keeps; auto.
  - intros t ty w' H'. apply dispatch_keeps; [|exact H'].
    intros body. apply settled_runHandler.
  - intros l q now _ Q. apply keeps_callback; [apply settled_runLoop | exact H].
  - intros p _. apply settled_updateOptions.
  - apply settled_destroy.
Qed.

Lemma run_settled L evs w : settled L w -> settled L (run env evs w).
Proof.
  revert w. induction evs as [|ev evs IH]; intros w H; simpl; auto.
  apply IH, deliver_settled, H.
Qed.

(** X10. No listener is ever detached.  The listeners registered when
    the constructor finished, in the same order, are the listeners at
    every later moment, whatever happens to the instance, [destroy]
    included: each [removeEventListener] of [destroy] is handed a function
    made for that very call, which was never registered. *)
Theorem listeners_never_detached (arg : ContainerArg) (opts : PartialOptions)
    (r : R * R) (evs : list Event) :
  listeners (host (session env arg opts r evs)) =
    listeners (host (snd (construct env arg opts r))).
Proof.
  unfold session.
  apply (run_settled (listeners (host (snd (construct env arg opts r)))) evs).
  split; [reflexivity|].
  unfold construct.
  pose proof (fresh_constructor arg opts (blankWorld r)) as S.
  unfold sat in S.
  destruct (constructor env arg opts (blankWorld r)) as [[a|e] w]; cbn [snd];
    apply S; constructor.
Qed.

End Listeners.

(* ------------------------------------------------------------------------- *)
(** ** An instance that is not interactive *)

Section Pointer.

Variable env : Env.

Lemma off_unlisten t ty b : keeps pointerOff (unlisten t ty b).
Proof.
  intros w [A F]. unfold unlisten. sat_steps. split; fields; [exact A|].
  apply incl_Forall with (l1 := listeners (host w)); [|exact F].
  intros l Hl. apply filter_In in Hl. tauto.
Qed.

Ltac off_method :=
  match goal with
  | |- keeps _ (unlisten _ _ _) => apply off_unlisten
  end.

Ltac off_keeps := repeat first [ off_method | open_method | assignment ].

Lemma off_resize : keeps pointerOff (resize env).
Proof. off_keeps. Qed.

Lemma off_runLoop l now : keeps pointerOff (runLoop l now).
Proof. off_keeps. Qed.

Lemma off_updateOptions p : keeps pointerOff (updateOptions env p).
Proof. off_keeps. Qed.

Lemma off_destroy : keeps pointerOff destroy.
Proof. off_keeps. Qed.

Lemma off_passive body ev :
  body = HResize \/ body = HVisibility -> keeps pointerOff (runHandler env body ev).
Proof.
  intros [-> | ->]; cbn [runHandler]; [apply off_resize|].
  destruct ev; off_keeps.
Qed.

Lemma dispatch_off t ty ev w : pointerOff w -> pointerOff (dispatch env t ty ev w).
Proof.
  intros H. unfold dispatch.
  assert (F : Forall passive (listeners (host w))) by apply H.
  revert F H. generalize (listeners (host w)). intros ls F. revert w.
  induction F as [|l ls Hl _ IH]; intros w H; simpl; auto.
  apply IH. destruct (_ && _); auto.
  apply keeps_callback; [apply off_passive; exact Hl | exact H].
Qed.

Lemma deliver_off ev w : pointerOff w -> pointerOff (deliver env ev w).
Proof.
  intros H. apply deliver_keeps; auto.
  - intros t ty w'. apply dispatch_off.
  - intros l q now _ Q. apply keeps_callback; [apply off_runLoop | exact H].
  - intros p _. apply off_updateOptions.
  - apply off_destroy.
Qed.

Lemma run_off evs w : pointerOff w -> pointerOff (run env evs w).
Proof.
  revert w. induction evs as [|ev evs IH]; intros w H; simpl; auto.
  apply IH, deliver_off, H.
Qed.

Lemma quiet_listen t ty b :
  b = HResize \/ b = HVisibility -> keeps notInteractive (listen t ty b).
Proof.
  intros Hb w (I & A & F). unfold listen. sat_steps.
  unfold notInteractive, pointerOff.
  destruct (existsb _ _); fields; repeat split; auto.
  apply Forall_app. split; [exact F|]. constructor; [exact Hb | constructor].
Qed.

Ltac quiet_keeps := repeat first [ open_method | assignment ].

Lemma quiet_initWebGL : keeps notInteractive (initWebGL env).
Proof. quiet_keeps. Qed.

Lemma quiet_checkPerformance : keeps notInteractive (checkPerformance env).
Proof. quiet_keeps. Qed.

Lemma quiet_createNodes : keeps notInteractive (createNodes env).
Proof. quiet_keeps. Qed.

Lemma quiet_resize : keeps notInteractive (resize env).
Proof. quiet_keeps. Qed.

Lemma quiet_runLoop l now : keeps notInteractive (runLoop l now).
Proof. quiet_keeps. Qed.

(** With [interactive] off, [setupEventListeners] registers the resize
    and the visibility listener only. *)
Lemma quiet_setupEventListeners : keeps notInteractive (setupEventListeners env).
Proof.
  intros w H. unfold setupEventListeners.
  apply sat_bind. eapply (keeps_sat notInteractive);
    [apply quiet_listen; auto | exact H | intros ? w1 H1 | auto].
  sat_steps. destruct H1 as [I1 O1]. rewrite I1. cbv iota. sat_steps.
  assert (H1 : notInteractive w1) by (split; assumption).
  eapply (keeps_sat notInteractive); [ | exact H1 | intros ? w2 H2 | auto].
  { quiet_keeps. }
  apply quiet_listen; auto.
Qed.

Lemma constructor_off arg opts r :
  p_interactive opts = Some false ->
  sat (constructor env arg opts) (blankWorld r) (fun _ => pointerOff) pointerOff.
Proof.
  intros I. unfold constructor. sat_steps.
  destruct (resolve env arg) as [e|]; sat_steps.
  2:{ split; fields; [reflexivity | constructor]. }
  match goal with
  | |- sat _ ?w _ _ => assert (H0 : notInteractive w)
  end.
  { unfold notInteractive, pointerOff, spread. fields. rewrite I.
    repeat split. constructor. }
  assert (Z0 : forall w, notInteractive w -> pointerOff w) by (intros w H; apply H).
  eapply (keeps_sat notInteractive);
    [apply quiet_initWebGL | exact H0 | intros ? w1 Q1 | exact Z0].
  sat_steps.
  eapply (keeps_sat notInteractive);
    [ | exact Q1 | intros ? w2 Q2 | exact Z0].
  { destruct (adaptivePerformance _);
      [apply quiet_checkPerformance | apply keeps_ret]. }
  sat_steps.
  eapply (keeps_sat notInteractive);
    [apply quiet_createNodes | exact Q2 | intros ? w3 Q3 | exact Z0].
  sat_steps.
  eapply (keeps_sat notInteractive);
    [apply quiet_setupEventListeners | exact Q3 | intros ? w4 Q4 | exact Z0].
  sat_steps.
  eapply (keeps_sat notInteractive);
    [apply quiet_resize | exact Q4 | intros ? w5 Q5 | exact Z0].
  sat_steps.
  eapply (keeps_sat notInteractive);
    [apply quiet_runLoop | exact Q5 | intros ? ?; apply Z0 | exact Z0].
Qed.

(** X11. An instance constructed with [interactive: false] never has an
    active pointer: no pointer or touch event reaches it, and switching
    [interactive] on later with [updateOptions] changes nothing, because
    the pointer listeners are registered by the constructor only. *)
Theorem pointer_stays_off (arg : ContainerArg) (opts : PartialOptions)
    (r : R * R) (evs : list Event) :
  p_interactive opts = Some false ->
  m_active (mouse (inst (session env arg opts r evs))) = false.
Proof.
  intros I. unfold session. apply run_off.
  unfold construct. pose proof (constructor_off arg opts r I) as S.
  unfold sat in S.
  destruct (constructor env arg opts (blankWorld r)) as [[a|e] w]; cbn [snd];
    destruct S as [A F]; split; fields; assumption.
Qed.

End Pointer.

Lemma pointer_stays_off_witness :
  m_active (mouse (inst (session desktopPage (Element (Some 0%nat))
                           notInteractiveOptions (1920, 1080)
                           [EvUpdateOptions interactiveOptions; EvMouseEnter;
                            EvMouseMove 5 5]))) = false.
Proof.
  apply (pointer_stays_off desktopPage (Element (Some 0%nat))
           notInteractiveOptions (1920, 1080)
           [EvUpdateOptions interactiveOptions; EvMouseEnter; EvMouseMove 5 5]).
  reflexivity.
Defined.

(* ------------------------------------------------------------------------- *)
(** ** The nodes of an instance nobody updated *)

Section NoNodes.

Variable env : Env.

Lemma unsized_createNodes : keeps unsized (createNodes env).
Proof.
  intros w (N & Hw & Hh). unfold sat. rewrite createNodes_eq.
  unfold unsized. fields.
  rewrite adjust_zero_area by (rewrite Hw; ring). simpl. auto.
Qed.

Ltac unsized_method :=
  match goal with
  | |- keeps _ (createNodes _) => apply unsized_createNodes
  end.

Ltac unsized_keeps := repeat first [ unsized_method | open_method | assignment ].

Lemma unsized_initWebGL : keeps unsized (initWebGL env).
Proof. unsized_keeps. Qed.

Lemma unsized_checkPerformance : keeps unsized (checkPerformance env).
Proof. unsized_keeps. Qed.

Lemma unsized_setupEventListeners : keeps unsized (setupEventListeners env).
Proof. unsized_keeps. Qed.

Lemma none_resize : keeps noNodes (resize env).
Proof.
  intros w N. unfold sat, noNodes in *. destruct (gl (inst w)) eqn:G.
  - rewrite resize_eq by exact G. fields. rewrite N. reflexivity.
  - rewrite resize_null by exact G. fields. exact N.
Qed.

Lemma none_doUpdateNodes : keeps noNodes doUpdateNodes.
Proof.
  unfold doUpdateNodes. apply keeps_setThis. intros w N.
  unfold noNodes in *. fields. rewrite N. reflexivity.
Qed.

Ltac none_method :=
  match goal with
  | |- keeps _ (resize _) => apply none_resize
  | |- keeps _ doUpdateNodes => apply none_doUpdateNodes
  end.

Ltac none_keeps := repeat first [ none_method | open_method | assignment ].

Lemma none_runLoop l now : keeps noNodes (runLoop l now).
Proof. none_keeps. Qed.

Lemma none_runHandler body ev : keeps noNodes (runHandler env body ev).
Proof. none_keeps. Qed.

Lemma none_destroy : keeps noNodes destroy.
Proof. none_keeps. Qed.

Lemma none_updateOptions p :
  p_nodeCount p = None -> keeps noNodes (updateOptions env p).
Proof. intros C. unfold updateOptions. rewrite C. none_keeps. Qed.

Lemma deliver_none ev w : keepsCount ev -> noNodes w -> noNodes (deliver env ev w).
Proof.
  intros K H. apply deliver_keeps; auto.
  - intros t ty w' H'. apply dispatch_keeps; [|exact H'].
    intros body. apply none_runHandler.
  - intros l q now _ Q. apply keeps_callback; [apply none_runLoop | exact H].
  - intros p ->. apply none_updateOptions. exact K.
  - apply none_destroy.
Qed.

Lemma run_none evs w : Forall keepsCount evs -> noNodes w -> noNodes (run env evs w).
Proof.
  intros F. revert w. induction F as [|ev evs K _ IH]; intros w H; simpl; auto.
  apply IH, deliver_none; assumption.
Qed.

Lemma constructor_none arg opts r :
  sat (constructor env arg opts) (blankWorld r) (fun _ => noNodes) noNodes.
Proof.
  unfold constructor. sat_steps.
  destruct (resolve env arg) as [e|]; sat_steps; [|reflexivity].
  match goal with
  | |- sat _ ?w _ _ => assert (H0 : unsized w) by (repeat split)
  end.
  assert (Z0 : forall w, unsized w -> noNodes w) by (intros w H; apply H).
  eapply (keeps_sat unsized);
    [apply unsized_initWebGL | exact H0 | intros ? w1 Q1 | exact Z0].
  sat_steps.
  eapply (keeps_sat unsized);
    [ | exact Q1 | intros ? w2 Q2 | exact Z0].
  { destruct (adaptivePerformance _);
      [apply unsized_checkPerformance | apply keeps_ret]. }
  sat_steps.
  eapply (keeps_sat unsized);
    [apply unsized_createNodes | exact Q2 | intros ? w3 Q3 | exact Z0].
  sat_steps.
  eapply (keeps_sat unsized);
    [apply unsized_setupEventListeners | exact Q3 | intros ? w4 Q4 | exact Z0].
  sat_steps.
  eapply (keeps_sat noNodes);
    [apply none_resize | exact (Z0 _ Q4) | intros ? w5 Q5 | auto].
  sat_steps.
  eapply (keeps_sat noNodes); [apply none_runLoop | exact Q5 | auto | auto].
Qed.

(** X12. On every page and with every option, an instance has no node
    until [updateOptions] is called with a [nodeCount]: the constructor
    (and [fallbackToCanvas] inside it) seeds while the canvas is still
    0 x 0, and neither a resize, a frame, a pointer event, an update of
    other options nor [destroy] seeds or adds a node. *)
Theorem no_node_before_update (arg : ContainerArg) (opts : PartialOptions)
    (r : R * R) (evs : list Event) :
  Forall keepsCount evs ->
  nodes (inst (session env arg opts r evs)) = [].
Proof.
  intros F. unfold session. apply run_none; [exact F|].
  unfold construct. pose proof (constructor_none arg opts r) as S.
  unfold sat in S.
  destruct (constructor env arg opts (blankWorld r)) as [[a|e] w]; cbn [snd];
    exact S.
Qed.

End NoNodes.

Lemma no_node_before_update_witness :
  nodes (inst (session desktopPage (Element (Some 0%nat)) manyNodes (1920, 1080)
                 [EvResize 800 600; EvFrame 16;
                  EvUpdateOptions notInteractiveOptions; EvFrame 32])) = [].
Proof.
  apply (no_node_before_update desktopPage (Element (Some 0%nat)) manyNodes
           (1920, 1080)
           [EvResize 800 600; EvFrame 16;
            EvUpdateOptions notInteractiveOptions; EvFrame 32]).
  repeat constructor.
Defined.

(* ------------------------------------------------------------------------- *)
(** ** The canvas fallback *)

Section Canvas.

Variable env : Env.

Ltac canvas_keeps := repeat first [ open_method | assignment ].

Lemma only_runHandler body ev : keeps noCanvasFrame (runHandler env body ev).
Proof. unfold noCanvasFrame, glLoopOnly. canvas_keeps. Qed.

Lemma only_updateOptions p : keeps noCanvasFrame (updateOptions env p).
Proof. unfold noCanvasFrame, glLoopOnly. canvas_keeps. Qed.

Lemma only_destroy : keeps noCanvasFrame destroy.
Proof. unfold noCanvasFrame, glLoopOnly. canvas_keeps. Qed.

(** [animate] draws with GL only and requests itself. *)
Lemma only_animate now : keeps glLoopOnly (animate now).
Proof.
  intros w (C & A & F). unfold animate. sat_steps.
  eapply (keeps_sat glLoopOnly); [ | | auto | auto ].
  - unfold glLoopOnly. canvas_keeps.
  - unfold glLoopOnly. fields. repeat split; auto.
    apply Forall_app. split; [exact F|]. constructor; [symmetry; exact A | constructor].
Qed.

Lemma deliver_only ev w : noCanvasFrame w -> noCanvasFrame (deliver env ev w).
Proof.
  intros H. apply deliver_keeps; auto.
  - intros t ty w' H'. apply dispatch_keeps; [|exact H'].
    intros body. apply only_runHandler.
  - intros l q now _ Q. destruct H as [C [E | (_ & A & F)]]; [congruence|].
    rewrite Q in F. inversion F as [|? ? <- Fq]; subst.
    assert (G : glLoopOnly (callback (runLoop WebGLLoop now)
                  (mkWorld (inst w) (with_frameQueue q (host w))))).
    { apply keeps_callback; [apply only_animate|].
      unfold glLoopOnly. fields. auto. }
    split; [apply G | right; exact G].
  - intros p _. apply only_updateOptions.
  - apply only_destroy.
Qed.

Lemma run_only evs w : noCanvasFrame w -> noCanvasFrame (run env evs w).
Proof.
  revert w. induction evs as [|ev evs IH]; intros w H; simpl; auto.
  apply IH, deliver_only, H.
Qed.

Lemma ready_rest :
  keeps glLoopReady (createNodes env) /\
  keeps glLoopReady (checkPerformance env) /\
  keeps glLoopReady (setupEventListeners env) /\
  keeps glLoopReady (resize env) /\
  keeps glLoopReady (setupShaders env) /\
  keeps glLoopReady createBuffers.
Proof. unfold glLoopReady. repeat split; canvas_keeps. Qed.

Lemma stalled_rest :
  keeps stalled (createNodes env) /\
  keeps stalled (checkPerformance env) /\
  keeps stalled (setupEventListeners env) /\
  keeps stalled (setupShaders env) /\
  keeps stalled createBuffers /\
  keeps stalled (fallbackToCanvas env).
Proof.
  unfold stalled. repeat split; canvas_keeps.
  apply keeps_setThis. intros w H. fields. tauto.
Qed.

Lemma stalled_resize w :
  stalled w -> sat (resize env) w (fun _ _ => False) stalled.
Proof.
  intros (C & Q & G). unfold sat. rewrite resize_null by exact G.
  unfold stalled. fields. auto.
Qed.

Lemma constructor_only arg opts r :
  sat (constructor env arg opts) (blankWorld r)
      (fun _ => noCanvasFrame) noCanvasFrame.
Proof.
  assert (Z1 : forall w, glLoopReady w -> noCanvasFrame w).
  { intros w (C & Q & A). split; auto. }
  assert (Z2 : forall w, stalled w -> noCanvasFrame w).
  { intros w (C & Q & A). split; auto. }
  destruct ready_rest as (R1 & R2 & R3 & R4 & R5 & R6).
  destruct stalled_rest as (S1 & S2 & S3 & S5 & S6 & S7).
  unfold constructor. sat_steps.
  destruct (resolve env arg) as [e|]; sat_steps.
  2:{ split; fields; auto. }
  unfold initWebGL at 1. sat_steps.
  destruct (glAvailable env) eqn:GL; cbn [negb]; sat_steps.
  - match goal with
    | |- sat _ ?w _ _ => assert (H0 : glLoopReady w) by (repeat split)
    end.
    eapply (keeps_sat glLoopReady); [exact R5 | exact H0 | intros ? w1 Q1 | exact Z1].
    eapply (keeps_sat glLoopReady); [exact R6 | exact Q1 | intros ? w2 Q2 | exact Z1].
    sat_steps.
    eapply (keeps_sat glLoopReady); [ | exact Q2 | intros ? w3 Q3 | exact Z1].
    { destruct (adaptivePerformance _); [exact R2 | apply keeps_ret]. }
    sat_steps.
    eapply (keeps_sat glLoopReady); [exact R1 | exact Q3 | intros ? w4 Q4 | exact Z1].
    sat_steps.
    eapply (keeps_sat glLoopReady); [exact R3 | exact Q4 | intros ? w5 Q5 | exact Z1].
    sat_steps.
    eapply (keeps_sat glLoopReady); [exact R4 | exact Q5 | intros ? w6 Q6 | exact Z1].
    sat_steps. destruct Q6 as (C6 & F6 & A6). rewrite A6. cbn [runLoop].
    eapply (keeps_sat glLoopOnly); [apply only_animate | | | ].
    + repeat split; auto. rewrite F6. constructor.
    + intros ? w7 G. split; [apply G | right; exact G].
    + intros w7 G. split; [apply G | right; exact G].
  - match goal with
    | |- sat _ ?w _ _ => assert (H0 : stalled w) by (repeat split)
    end.
    eapply (keeps_sat stalled); [exact S7 | exact H0 | intros ? w1 Q1 | exact Z2].
    sat_steps.
    eapply (keeps_sat stalled); [ | exact Q1 | intros ? w3 Q3 | exact Z2].
    { destruct (adaptivePerformance _); [exact S2 | apply keeps_ret]. }
    sat_steps.
    eapply (keeps_sat stalled); [exact S1 | exact Q3 | intros ? w4 Q4 | exact Z2].
    sat_steps.
    eapply (keeps_sat stalled); [exact S3 | exact Q4 | intros ? w5 Q5 | exact Z2].
    sat_steps.
    eapply sat_mono; [apply stalled_resize; exact Q5 | intros ? ? [] | exact Z2].
Qed.

(** X13. The canvas fallback never draws.  On every page and in every
    session nothing is ever drawn on a 2D context and [animateCanvas] is
    never a pending frame callback: when no GL context can be had, the
    constructor installs the fallback and then throws at its next GL
    call, before it requests the first frame. *)
Theorem canvas_fallback_never_draws (arg : ContainerArg) (opts : PartialOptions)
    (r : R * R) (evs : list Event) :
  ctxOps (host (session env arg opts r evs)) = [] /\
  ~ In CanvasLoop (frameQueue (host (session env arg opts r evs))).
Proof.
  assert (H : noCanvasFrame (session env arg opts r evs)).
  { unfold session. apply run_only.
    unfold construct. pose proof (constructor_only arg opts r) as S.
    unfold sat in S.
    destruct (constructor env arg opts (blankWorld r)) as [[a|e] w]; cbn [snd];
      (destruct S as [C [Q | (C' & A & F)]];
       [split; fields; auto | split; fields; [exact C | right; repeat split; auto]]). }
  destruct H as [C [Q | (_ & A & F)]]; split; auto.
  - rewrite Q. intros [].
  - intros I. rewrite Forall_forall in F. specialize (F _ I). discriminate.
Qed.

End Canvas.

(* ------------------------------------------------------------------------- *)
(** ** One frame *)

Lemma sat_frame (now : R) (w : World) (np cp : Program) :
  gl (inst w) = true ->
  isVisible (inst w) = true -> shouldRender (inst w) = true ->
  nodeProgram (inst w) = Some np -> connectionProgram (inst w) = Some cp ->
  let i := inst w in
  let ns := updateNodes (options i) (width i) (height i) now (mouse i) (nodes i) in
  let segs := connectionsOf (connectionDistance (options i)) (mouse i) ns in
  sat (animate now) w
      (fun _ w' =>
         inst w' = with_nodes ns (with_time now i) /\
         glCalls (host w') =
           glCalls (host w) ++ frameCalls i (List.length (nodes i)) (List.length segs) /\
         glLive (host w') = glLive (host w) /\
         frameQueue (host w') = frameQueue (host w) ++ [animate_ i])
      (fun _ => False).
Proof.
  intros G V S NP CP. cbv zeta.
  unfold animate. sat_steps. rewrite V, S. cbn [negb orb].
  unfold doUpdateNodes, prepareNodeData, prepareConnectionData, clear,
    renderConnections, renderNodes.
  repeat first
    [ sat_step
    | match goal with
      | |- sat (glCall _) _ _ _ =>
          apply sat_glCall; fields; [intros _ | rewrite G; discriminate]
      | |- sat (property _) _ _ _ =>
          apply sat_property; fields; [intros ? _ | rewrite ?NP, ?CP; discriminate]
      end ].
  rewrite flatten_length.
  replace (Nat.div (4 * List.length
             (connectionsOf (connectionDistance (options (inst w))) (mouse (inst w))
                (updateNodes (options (inst w)) (width (inst w)) (height (inst w)) now
                   (mouse (inst w)) (nodes (inst w))))) 2)
    with (2 * List.length
             (connectionsOf (connectionDistance (options (inst w))) (mouse (inst w))
                (updateNodes (options (inst w)) (width (inst w)) (height (inst w)) now
                   (mouse (inst w)) (nodes (inst w)))))%nat.
  2:{ apply Nat.div_unique_exact; lia. }
  assert (L : List.length
                (updateNodes (options (inst w)) (width (inst w)) (height (inst w)) now
                   (mouse (inst w)) (nodes (inst w)))
              = List.length (nodes (inst w))).
  { unfold updateNodes. apply length_map. }
  rewrite !L.
  split; [reflexivity|]. split; [|split; reflexivity].
  unfold frameCalls. rewrite <- !app_assoc. reflexivity.
Qed.

(** X8. The recorded calls of one frame.  A frame of a visible instance
    that has its GL context (not lost) and both programs returns; it
    requests the next frame, stores the time and moves every node by one
    tick; and of the kinds of GL call the trace records (buffer uploads,
    [clearColor], [clear], [useProgram], [drawArrays]) it makes exactly
    these, in this order: the upload of the node positions, of the node
    sizes and of the connections of the moved nodes, the clear, the
    connection program and its lines (two vertices each), the node
    program and its points.  It creates and deletes no GL object. *)
Theorem frame_draws (now : R) (w : World) (np cp : Program) :
  gl (inst w) = true ->
  isVisible (inst w) = true -> shouldRender (inst w) = true ->
  nodeProgram (inst w) = Some np -> connectionProgram (inst w) = Some cp ->
  let i := inst w in
  let ns := updateNodes (options i) (width i) (height i) now (mouse i) (nodes i) in
  let segs := connectionsOf (connectionDistance (options i)) (mouse i) ns in
  let w' := snd (animate now w) in
  fst (animate now w) = Ok tt /\
  inst w' = with_nodes ns (with_time now i) /\
  glCalls (host w') =
    glCalls (host w) ++ frameCalls i (List.length (nodes i)) (List.length segs) /\
  glLive (host w') = glLive (host w) /\
  frameQueue (host w') = frameQueue (host w) ++ [animate_ i].
Proof.
  intros G V S NP CP. cbv zeta.
  pose proof (sat_frame now w np cp G V S NP CP) as K. cbv zeta in K.
  unfold sat in K.
  destruct (animate now w) as [[[]|e] w']; [|contradiction].
  cbn [fst snd]. split; [reflexivity | exact K].
Qed.

Lemma frame_draws_witness :
  let i := inst desktopSeeded in
  let ns := updateNodes (options i) (width i) (height i) 16 (mouse i) (nodes i) in
  let segs := connectionsOf (connectionDistance (options i)) (mouse i) ns in
  let w' := snd (animate 16 desktopSeeded) in
  fst (animate 16 desktopSeeded) = Ok tt /\
  inst w' = with_nodes ns (with_time 16 i) /\
  glCalls (host w') =
    glCalls (host desktopSeeded)
    ++ frameCalls i (List.length (nodes i)) (List.length segs) /\
  glLive (host w') = glLive (host desktopSeeded) /\
  frameQueue (host w') = frameQueue (host desktopSeeded) ++ [animate_ i].
Proof.
  apply (frame_draws 16 desktopSeeded NodeProgram ConnectionProgram);
    reflexivity.
Defined.

(** A frame of a paused instance only requests the next frame. *)
Lemma paused_frame l now w :
  paused w ->
  exists q, runLoop l now w = (Ok tt, mkWorld (inst w) (with_frameQueue q (host w))).
Proof.
  intros P.
  assert (B : negb (isVisible (inst w)) || negb (shouldRender (inst w)) = true).
  { destruct P as [-> | ->]; [reflexivity | apply orb_true_r]. }
  destruct l; cbn [runLoop];
    unfold animate, animateCanvas, requestAnimationFrame, bind, this, setPage, ret;
    fields; rewrite B; eexists; reflexivity.
Qed.

(** X14. A paused instance draws nothing, however many frames pass:
    while it is out of view, or after the page was hidden or [destroy]
    was called, the frames that run leave the instance as it is (its
    time and its nodes included) and make no GL call and no 2D call. *)
Theorem paused_frames_draw_nothing (env : Env) (times : list R) (w : World) :
  paused w ->
  let w' := run env (map EvFrame times) w in
  inst w' = inst w /\
  glCalls (host w') = glCalls (host w) /\
  glLive (host w') = glLive (host w) /\
  ctxOps (host w') = ctxOps (host w).
Proof.
  cbv zeta. revert w. induction times as [|now times IH]; intros w P.
  - simpl. auto.
  - cbn [map run fold_left]. fold (run env (map EvFrame times) (deliver env (EvFrame now) w)).
    assert (D : exists q, deliver env (EvFrame now) w
                          = mkWorld (inst w) (with_frameQueue q (host w))).
    { cbn [deliver]. destruct (frameQueue (host w)) as [|l q] eqn:Q.
      - exists []. destruct w as [i h]. cbn [inst host] in *.
        destruct h; cbn in Q |- *; subst; reflexivity.
      - destruct (paused_frame l now (mkWorld (inst w) (with_frameQueue q (host w))) P)
          as [q' E].
        exists q'. unfold callback. rewrite E. reflexivity. }
    destruct D as [q ->].
    destruct (IH (mkWorld (inst w) (with_frameQueue q (host w))) P) as (A & B & C & D).
    auto.
Qed.

Lemma paused_frames_draw_nothing_witness :
  let w := run desktopPage [EvDestroy] desktopSeeded in
  let w' := run desktopPage (map EvFrame [16; 32; 48]) w in
  inst w' = inst w /\
  glCalls (host w') = glCalls (host w) /\
  glLive (host w') = glLive (host w) /\
  ctxOps (host w') = ctxOps (host w).
Proof.
  apply (paused_frames_draw_nothing desktopPage [16; 32; 48]
           (run desktopPage [EvDestroy] desktopSeeded)).
  right. vm_compute. reflexivity.
Defined.

(* ------------------------------------------------------------------------- *)
(** ** What the performance check does to the options *)

Section Lowering.

Variable env : Env.
Variable o0 : Options.

Lemma floor_scaled (n : Z) (k : R) :
  (0 <= n)%Z -> 0 <= k <= 1 -> (0 <= Zfloor (IZR n * k) <= n)%Z.
Proof.
  intros Hn Hk. apply IZR_le in Hn. split.
  - apply Zfloor_lub. simpl. nra.
  - apply le_IZR. pose proof (Zfloor_bound (IZR n * k)). nra.
Qed.

Lemma floor_scaled_R (d k : R) :
  0 <= d -> 0 <= k <= 1 -> 0 <= IZR (Zfloor (d * k)) <= d.
Proof.
  intros Hd Hk. split.
  - apply IZR_le. apply Zfloor_lub. simpl. nra.
  - pose proof (Zfloor_bound (d * k)). nra.
Qed.

Lemma lowered_setOptions f :
  (forall o, lowered o0 o -> lowered o0 (f o)) -> keeps (loweredIn o0) (setOptions f).
Proof.
  intros H. unfold setOptions. apply keeps_setThis. intros w L.
  unfold loweredIn in *. fields. apply H, L.
Qed.

Ltac lowered_method :=
  match goal with
  | |- keeps _ (setOptions _) =>
      apply lowered_setOptions;
      let o := fresh "o" in
      intros o (N & D & S & F & R1 & R2 & R3 & R4 & R5);
      unfold lowered; fields
  end.

Lemma lowered_checkPerformance : keeps (loweredIn o0) (checkPerformance env).
Proof.
  unfold checkPerformance, runWebGLBenchmark.
  repeat first [ lowered_method | open_method | assignment ];
    repeat split; try tauto; try lra; try lia;
    try (pose proof (floor_scaled (nodeCount o) 0.3 (proj1 N) ltac:(lra)); lia);
    try (pose proof (floor_scaled (nodeCount o) 0.5 (proj1 N) ltac:(lra)); lia);
    try (pose proof (floor_scaled (nodeCount o) 0.6 (proj1 N) ltac:(lra)); lia);
    try (pose proof (floor_scaled (nodeCount o) 0.7 (proj1 N) ltac:(lra)); lia);
    try (pose proof (floor_scaled_R (connectionDistance o) 0.7 (proj1 D) ltac:(lra)); lra);
    try (pose proof (floor_scaled_R (connectionDistance o) 0.8 (proj1 D) ltac:(lra)); lra).
Qed.

End Lowering.

(** X15. [checkPerformance] only lowers.  Whether it returns or throws,
    when the node count, the connection distance and the speed it starts
    from are not negative, it leaves each of them between zero and what
    it was, switches the data-flow effect off or leaves it, and leaves
    every other option as it was. *)
Theorem checkPerformance_only_lowers (env : Env) (w : World) :
  (0 <= nodeCount (options (inst w)))%Z ->
  0 <= connectionDistance (options (inst w)) ->
  0 <= speed (options (inst w)) ->
  lowered (options (inst w)) (options (inst (snd (checkPerformance env w)))).
Proof.
  intros N D S.
  assert (L : loweredIn (options (inst w)) w).
  { unfold loweredIn, lowered. repeat split; try lia; try lra.
    destruct (dataFlowEffect _); simpl; auto. }
  pose proof (lowered_checkPerformance env (options (inst w)) w L) as K.
  unfold sat in K.
  destruct (checkPerformance env w) as [[a|e] w']; cbn [snd]; exact K.
Qed.

Lemma checkPerformance_only_lowers_witness :
  lowered (options (inst desktopWorld))
          (options (inst (snd (checkPerformance desktopPage desktopWorld)))).
Proof.
  apply (checkPerformance_only_lowers desktopPage desktopWorld).
  - simpl. lia.
  - simpl. lra.
  - simpl. lra.
Defined.

(* ------------------------------------------------------------------------- *)
(** ** The scroll animations *)

Lemma memElem_In e l : memElem e l = true <-> In e l.
Proof.
  unfold memElem. rewrite existsb_exists. split.
  - intros (x & Hx & E). apply Nat.eqb_eq in E. subst. exact Hx.
  - intros H. exists e. split; [exact H | apply Nat.eqb_refl].
Qed.

Lemma addElem_In l e x : In x (addElem l e) <-> In x l \/ x = e.
Proof.
  unfold addElem. destruct (memElem e l) eqn:M.
  - apply memElem_In in M. split; [auto | intros [H | ->]; auto].
  - rewrite in_app_iff. simpl. intuition auto.
Qed.

Lemma removeElem_In l e x : In x (removeElem l e) <-> In x l /\ x <> e.
Proof.
  unfold removeElem. rewrite filter_In. split; intros [H N]; split; auto.
  - intros ->. rewrite Nat.eqb_refl in N. discriminate.
  - apply negb_true_iff. apply Nat.eqb_neq. auto.
Qed.

Lemma addAll_In es l x : In x (fold_left addElem es l) <-> In x l \/ In x es.
Proof.
  revert l. induction es as [|e es IH]; intros l; simpl.
  - tauto.
  - rewrite IH, addElem_In. intuition auto.
Qed.

Lemma init_flags doc s :
  animatedElements (init doc s) = mkAnimated true true true true.
Proof.
  unfold init, animSelectors. cbn [fold_left]. unfold initSelector.
  destruct s as [[a b c d] t v]. cbn [animatedElements observedFlag fadeIn].
  destruct a, b, c, d; reflexivity.
Qed.

Lemma init_done doc s :
  animatedElements s = mkAnimated true true true true -> init doc s = s.
Proof.
  intros E. destruct s as [a t v]. cbn [animatedElements] in E. subst a.
  reflexivity.
Qed.

Lemma initSelector_targets doc s sel x :
  In x (targets (initSelector doc s sel)) <->
  In x (targets s) \/
  (observedFlag (animatedElements s) sel = false /\ In x (doc sel)).
Proof.
  unfold initSelector. destruct (observedFlag _ _); cbn [negb targets].
  - split; [auto | intros [H | [H _]]; [exact H | discriminate]].
  - rewrite addAll_In. tauto.
Qed.

(** X16. [init] runs once.  The constructor observes the elements that
    match one of the four selectors when it runs, and nothing else; a
    later call of [init] changes nothing, whatever the document holds by
    then: elements that come to match a selector afterwards are not
    observed (until [refresh]). *)
Theorem init_runs_once (doc doc' : Document) (vis : list Elem) (s : Scroll)
    (x : Elem) :
  (In x (targets (newScroll doc vis)) <-> exists sel, In x (doc sel)) /\
  visibleElements (newScroll doc vis) = vis /\
  init doc' (newScroll doc vis) = newScroll doc vis /\
  init doc' (init doc s) = init doc s.
Proof.
  split; [|split; [|split]].
  - unfold newScroll, init, animSelectors. cbn [fold_left].
    rewrite !initSelector_targets. unfold initSelector.
    cbn [setObserved observedFlag animatedElements targets negb
         fadeIn slideInLeft slideInRight scaleIn In].
    split.
    + intros [[[[[] | [_ H]] | [_ H]] | [_ H]] | [_ H]]; eauto.
    + intros [[] H]; auto 8.
  - reflexivity.
  - apply init_done, init_flags.
  - apply init_done, init_flags.
Qed.

Lemma handleIntersect_spec entries s x :
  (In x (visibleElements (handleIntersect entries s)) <->
   In x (visibleElements s) \/ In (x, true) entries) /\
  (In x (targets (handleIntersect entries s)) <->
   In x (targets s) /\ ~ In (x, true) entries) /\
  animatedElements (handleIntersect entries s) = animatedElements s.
Proof.
  unfold handleIntersect. revert s.
  induction entries as [|[e b] entries IH]; intros s; cbn [fold_left].
  - simpl. tauto.
  - destruct (IH (handleEntry s (e, b))) as (V & T & A).
    rewrite V, T, A. unfold handleEntry. cbn [fst snd].
    destruct b; cbn [visibleElements targets animatedElements In];
      rewrite ?addElem_In, ?removeElem_In, pair_equal_spec;
      intuition (subst; auto; try discriminate; try congruence).
Qed.

(** X17. What the observer callback does: after [handleIntersect], the
    elements that carry [visible] are those that carried it before and
    the targets of the intersecting entries; the observed targets are
    those observed before that no intersecting entry names; entries that
    do not intersect change nothing.  So [visible] is never taken away,
    and an element that has it is not observed any longer. *)
Theorem handleIntersect_marks_and_releases (entries : list Entry) (s : Scroll)
    (x : Elem) (misses : list Elem) :
  (In x (visibleElements (handleIntersect entries s)) <->
   In x (visibleElements s) \/ In (x, true) entries) /\
  (In x (targets (handleIntersect entries s)) <->
   In x (targets s) /\ ~ In (x, true) entries) /\
  handleIntersect (map (fun e => (e, false)) misses) s = s.
Proof.
  destruct (handleIntersect_spec entries s x) as (V & T & _).
  split; [exact V|]. split; [exact T|].
  unfold handleIntersect. induction misses as [|e es IH]; [reflexivity|].
  cbn [map fold_left]. exact IH.
Qed.

(** X18. [refresh] observes every element that matches one of the four
    selectors in the document of that moment, keeps every target it had,
    and touches no class: an element that was animated and released
    before is observed again. *)
Theorem refresh_observes_all (doc : Document) (s : Scroll) (x : Elem) :
  (In x (targets (refresh doc s)) <->
   In x (targets s) \/ exists sel, In x (doc sel)) /\
  visibleElements (refresh doc s) = visibleElements s /\
  animatedElements (refresh doc s) = mkAnimated true true true true.
Proof.
  split; [|split].
  - unfold refresh, init, animSelectors. cbn [fold_left].
    destruct s as [a t v]. cbn [animatedElements targets visibleElements].
    rewrite !initSelector_targets. unfold initSelector.
    cbn [setObserved observedFlag animatedElements targets negb
         fadeIn slideInLeft slideInRight scaleIn].
    split.
    + intros [[[[H | [_ H]] | [_ H]] | [_ H]] | [_ H]]; eauto.
    + intros [H | [[] H]]; auto 8.
  - unfold refresh, init, animSelectors. cbn [fold_left]. unfold initSelector.
    destruct s as [a t v]. reflexivity.
  - unfold refresh. apply init_flags.
Qed.

(* ------------------------------------------------------------------------- *)
(** ** The dark mode toggle *)

Lemma clicks_stored n b :
  darkModeItem (clicks (S n) b) = Some (stringOfBool (darkClass (clicks (S n) b))).
Proof.
  revert b. induction n as [|n IH]; intros b.
  - reflexivity.
  - change (clicks (S (S n)) b) with (clicks (S n) (clickDarkMode b)). apply IH.
Qed.

(** X19. The dark mode preference survives a reload, one way only.
    After at least one click, on a page whose markup is not dark the next
    load shows the mode the last visit ended in; on a page whose markup
    is dark the next load is dark whatever was chosen: the stored
    preference can add the class and never removes it. *)
Theorem dark_mode_round_trip (n : nat) (b : Browser) (markupDark : bool) :
  let last := clicks (S n) (initDarkMode b) in
  darkClass (reload false last) = darkClass last /\
  darkClass (reload true last) = true /\
  darkClass (reload markupDark last) = markupDark || darkClass last.
Proof.
  cbv zeta. set (last := clicks (S n) (initDarkMode b)).
  assert (E : darkModeItem last = Some (stringOfBool (darkClass last)))
    by apply clicks_stored.
  assert (R : forall m, darkClass (reload m last) = m || darkClass last).
  { intros m. unfold reload, initDarkMode, darkModePreference.
    cbn [darkModeItem]. rewrite E.
    destruct (darkClass last), m; reflexivity. }
  rewrite !R. repeat split. 
Qed.

(* ------------------------------------------------------------------------- *)
(** ** The opacity of the lines of the canvas path *)

Lemma dist_nonneg ax ay bx by_ : 0 <= dist ax ay bx by_.
Proof. unfold dist. apply sqrt_pos. Qed.

Lemma fade_range (d T : R) : 0 <= d -> d < T -> 0 < 1 - d / T <= 1.
Proof.
  intros D L. assert (HT : 0 < T) by lra.
  assert (0 <= d / T < 1).
  { split.
    - apply Rmult_le_pos; [exact D | left; apply Rinv_0_lt_compat; exact HT].
    - apply Rmult_lt_reg_r with T; [exact HT|]. unfold Rdiv.
      rewrite Rmult_assoc, Rinv_l by lra. lra. }
  lra.
Qed.

Lemma pairLoopCanvas_alpha T a3 a rest s :
  0 <= a3 -> In s (pairLoopCanvas T a3 a rest) -> 0 <= st_alpha s <= a3.
Proof.
  intros H3. induction rest as [|b rest IH]; simpl; [tauto|].
  rewrite in_app_iff. intros [H | H]; [|auto].
  destruct (Rltb _ _) eqn:L; [|destruct H].
  destruct H as [<- | []]. simpl. apply Rltb_true in L.
  pose proof (fade_range _ _ (dist_nonneg (n_x a) (n_y a) (n_x b) (n_y b)) L). nra.
Qed.

Lemma mouseLinkCanvas_alpha T a3 m a s :
  0 <= a3 -> In s (mouseLinkCanvas T a3 m a) -> 0 <= st_alpha s <= a3 * 1.5.
Proof.
  intros H3. unfold mouseLinkCanvas. destruct (m_active m); [|intros []].
  destruct (Rltb _ _) eqn:L; [|intros []].
  intros [<- | []]. simpl. apply Rltb_true in L.
  pose proof (fade_range _ _ (dist_nonneg (m_x m) (m_y m) (n_x a) (n_y a)) L). nra.
Qed.

(** X20. Every line [animateCanvas] strokes has an opacity between 0
    and one and a half times the alpha of the connection colour, when
    that alpha is not negative: with the default colour, at most 0.225. *)
Theorem stroke_alpha_range (T a3 : R) (m : Mouse) (nodes : list Node) (s : Stroke) :
  0 <= a3 -> In s (strokesOf T a3 m nodes) -> 0 <= st_alpha s <= a3 * 1.5.
Proof.
  intros H3. induction nodes as [|a rest IH]; simpl; [tauto|].
  rewrite !in_app_iff. intros [H | [H | H]]; [| |auto].
  - pose proof (pairLoopCanvas_alpha _ _ _ _ _ H3 H). lra.
  - exact (mouseLinkCanvas_alpha _ _ _ _ _ H3 H).
Qed.

Lemma stroke_alpha_range_witness :
  let a := mkNode 0 0 0 0 2 2 0 in
  let b := mkNode 3 4 0 0 2 2 0 in
  let s := mkStroke (0, 0) (3, 4) ((1 - dist 0 0 3 4 / 10) * connectionAlpha) in
  0 <= st_alpha s <= connectionAlpha * 1.5.
Proof.
  apply (stroke_alpha_range 10 connectionAlpha (mkMouse 0 0 false)
           [mkNode 0 0 0 0 2 2 0; mkNode 3 4 0 0 2 2 0]).
  - unfold connectionAlpha. lra.
  - cbn [strokesOf pairLoopCanvas n_x n_y]. apply in_or_app. left.
    replace (Rltb (dist 0 0 3 4) 10) with true; [left; reflexivity|].
    symmetry. apply Rltb_true. unfold dist.
    replace ((0 - 3) * (0 - 3) + (0 - 4) * (0 - 4)) with (5 * 5) by ring.
    rewrite sqrt_square; lra.
Defined.

(* ------------------------------------------------------------------------- *)
(** ** A shader program that cannot be built, on any page *)

Section SatX.

Context {A B : Type}.

Lemma satx_bind (c : M A) (k : A -> M B) w (Q : B -> World -> Prop) E :
  satx c w (fun a w' => satx (k a) w' Q E) E -> satx (bind c k) w Q E.
Proof.
  unfold satx, bind. destruct (c w) as [[a|e] w']; auto.
Qed.

Lemma satx_ret (a : A) w (Q : A -> World -> Prop) E : Q a w -> satx (ret a) w Q E.
Proof. auto. Qed.

Lemma satx_throw e w (Q : A -> World -> Prop) (E : JsError -> World -> Prop) :
  E e w -> satx (throw e) w Q E.
Proof. auto. Qed.

End SatX.

Lemma satx_this w (Q : Inst -> World -> Prop) E : Q (inst w) w -> satx this w Q E.
Proof. auto. Qed.

Lemma satx_setThis f w (Q : unit -> World -> Prop) E :
  Q tt (mkWorld (f (inst w)) (host w)) -> satx (setThis f) w Q E.
Proof. auto. Qed.

Lemma satx_setPage f w (Q : unit -> World -> Prop) E :
  Q tt (mkWorld (inst w) (f (host w))) -> satx (setPage f) w Q E.
Proof. auto. Qed.

(** One step of a method, on a goal [satx c w Q E]. *)
Ltac satx_step :=
  match goal with
  | |- satx (bind _ _) _ _ _ => apply satx_bind
  | |- satx (ret _) _ _ _ => apply satx_ret
  | |- satx (throw _) _ _ _ => apply satx_throw
  | |- satx this _ _ _ => apply satx_this
  | |- satx (setThis _) _ _ _ => apply satx_setThis
  | |- satx (setPage _) _ _ _ => apply satx_setPage
  | |- satx (consoleError _) _ _ _ => unfold consoleError at 1
  | |- satx (glCall _) _ _ _ => unfold glCall at 1
  | |- satx (property _) _ _ _ => unfold property at 1
  | |- satx (createShaderProgram _ _) _ _ _ => unfold createShaderProgram at 1
  end; cbv beta; fields; cbv iota; cbn [negb].

Lemma constructor_shader_failure env arg opts r e :
  resolve env arg = Some e -> glAvailable env = true ->
  shaderFails env NodeProgram || shaderFails env ConnectionProgram = true ->
  satx (constructor env arg opts) (blankWorld r)
       (fun _ _ => False)
       (fun x w =>
          x = TypeError "program is null" /\
          inst w =
            with_connectionProgram
              (if shaderFails env ConnectionProgram then None else Some ConnectionProgram)
              (with_nodeProgram
                 (if shaderFails env NodeProgram then None else Some NodeProgram)
                 (with_gl true
                    (with_canvas true
                       (with_options (spread defaultOptions opts)
                          (with_container (Some e) blankInst))))) /\
          listeners (host w) = [] /\ frameQueue (host w) = [] /\
          observing (host w) = false /\ canvasAttached (host w) = true /\
          ctxOps (host w) = [] /\
          forallb (fun c => negb (isDraw c)) (glCalls (host w)) = true).
Proof.
  intros Res GL F. unfold constructor. repeat satx_step. rewrite Res.
  repeat satx_step. unfold initWebGL at 1. repeat satx_step.
  rewrite GL. cbn [negb]. unfold setupShaders, createShaderProgram, shaderFails in *.
  unfold blankWorld, blankHost, blankInst.
  destruct (compileOk env NodeProgram VertexStage);
    destruct (compileOk env NodeProgram FragmentStage);
    destruct (linkOk env NodeProgram);
    destruct (compileOk env ConnectionProgram VertexStage);
    destruct (compileOk env ConnectionProgram FragmentStage);
    destruct (linkOk env ConnectionProgram);
    try discriminate F;
    repeat satx_step; repeat split.
Qed.

Lemma deliver_dead env ev w :
  dead w ->
  dead (deliver env ev w) /\ inst (deliver env ev w) = inst w /\
  glCalls (host (deliver env ev w)) = glCalls (host w) /\
  canvasAttached (host (deliver env ev w)) = canvasAttached (host w) /\
  ctxOps (host (deliver env ev w)) = ctxOps (host w).
Proof.
  intros (L & Q & O & Rf). unfold dead.
  destruct ev; cbn [deliver]; unfold dispatch, call; fields;
    rewrite ?L, ?Q, ?O, ?Rf; cbn [fold_left];
    try (destruct (container (inst w))); fields; auto 10.
Qed.

Lemma run_dead env evs w :
  dead w ->
  dead (run env evs w) /\ inst (run env evs w) = inst w /\
  glCalls (host (run env evs w)) = glCalls (host w) /\
  canvasAttached (host (run env evs w)) = canvasAttached (host w) /\
  ctxOps (host (run env evs w)) = ctxOps (host w).
Proof.
  revert w. induction evs as [|ev evs IH]; intros w D; [simpl; auto 10|].
  cbn [run fold_left]. fold (run env evs (deliver env ev w)).
  destruct (deliver_dead env ev w D) as (D1 & I1 & G1 & C1 & X1).
  destruct (IH _ D1) as (D2 & I2 & G2 & C2 & X2).
  rewrite I2, G2, C2, X2. auto 10.
Qed.

(** X21. A shader program that cannot be built is fatal on every page.
    Whenever the container exists, a GL context is there and a shader of
    either program fails to compile or the program fails to link, the
    constructor throws the TypeError of a property write on null; no
    fallback is installed, and the page is left with the canvas attached
    and nothing that could ever run: in every session that follows there
    is no listener, no pending frame, the instance stays as the
    constructor left it, and no draw call and no 2D call is ever made. *)
Theorem failed_shader_leaves_dead_canvas (env : Env) (arg : ContainerArg)
    (opts : PartialOptions) (r : R * R) (e : Elem) (evs : list Event) :
  resolve env arg = Some e -> glAvailable env = true ->
  shaderFails env NodeProgram || shaderFails env ConnectionProgram = true ->
  let c := construct env arg opts r in
  let w := session env arg opts r evs in
  fst c = Throw (TypeError "program is null") /\
  animate_ (inst (snd c)) = WebGLLoop /\ ctx (inst (snd c)) = false /\
  inst w = inst (snd c) /\
  listeners (host w) = [] /\ frameQueue (host w) = [] /\
  canvasAttached (host w) = true /\
  ctxOps (host w) = [] /\
  forallb (fun c => negb (isDraw c)) (glCalls (host w)) = true.
Proof.
  intros Res GL F. cbv zeta. unfold session.
  pose proof (constructor_shader_failure env arg opts r e Res GL F) as S.
  unfold satx in S. unfold construct.
  destruct (constructor env arg opts (blankWorld r)) as [[a|x] w0]; [contradiction|].
  destruct S as (-> & I & L & Q & O & C & X & G). cbn [fst snd isOk].
  assert (D : dead (mkWorld (inst w0) (with_reference false (host w0)))).
  { unfold dead. fields. auto. }
  destruct (run_dead env evs _ D) as ((L' & Q' & _) & I' & G' & C' & X').
  rewrite I', G', C', X', L', Q'. fields. rewrite I. fields.
  repeat split; auto.
Qed.

Lemma failed_shader_leaves_dead_canvas_witness :
  let c := construct nodeShaderBroken (Element (Some 0%nat)) noOptions (1920, 1080) in
  let w := session nodeShaderBroken (Element (Some 0%nat)) noOptions (1920, 1080)
             [EvResize 800 600; EvFrame 16; EvDestroy] in
  fst c = Throw (TypeError "program is null") /\
  animate_ (inst (snd c)) = WebGLLoop /\ ctx (inst (snd c)) = false /\
  inst w = inst (snd c) /\
  listeners (host w) = [] /\ frameQueue (host w) = [] /\
  canvasAttached (host w) = true /\
  ctxOps (host w) = [] /\
  forallb (fun c => negb (isDraw c)) (glCalls (host w)) = true.
Proof.
  apply (failed_shader_leaves_dead_canvas nodeShaderBroken (Element (Some 0%nat))
           noOptions (1920, 1080) 0%nat
           [EvResize 800 600; EvFrame 16; EvDestroy]); reflexivity.
Defined.

(* ========================================================================= *)
(** * The render paths and the fallback, method by method *)

(* ------------------------------------------------------------------------- *)
(** ** The connections in the two render paths *)

Lemma prepareConnectionData_eq (w : World) :
  let i := inst w in
  let connections :=
    flatten (connectionsOf (connectionDistance (options i)) (mouse i) (nodes i)) in
  prepareConnectionData w =
    if gl i
    then (Ok (Nat.div (List.length connections) 2),
          mkWorld i
            (with_glLive (glLive (host w))
               (with_glCalls
                  (glCalls (host w)
                   ++ [BufferData (connectionPositionBuffer i) (List.length connections)])
                  (host w))))
    else (Throw (TypeError "this.gl is null"), w).
Proof.
  cbv zeta. unfold prepareConnectionData, glCall, bind, this, setPage, ret, throw.
  cbv beta. fields. destruct (gl (inst w)); reflexivity.
Qed.

Lemma forEach_ctxCall {A : Type} (f : A -> CtxOp) (l : list A) (i : Inst) (h : Host) :
  ctx i = true ->
  forEach (fun a => ctxCall (f a)) l (mkWorld i h) =
    (Ok tt, mkWorld i (with_ctxOps (ctxOps h ++ map f l) h)).
Proof.
  intros C. revert h. induction l as [|a l IH]; intros h.
  - cbn [forEach map]. unfold ret. rewrite app_nil_r. destruct h; reflexivity.
  - cbn [forEach map]. unfold bind at 1, ctxCall at 1, bind at 1, this at 1.
    fields. rewrite C. unfold setPage at 1. rewrite IH. fields.
    rewrite <- app_assoc. reflexivity.
Qed.

Lemma forEach_drawNode (l : list Node) (i : Inst) (h : Host) :
  ctx i = true ->
  forEach drawNode l (mkWorld i h) =
    (Ok tt, mkWorld i (with_ctxOps (ctxOps h ++ flat_map nodeArcs l) h)).
Proof.
  intros C. revert h. induction l as [|n l IH]; intros h.
  - cbn [forEach flat_map]. unfold ret. rewrite app_nil_r. destruct h; reflexivity.
  - cbn [forEach flat_map]. unfold bind at 1, drawNode at 1, bind at 1,
      ctxCall at 1, bind at 1, this at 1.
    fields. rewrite C. unfold setPage at 1.
    unfold ctxCall at 1, bind at 1, this at 1. fields. rewrite C.
    unfold setPage at 1. rewrite IH. fields.
    unfold nodeArcs at 2. rewrite <- !app_assoc. reflexivity.
Qed.

Lemma animateCanvas_eq (now : R) (w : World) :
  let i := inst w in
  let queued := with_frameQueue (frameQueue (host w) ++ [CanvasLoop]) (host w) in
  let ns := updateNodes (options i) (width i) (height i) now (mouse i) (nodes i) in
  let moved := with_nodes ns (with_time now i) in
  animateCanvas now w =
    if negb (isVisible i) || negb (shouldRender i) then (Ok tt, mkWorld i queued)
    else if ctx i
    then (Ok tt,
          mkWorld moved
            (with_ctxOps
               (ctxOps (host w)
                ++ [FillRect (width i) (height i)]
                ++ map StrokeLine
                     (strokesOf (connectionDistance (options i)) connectionAlpha
                        (mouse i) ns)
                ++ flat_map nodeArcs ns)
               queued))
    else (Throw (TypeError "this.ctx is null"), mkWorld moved queued).
Proof.
  cbv zeta. unfold animateCanvas.
  unfold bind at 1, requestAnimationFrame at 1, setPage at 1.
  unfold bind at 1, this at 1. fields.
  destruct (negb (isVisible (inst w)) || negb (shouldRender (inst w)));
    [reflexivity|].
  unfold bind at 1, setThis at 1. unfold bind at 1, doUpdateNodes at 1, setThis at 1.
  unfold bind at 1, this at 1. fields.
  unfold bind at 1, ctxCall at 1, bind at 1, this at 1. fields.
  destruct (ctx (inst w)) eqn:C; [|reflexivity].
  unfold setPage at 1. unfold bind at 1.
  rewrite forEach_ctxCall by (fields; exact C).
  rewrite forEach_drawNode by (fields; exact C). fields.
  rewrite <- !app_assoc. reflexivity.
Qed.

Lemma connections_twoNodes :
  connectionsOf 120 (mkMouse 3 0 true) twoNodes =
    [(0, 0, 3, 4); (0, 0, 3, 0); (3, 4, 3, 0)].
Proof.
  assert (D1 : Rltb (dist 0 0 3 4) 120 = true).
  { apply Rltb_true. unfold dist.
    replace ((0 - 3) * (0 - 3) + (0 - 4) * (0 - 4)) with (5 * 5) by ring.
    rewrite sqrt_square; lra. }
  assert (D2 : Rltb (dist 3 0 0 0) (120 * 1.5) = true).
  { apply Rltb_true. unfold dist.
    replace ((3 - 0) * (3 - 0) + (0 - 0) * (0 - 0)) with (3 * 3) by ring.
    rewrite sqrt_square; lra. }
  assert (D3 : Rltb (dist 3 0 3 4) (120 * 1.5) = true).
  { apply Rltb_true. unfold dist.
    replace ((3 - 3) * (3 - 3) + (0 - 4) * (0 - 4)) with (4 * 4) by ring.
    rewrite sqrt_square; lra. }
  unfold twoNodes. cbn [connectionsOf pairLoop mouseLink n_x n_y m_x m_y m_active].
  rewrite D1, D2, D3. reflexivity.
Qed.

(** C2. The connections built in a frame are exactly the pairs of nodes
    [i < j] at distance strictly below the threshold [T], plus, when the
    pointer is active, the nodes at distance strictly below [T * 1.5] of
    the pointer; the segments of the Canvas path are those of the WebGL
    path, and a pair at distance exactly [T], or a node at exactly
    [T * 1.5] of the pointer, is left out in both.  [prepareConnectionData]
    builds this list from the threshold, the pointer and the nodes of the
    instance, uploads its flat array to the connection buffer (four
    numbers for each segment; the trace records the length) and returns
    half that length; [animateCanvas], when it draws, strokes exactly the
    lines of this list for the nodes it has just moved, in order, between
    the background and the node arcs. *)
Theorem connection_set_exact (T a3 : R) (m : Mouse) (ns : list Node) :
  (forall s : Segment,
      In s (connectionsOf T m ns) <->
      (exists i j a b, (i < j)%nat /\ nth_error ns i = Some a /\
                       nth_error ns j = Some b /\
                       dist (n_x a) (n_y a) (n_x b) (n_y b) < T /\
                       s = (n_x a, n_y a, n_x b, n_y b))
      \/ (m_active m = true /\
          exists i a, nth_error ns i = Some a /\
                      dist (m_x m) (m_y m) (n_x a) (n_y a) < T * 1.5 /\
                      s = (n_x a, n_y a, m_x m, m_y m)))
  /\ map segmentOfStroke (strokesOf T a3 m ns) = connectionsOf T m ns
  /\ (forall a b, dist (n_x a) (n_y a) (n_x b) (n_y b) = T ->
                  pairLoop T a [b] = [] /\ pairLoopCanvas T a3 a [b] = [])
  /\ (forall a, dist (m_x m) (m_y m) (n_x a) (n_y a) = T * 1.5 ->
                mouseLink T m a = [] /\ mouseLinkCanvas T a3 m a = [])
  /\ (forall w : World,
        let i := inst w in
        let connections :=
          flatten (connectionsOf (connectionDistance (options i)) (mouse i) (nodes i)) in
        prepareConnectionData w =
          if gl i
          then (Ok (Nat.div (List.length connections) 2),
                mkWorld i
                  (with_glLive (glLive (host w))
                     (with_glCalls
                        (glCalls (host w)
                         ++ [BufferData (connectionPositionBuffer i)
                                        (List.length connections)])
                        (host w))))
          else (Throw (TypeError "this.gl is null"), w))
  /\ (forall (now : R) (w : World),
        let i := inst w in
        let queued := with_frameQueue (frameQueue (host w) ++ [CanvasLoop]) (host w) in
        let moved := updateNodes (options i) (width i) (height i) now (mouse i) (nodes i) in
        animateCanvas now w =
          if negb (isVisible i) || negb (shouldRender i) then (Ok tt, mkWorld i queued)
          else if ctx i
          then (Ok tt,
                mkWorld (with_nodes moved (with_time now i))
                  (with_ctxOps
                     (ctxOps (host w)
                      ++ [FillRect (width i) (height i)]
                      ++ map StrokeLine
                           (strokesOf (connectionDistance (options i)) connectionAlpha
                              (mouse i) moved)
                      ++ flat_map nodeArcs moved)
                     queued))
          else (Throw (TypeError "this.ctx is null"),
                mkWorld (with_nodes moved (with_time now i)) queued)).
Proof.
  split; [|split; [|split; [|split; [|split]]]].
  - intros s. rewrite connectionsOf_In. unfold linked, reached, pairSegment, mouseSegment.
    split; (intros [H | H]; [left; exact H | right]).
    + destruct H as (i & a & Hi & [Ha Hd] & Hs). split; auto. exists i, a. auto.
    + destruct H as (Ha & i & a & Hi & Hd & Hs). exists i, a. auto.
  - apply strokesOf_segments.
  - intros a b H. simpl.
    assert (E : Rltb (dist (n_x a) (n_y a) (n_x b) (n_y b)) T = false)
      by (apply Rltb_false; lra).
    rewrite E. auto.
  - intros a H. unfold mouseLink, mouseLinkCanvas.
    assert (E : Rltb (dist (m_x m) (m_y m) (n_x a) (n_y a)) (T * 1.5) = false)
      by (apply Rltb_false; lra).
    cbv zeta. rewrite E. destruct (m_active m); auto.
  - exact prepareConnectionData_eq.
  - exact animateCanvas_eq.
Qed.

Lemma connection_set_exact_witness :
  prepareConnectionData (pairWorld true) =
    (Ok 6%nat,
     mkWorld (inst (pairWorld true))
       (with_glCalls [BufferData (Some ConnectionPositionBuffer) 12]
          (host (pairWorld true))))
  /\ animateCanvas 16 (pairWorld false) =
       (Ok tt,
        mkWorld
          (with_nodes
             (updateNodes defaultOptions 1920 1080 16 (mkMouse 3 0 true) twoNodes)
             (with_time 16 (inst (pairWorld false))))
          (with_ctxOps
             ([FillRect 1920 1080]
              ++ map StrokeLine
                   (strokesOf 120 connectionAlpha (mkMouse 3 0 true)
                      (updateNodes defaultOptions 1920 1080 16 (mkMouse 3 0 true)
                         twoNodes))
              ++ flat_map nodeArcs
                   (updateNodes defaultOptions 1920 1080 16 (mkMouse 3 0 true)
                      twoNodes))
             (with_frameQueue [CanvasLoop] (host (pairWorld false))))).
Proof.
  destruct (connection_set_exact 120 connectionAlpha (mkMouse 3 0 true) twoNodes)
    as (_ & _ & _ & _ & GL & Canvas).
  split.
  - rewrite GL.
    change (connectionsOf
              (connectionDistance (options (inst (pairWorld true))))
              (mouse (inst (pairWorld true))) (nodes (inst (pairWorld true))))
      with (connectionsOf 120 (mkMouse 3 0 true) twoNodes).
    rewrite connections_twoNodes. reflexivity.
  - rewrite Canvas. reflexivity.
Defined.

(* ------------------------------------------------------------------------- *)
(** ** The fallback, on any instance *)

(** What [fallbackToCanvas] leaves, field by field. *)
Lemma fallbackToCanvas_reseeds env w :
  sat (fallbackToCanvas env) w
      (fun _ w' =>
         gl (inst w') = false /\
         animate_ (inst w') = CanvasLoop /\
         nodeCount (options (inst w')) = Z.min (nodeCount (options (inst w))) 50 /\
         connectionDistance (options (inst w')) =
           Rmin (connectionDistance (options (inst w))) 100 /\
         nodes (inst w') =
           seedNodes env (width (inst w)) (height (inst w)) (options (inst w'))
             (Z.to_nat
                (tierCap (performanceLevel (inst w))
                   (Zfloor (IZR (Z.min (nodeCount (options (inst w))) 50)
                            * areaRatio (width (inst w)) (height (inst w))))))
             (rng (host w)))
      (fun _ => False).
Proof.
  unfold fallbackToCanvas. sat_steps.
  assert (K : forall i0 : Inst,
    width i0 = width (inst w) -> height i0 = height (inst w) ->
    options i0 = options (inst w) -> performanceLevel i0 = performanceLevel (inst w) ->
    gl i0 = false ->
    sat (bind (setThis (with_ctx (ctx2dAvailable env))) (fun _ =>
         bind (setThis (with_animate CanvasLoop)) (fun _ =>
         bind (setOptions (fun o => set_nodeCount o (Z.min (nodeCount o) 50))) (fun _ =>
         bind (setOptions
                 (fun o => set_connectionDistance o (Rmin (connectionDistance o) 100)))
              (fun _ =>
         bind (createNodes env) (fun _ =>
           consoleLog "Using Canvas fallback for neural network animation"))))))
        (mkWorld i0 (host w))
        (fun _ w' =>
         gl (inst w') = false /\
         animate_ (inst w') = CanvasLoop /\
         nodeCount (options (inst w')) = Z.min (nodeCount (options (inst w))) 50 /\
         connectionDistance (options (inst w')) =
           Rmin (connectionDistance (options (inst w))) 100 /\
         nodes (inst w') =
           seedNodes env (width (inst w)) (height (inst w)) (options (inst w'))
             (Z.to_nat
                (tierCap (performanceLevel (inst w))
                   (Zfloor (IZR (Z.min (nodeCount (options (inst w))) 50)
                            * areaRatio (width (inst w)) (height (inst w))))))
             (rng (host w)))
        (fun _ => False)).
  { intros i0 Ew Eh Eo El G. sat_steps.
    unfold sat at 1. rewrite createNodes_eq. fields. sat_steps.
    rewrite adjust_formula. fields. rewrite Eo, Ew, Eh, El.
    repeat split; auto. }
  destruct (gl (inst w)) eqn:G.
  - apply sat_setThis. apply (K (with_gl false (inst w))); reflexivity.
  - apply sat_ret. destruct w as [i h]. apply (K i); auto.
Qed.

Lemma animateCanvas_count now w :
  List.length (nodes (inst (snd (animateCanvas now w)))) = List.length (nodes (inst w)).
Proof.
  pose proof (animateCanvas_eq now w) as E. cbv zeta in E. rewrite E.
  destruct (negb (isVisible (inst w)) || negb (shouldRender (inst w)));
    [reflexivity|].
  destruct (ctx (inst w)); cbn [snd inst with_nodes nodes]; unfold updateNodes;
    apply length_map.
Qed.

(** C10. [fallbackToCanvas] always returns; it drops the GL context,
    makes [animateCanvas] the frame callback, lowers [nodeCount] to
    [min nodeCount 50] and [connectionDistance] to
    [min connectionDistance 100], and replaces the nodes by nodes seeded
    under these options: as many as the capped count, scaled by the area
    and capped by the tier, gives, so at most 50 on a canvas of
    non-negative area; and a frame of the fallback loop never changes the
    number of nodes. *)
Theorem fallback_tightens_configuration (env : Env) (w : World) :
  exists w',
    fallbackToCanvas env w = (Ok tt, w') /\
    gl (inst w') = false /\
    animate_ (inst w') = CanvasLoop /\
    nodeCount (options (inst w')) = Z.min (nodeCount (options (inst w))) 50 /\
    connectionDistance (options (inst w')) =
      Rmin (connectionDistance (options (inst w))) 100 /\
    nodes (inst w') =
      seedNodes env (width (inst w)) (height (inst w)) (options (inst w'))
        (Z.to_nat
           (tierCap (performanceLevel (inst w))
              (Zfloor (IZR (Z.min (nodeCount (options (inst w))) 50)
                       * areaRatio (width (inst w)) (height (inst w))))))
        (rng (host w)) /\
    (0 <= width (inst w) * height (inst w) ->
     (List.length (nodes (inst w')) <= 50)%nat) /\
    (forall now w1,
        List.length (nodes (inst (snd (animateCanvas now w1)))) =
        List.length (nodes (inst w1))).
Proof.
  pose proof (fallbackToCanvas_reseeds env w) as S. unfold sat in S.
  destruct (fallbackToCanvas env w) as [[[]|e] w']; [|contradiction].
  destruct S as (G & A & N & D & Ns).
  exists w'. split; [reflexivity|]. repeat split; auto.
  - intros Ar. rewrite Ns, seedNodes_length.
    match goal with |- (Z.to_nat ?z <= 50)%nat => assert (B : (z <= 50)%Z) end.
    { etransitivity; [apply tierCap_le|].
      apply area_bound; [lia | apply areaRatio_range; exact Ar]. }
    lia.
  - apply animateCanvas_count.
Qed.

Lemma areaRatio_full : areaRatio 1920 1080 = 1.
Proof.
  unfold areaRatio. replace (1920 * 1080 / (1920 * 1080)) with 1 by (field; lra).
  apply Rmin_left. lra.
Qed.

Lemma fallback_tightens_configuration_witness :
  exists w',
    fallbackToCanvas softwarePage crowded = (Ok tt, w') /\
    nodeCount (options (inst crowded)) = 400%Z /\
    nodeCount (options (inst w')) = 50%Z /\
    connectionDistance (options (inst w')) = 100 /\
    List.length (nodes (inst w')) = 50%nat /\
    (List.length (nodes (inst w')) <= 50)%nat.
Proof.
  destruct (fallback_tightens_configuration softwarePage crowded)
    as (w' & E & _ & _ & N & D & Ns & B & _).
  exists w'. split; [exact E|]. split; [reflexivity|].
  split; [rewrite N; reflexivity|].
  split; [rewrite D; simpl; apply Rmin_right; lra|].
  split.
  - rewrite Ns, seedNodes_length. cbn [crowded inst performanceLevel options width height
      nodeCount spread manyNodes p_nodeCount orElse tierCap].
    rewrite areaRatio_full, Rmult_1_r.
    change (Z.min 400 50) with 50%Z. rewrite ZfloorZ. reflexivity.
  - apply B. simpl. lra.
Defined.

(* ------------------------------------------------------------------------- *)
(** ** The bounds, on a session that holds a node *)

Lemma nodes_stay_in_bounds_witness :
  ((let w := session desktopPage (Element (Some 0%nat)) noOptions (1920, 1080)
               [EvUpdateOptions oneNode; EvResize 1024 768; EvFrame 16] in
    Forall (inBounds (width (inst w)) (height (inst w))) (nodes (inst w)))
   /\ (forall w,
          gl (inst w) = true ->
          0 <= fst (rect (host w)) -> 0 <= snd (rect (host w)) ->
          let w' := snd (resize desktopPage w) in
          width (inst w') = fst (rect (host w)) /\
          height (inst w') = snd (rect (host w)) /\
          Forall (inBounds (fst (rect (host w))) (snd (rect (host w))))
                 (nodes (inst w')))
   /\ (forall o wd ht t m n,
          let n' := updateNode o wd ht t m n in
          (exits wd (n_x n + n_vx n) ->
             n_x n' = Rmax 0 (Rmin wd (n_x n + n_vx n)) /\
             (m_active m = false -> n_vx n' = - n_vx n)) /\
          (exits ht (n_y n + n_vy n) ->
             n_y n' = Rmax 0 (Rmin ht (n_y n + n_vy n)) /\
             (m_active m = false -> n_vy n' = - n_vy n))))
  /\ List.length
       (nodes (inst (session desktopPage (Element (Some 0%nat)) noOptions (1920, 1080)
                       [EvUpdateOptions oneNode; EvResize 1024 768; EvFrame 16])))
     = 1%nat.
Proof.
  split.
  - apply (nodes_stay_in_bounds desktopPage (Element (Some 0%nat))
             noOptions (1920, 1080)
             [EvUpdateOptions oneNode; EvResize 1024 768; EvFrame 16]).
    + exact desktop_random_range.
    + simpl. lra.
    + simpl. lra.
    + repeat constructor; simpl; lra.
  - unfold session. rewrite desktop_construct. cbn [snd run fold_left].
    rewrite desktop_seeded. vm_compute. reflexivity.
Defined.
